(** * The kframe animation component (src/components/animation/index.js)

    A shallow embedding of the component's lifecycle methods, its
    property adapter and its event wiring, together with the properties
    checked against it.

    - JavaScript numbers are IEEE-754 binary64 values ([PrimFloat.float]);
      strings are converted to and from numbers as the language does.
    - [el.components] and the module-level [splitCache] are finite maps
      keyed by strings; objects are ordered field lists.
    - Methods run in a state-and-exception monad over the owning entity;
      a [TypeError] keeps the mutations made before it was raised.
    - The tweening engine (anime.js), the host framework and three.js are
      outside the component. The engine and the host's readers are
      parameters ([Host]): the engine decides, from the instance it was
      given and the calls made to it so far, which callbacks it fires.
      The host's writers are recorded in a log ([writes]).
    - [el.emit] records the notification on the entity, [setTimeout] the
      timer. The delivery of an event to the listeners and the firing of
      a timer are calls of their own ([DoEvent], [DoTimer]), as are the
      host's calls of [update], [tick], [remove], [pause] and [play]. *)

From Stdlib Require Import ZArith Ascii String DecimalString.
From Stdlib Require Import Floats.PrimFloat Floats.SpecFloat Floats.FloatOps.
From Stdlib Require Import Floats.FloatAxioms.
From stdpp Require Import gmap strings list fin_maps.

Local Open Scope string_scope.
Local Open Scope Z_scope.

#[local] Set Warnings "-clear-no-such-hyp".

(** ** JavaScript values *)

Module JS.

(** Numbers are binary64 floats. *)
Abbreviation number := PrimFloat.float.

Definition NaN : number := PrimFloat.nan.
Definition zero : number := PrimFloat.zero.
Definition one : number := PrimFloat.one.

(** Values that the component handles: primitives, and plain objects as
    ordered field lists (insertion order, as [for (key in obj)] walks). *)
#[warnings="-register-all"] Inductive value :=
| VUndefined
| VNull
| VBool (b : bool)
| VNum (n : number)
| VStr (s : string)
| VObj (fields : list (string * value)).

(** [obj[key]] on an ordered field list. *)
Fixpoint field (key : string) (fs : list (string * value)) : value :=
  match fs with
  | [] => VUndefined
  | (k, v) :: fs' => if String.eqb k key then v else field key fs'
  end.

(** [obj[key] = v]: overwrite in place, or append a new key. *)
Fixpoint set_field (key : string) (v : value) (fs : list (string * value))
  : list (string * value) :=
  match fs with
  | [] => [(key, v)]
  | (k, w) :: fs' =>
      if String.eqb k key then (k, v) :: fs' else (k, w) :: set_field key v fs'
  end.

(** [key in obj]. *)
Definition has_field (key : string) (fs : list (string * value)) : bool :=
  existsb (fun kv => String.eqb (fst kv) key) fs.

Definition is_nan (n : number) : bool := negb (PrimFloat.eqb n n).

(** ToBoolean. *)
Definition truthy (v : value) : bool :=
  match v with
  | VUndefined | VNull => false
  | VBool b => b
  | VNum n => negb (PrimFloat.eqb n zero || is_nan n)
  | VStr s => negb (String.eqb s "")
  | VObj _ => true
  end.

(** *** Numeric literals

    [StringToNumber] and [parseFloat] share the scanner of
    StrDecimalLiteral. A literal is scanned into a mantissa and a decimal
    exponent and then rounded to the nearest binary64 (ties to even). *)

Definition is_space (c : ascii) : bool :=
  let n := nat_of_ascii c in
  (Nat.eqb n 32 || (Nat.leb 9 n && Nat.leb n 13))%bool.

Fixpoint trim_left (cs : list ascii) : list ascii :=
  match cs with
  | c :: cs' => if is_space c then trim_left cs' else cs
  | [] => []
  end.

Definition trim_right (cs : list ascii) : list ascii :=
  rev (trim_left (rev cs)).

Definition digit_of (c : ascii) : option Z :=
  let n := nat_of_ascii c in
  if (Nat.leb 48 n && Nat.leb n 57)%bool then Some (Z.of_nat (n - 48)) else None.

(** Longest run of decimal digits: accumulated value, digit count, rest. *)
Fixpoint scan_digits (cs : list ascii) (acc : Z) (cnt : Z) : Z * Z * list ascii :=
  match cs with
  | c :: cs' =>
      match digit_of c with
      | Some d => scan_digits cs' (10 * acc + d) (cnt + 1)
      | None => (acc, cnt, cs)
      end
  | [] => (acc, cnt, [])
  end.

(** Nearest binary64 to [m * 10 ^ e10], for [0 <= m]. *)
Definition round_decimal (m e10 : Z) : number :=
  if Z.eqb m 0 then zero
  else if Z.leb 0 e10 then
    SF2Prim (binary_normalize 53 1024 (m * 10 ^ e10) 0 false)
  else
    let d := 10 ^ (- e10) in
    let k := Z.max 0 (64 + Z.log2 d - Z.log2 m) in
    let q := (m * 2 ^ k) / d in
    let sticky := if Z.eqb ((m * 2 ^ k) mod d) 0 then 0 else 1 in
    SF2Prim (binary_normalize 53 1024 (2 * q + sticky) (- k - 1) false).

(** Optional ExponentPart: [e] or [E], an optional sign, one digit or more.
    Without a digit nothing is consumed. *)
Definition scan_exponent (cs : list ascii) : Z * list ascii :=
  match cs with
  | c :: cs' =>
      if (Ascii.eqb c "e" || Ascii.eqb c "E")%bool then
        let '(neg, ds) :=
          match cs' with
          | s :: ds' =>
              if Ascii.eqb s "-" then (true, ds')
              else if Ascii.eqb s "+" then (false, ds')
              else (false, cs')
          | [] => (false, cs')
          end in
        let '(e, cnt, rest) := scan_digits ds 0 0 in
        if Z.eqb cnt 0 then (0, cs) else ((if neg then - e else e), rest)
      else (0, cs)
  | [] => (0, [])
  end.

(** Unsigned decimal literal at the head of [cs]: its value and the rest. *)
Definition scan_unsigned (cs : list ascii) : option (number * list ascii) :=
  let '(ip, icnt, r1) := scan_digits cs 0 0 in
  let '(fp, fcnt, r2) :=
    match r1 with
    | c :: r1' =>
        if Ascii.eqb c "." then
          let '(fp, fcnt, r2) := scan_digits r1' 0 0 in
          (* a lone dot belongs to the literal only after integer digits *)
          if (Z.eqb icnt 0 && Z.eqb fcnt 0)%bool then (0, 0, r1) else (fp, fcnt, r2)
        else (0, 0, r1)
    | [] => (0, 0, r1)
    end in
  if (Z.eqb icnt 0 && Z.eqb fcnt 0)%bool then None
  else
    let '(e, r3) := scan_exponent r2 in
    Some (round_decimal (ip * 10 ^ fcnt + fp) (e - fcnt), r3).

Definition infinity_lit : list ascii := list_ascii_of_string "Infinity".

Fixpoint strip_prefix (p cs : list ascii) : option (list ascii) :=
  match p, cs with
  | [], _ => Some cs
  | a :: p', c :: cs' => if Ascii.eqb a c then strip_prefix p' cs' else None
  | _ :: _, [] => None
  end.

(** An optional sign at the head of [cs]: whether it is a minus, and
    what follows it. *)
Definition scan_sign (cs : list ascii) : bool * list ascii :=
  match cs with
  | c :: cs' =>
      if Ascii.eqb c "-" then (true, cs')
      else if Ascii.eqb c "+" then (false, cs')
      else (false, cs)
  | [] => (false, cs)
  end.

(** StrDecimalLiteral at the head of [cs]. *)
Definition scan_decimal (cs : list ascii) : option (number * list ascii) :=
  let '(neg, body) := scan_sign cs in
  let signed (n : number) := if neg then PrimFloat.opp n else n in
  match strip_prefix infinity_lit body with
  | Some rest => Some (signed PrimFloat.infinity, rest)
  | None =>
      match scan_unsigned body with
      | Some (n, rest) => Some (signed n, rest)
      | None => None
      end
  end.

(** [parseFloat] on a string: leading white space is skipped, the longest
    decimal literal is read, trailing text is ignored. *)
Definition parseFloat_string (s : string) : number :=
  match scan_decimal (trim_left (list_ascii_of_string s)) with
  | Some (n, _) => n
  | None => NaN
  end.

(** [parseInt(s, 10)] on a string: leading white space, an optional
    sign, and the longest run of decimal digits. *)
Definition parseInt10_string (s : string) : number :=
  let '(neg, body) := scan_sign (trim_left (list_ascii_of_string s)) in
  let '(m, cnt, _) := scan_digits body 0 0 in
  if Z.eqb cnt 0 then NaN
  else if neg then PrimFloat.opp (round_decimal m 0) else round_decimal m 0.

Definition radix_digit_of (radix : Z) (c : ascii) : option Z :=
  let n := Z.of_nat (nat_of_ascii c) in
  let d :=
    if (Z.leb 48 n && Z.leb n 57)%bool then n - 48
    else if (Z.leb 97 n && Z.leb n 102)%bool then n - 87
    else if (Z.leb 65 n && Z.leb n 70)%bool then n - 55
    else 99 in
  if Z.ltb d radix then Some d else None.

Fixpoint scan_radix (radix : Z) (cs : list ascii) (acc : Z) : option Z :=
  match cs with
  | [] => Some acc
  | c :: cs' =>
      match radix_digit_of radix c with
      | Some d => scan_radix radix cs' (radix * acc + d)
      | None => None
      end
  end.

(** NonDecimalIntegerLiteral: [0x], [0o], [0b] and digits, nothing else. *)
Definition scan_nondecimal (cs : list ascii) : option number :=
  match cs with
  | z :: p :: (_ :: _) as ds =>
      if Ascii.eqb z "0" then
        let radix :=
          if (Ascii.eqb p "x" || Ascii.eqb p "X")%bool then 16
          else if (Ascii.eqb p "o" || Ascii.eqb p "O")%bool then 8
          else if (Ascii.eqb p "b" || Ascii.eqb p "B")%bool then 2
          else 0 in
        if Z.eqb radix 0 then None
        else option_map (fun m => round_decimal m 0) (scan_radix radix ds 0)
      else None
  | _ => None
  end.

(** StringToNumber: the whole trimmed string must be one literal; the
    empty string is [+0]. *)
Definition string_to_number (s : string) : number :=
  let cs := trim_right (trim_left (list_ascii_of_string s)) in
  match cs with
  | [] => zero
  | _ =>
      match scan_nondecimal cs with
      | Some n => n
      | None =>
          match scan_decimal cs with
          | Some (n, []) => n
          | _ => NaN
          end
      end
  end.

(** *** Number::toString

    The digits are the shortest ones that read back as the same number;
    of two equally short candidates the one nearer to the number wins. *)

(** [10 ^ p <= num / den]. *)
Definition pow10_le (num den p : Z) : bool :=
  if Z.leb 0 p then Z.leb (10 ^ p * den) num else Z.leb den (num * 10 ^ (- p)).

Fixpoint adjust_up (fuel : nat) (num den n : Z) : Z :=
  match fuel with
  | O => n
  | S f => if pow10_le num den n then adjust_up f num den (n + 1) else n
  end.

Fixpoint adjust_down (fuel : nat) (num den n : Z) : Z :=
  match fuel with
  | O => n
  | S f => if pow10_le num den (n - 1) then n else adjust_down f num den (n - 1)
  end.

(** The [n] with [10 ^ (n - 1) <= num / den < 10 ^ n], from an estimate
    that is off by two at most. *)
Definition decimal_exponent (num den : Z) : Z :=
  let est := (Z.log2 num - Z.log2 den) * 30103 / 100000 in
  adjust_down 6 num den (adjust_up 6 num den est).

(** A [k]-digit significand [s] and exponent [n'] with
    [round_decimal s (n' - k)] equal to [x], if there is one. *)
Definition k_digits (x : number) (num den n k : Z) : option (Z * Z) :=
  let p := k - n in
  let N := if Z.leb 0 p then num * 10 ^ p else num in
  let D := if Z.leb 0 p then den else den * 10 ^ (- p) in
  let lo := N / D in
  let r := N mod D in
  let hi := lo + 1 in
  let reads_back s := PrimFloat.eqb (round_decimal s (n - k)) x in
  let lo_first := (Z.ltb (2 * r) D || (Z.eqb (2 * r) D && Z.even lo))%bool in
  let fst_c := if lo_first then lo else hi in
  let snd_c := if lo_first then hi else lo in
  let chosen :=
    if reads_back fst_c then Some fst_c
    else if reads_back snd_c then Some snd_c else None in
  match chosen with
  | Some s => if Z.eqb s (10 ^ k) then Some (10 ^ (k - 1), n + 1) else Some (s, n)
  | None => None
  end.

Fixpoint shortest_digits (fuel : nat) (x : number) (num den n k : Z) : Z * Z * Z :=
  match fuel with
  | O => (num * 10 ^ (17 - n) / den, n, 17)
  | S f =>
      match k_digits x num den n k with
      | Some (s, n') => (s, n', k)
      | None => shortest_digits f x num den n (k + 1)
      end
  end.

Definition Z_digits (z : Z) : string :=
  NilZero.string_of_uint (N.to_uint (Z.to_N z)).

Fixpoint zeros (n : nat) : string :=
  match n with
  | O => ""
  | S n' => String "0" (zeros n')
  end.

Definition take_chars (n : Z) (s : string) : string :=
  String.substring 0 (Z.to_nat n) s.

Definition drop_chars (n : Z) (s : string) : string :=
  String.substring (Z.to_nat n) (String.length s - Z.to_nat n) s.

(** The four layouts of Number::toString for a positive finite number. *)
Definition layout (s n k : Z) : string :=
  let ds := Z_digits s in
  if (Z.leb k n && Z.leb n 21)%bool then ds ++ zeros (Z.to_nat (n - k))
  else if (Z.ltb 0 n && Z.leb n 21)%bool then take_chars n ds ++ "." ++ drop_chars n ds
  else if (Z.ltb (-6) n && Z.leb n 0)%bool then "0." ++ zeros (Z.to_nat (- n)) ++ ds
  else
    let e := n - 1 in
    let ex := (if Z.ltb e 0 then "-" else "+") ++ Z_digits (Z.abs e) in
    if Z.eqb k 1 then ds ++ "e" ++ ex
    else take_chars 1 ds ++ "." ++ drop_chars 1 ds ++ "e" ++ ex.

Definition number_to_string (x : number) : string :=
  match Prim2SF x with
  | S754_nan => "NaN"
  | S754_zero _ => "0"
  | S754_infinity neg => if neg then "-Infinity" else "Infinity"
  | S754_finite neg m e =>
      let num := if Z.leb 0 e then Z.pos m * 2 ^ e else Z.pos m in
      let den := if Z.leb 0 e then 1 else 2 ^ (- e) in
      let n := decimal_exponent num den in
      let '(s, n', k) := shortest_digits 17 (PrimFloat.abs x) num den n 1 in
      (if neg then "-" else "") ++ layout s n' k
  end.

(** ToString. A plain object prints as ["[object Object]"]. *)
Definition ToString (v : value) : string :=
  match v with
  | VUndefined => "undefined"
  | VNull => "null"
  | VBool b => if b then "true" else "false"
  | VNum n => number_to_string n
  | VStr s => s
  | VObj _ => "[object Object]"
  end.

(** ToNumber. A plain object converts through its string. *)
Definition ToNumber (v : value) : number :=
  match v with
  | VUndefined => NaN
  | VNull => zero
  | VBool b => if b then one else zero
  | VNum n => n
  | VStr s => string_to_number s
  | VObj _ => NaN
  end.

(** The global [isNaN]. *)
Definition isNaN (v : value) : bool := is_nan (ToNumber v).

(** The global [parseFloat]: the argument is converted to a string, and
    the string is scanned. *)
Definition parseFloat (v : value) : number := parseFloat_string (ToString v).

(** [parseInt(v, 10)]. *)
Definition parseInt10 (v : value) : number := parseInt10_string (ToString v).

(** Strict equality. Two object values stand for two distinct objects. *)
Definition strict_eq (a b : value) : bool :=
  match a, b with
  | VUndefined, VUndefined => true
  | VNull, VNull => true
  | VBool x, VBool y => Bool.eqb x y
  | VNum x, VNum y => PrimFloat.eqb x y
  | VStr x, VStr y => String.eqb x y
  | _, _ => false
  end.

(** [v >= 1] against the number 1: numeric comparison after ToNumber. *)
Definition ge_one (v : value) : bool := PrimFloat.leb one (ToNumber v).

(** [s.startsWith(p)]. *)
Definition startsWith (s p : string) : bool := String.prefix p s.

(** [s.split('.')]. *)
Fixpoint split_chars (cs : list ascii) (cur : list ascii) : list string :=
  match cs with
  | [] => [string_of_list_ascii (rev cur)]
  | c :: cs' =>
      if Ascii.eqb c "." then string_of_list_ascii (rev cur) :: split_chars cs' []
      else split_chars cs' (c :: cur)
  end.

Definition split_dot (s : string) : list string :=
  split_chars (list_ascii_of_string s) [].

End JS.

Import JS.

(** ** Data model *)

(** The component's [data], as the schema of lines 48-72 types it. *)
Record Data := {
  autoplay : bool;
  delay : number;
  dir : string;
  dur : number;
  easing : string;
  elasticity : number;
  from : string;
  loop : value;
  property : string;
  startEvents : list string;
  pauseEvents : list string;
  resumeEvents : list string;
  to : string;
  type : string;
  isRawProperty : bool
}.

(** The schema defaults. *)
Definition default_data : Data := {|
  autoplay := true; delay := zero; dir := ""; dur := 1000%float;
  easing := "easeInQuad"; elasticity := 400%float; from := "";
  loop := VNum zero; property := ""; startEvents := []; pauseEvents := [];
  resumeEvents := []; to := ""; type := ""; isRawProperty := false |}.

(** The schema's parser of [loop] (lines 58-63): a boolean or an integer. *)
Definition loop_parse (v : value) : value :=
  if strict_eq v (VStr "true") then VBool true
  else if strict_eq v (VStr "false") then VBool false
  else VNum (parseInt10 v).

(** A [lastValue] object with three captured coordinates. *)
Record Triple := { c1 : value; c2 : value; c3 : value }.

(** The four closures that [updateConfig] installs as [config.update],
    each with the variables it captures. *)
Inductive Updater :=
| RawColorUpdater (lastValue : Triple) (data : Data)
| DefaultUpdater (lastValue : value) (isBoolean : bool) (data : Data)
| TransformUpdater (lastValue : Triple) (data : Data)
| VectorUpdater (lastValue : Triple) (data : Data).

(** What [config.targets] refers to. *)
Inductive TargetsRef := NoTargets | TheTargets | TheTargetsArray.

(** [this.config]. The [complete] callback is installed once by [init]
    and never replaced; it is the function [complete] below. The endpoint
    keys ([aframeProperty], [x], [y], [z], [w], [r], [g], [b]) are kept
    in [cfg_keys]: they accumulate over route changes, as on the object. *)
Record Config := {
  cfg_autoplay : value;
  cfg_direction : value;
  cfg_duration : value;
  cfg_easing : value;
  cfg_elasticity : value;
  cfg_loop : value;
  cfg_targets : TargetsRef;
  cfg_update : option Updater;
  cfg_keys : list (string * value)
}.

(** What the engine is asked to do with an instance. *)
Inductive Drive := Seek (t : number) | Tick (t : number).

(** An anime.js instance: what [anime(config)] was given, the update
    callback it copied, and the calls that have driven it, latest first. *)
Record Anim := {
  anim_settings : Config;
  anim_targets : list value;
  anim_update : option Updater;
  anim_driven : list Drive
}.

(** One animation component instance ([this]). *)
Record Instance := {
  data : Data;
  eventDetail : string;
  time : number;
  animation : option Anim;
  animationIsPlaying : bool;
  paused : bool;
  pausedWasPlaying : bool;
  fromColor : list (string * value);
  toColor : list (string * value);
  targets : list (string * value);
  targetsArray : list value;
  config : Config
}.

(** A component schema as [getPropertyType] reads it. *)
Inductive Schema :=
| SingleProp (ty : string)
| MultiProp (types : list (string * string)).

(** A value of [el.components]: an instance of this component, or a
    component of another name, of which only the schema is read. *)
Inductive Component :=
| Animation (i : Instance)
| Other (schema : Schema).

(** The three bound handlers that [addEventListeners] registers. *)
Inductive HandlerKind := OnStartEvent | PauseAnimation | ResumeAnimation.

#[global] Instance HandlerKind_eq_dec : EqDecision HandlerKind.
Proof. solve_decision. Defined.

(** A registered listener: event name, owning instance, handler. *)
Definition Listener : Type := string * (string * HandlerKind).

(** Calls into the host that write to the scene graph. *)
Inductive SceneWrite :=
| SetComponentProperty (path : string) (v : value)
| Object3DSet (prop : string) (x y z : value).

(** A [THREE.Color]'s channels. *)
Record Color := { red : number; green : number; blue : number }.

(** The owning entity [el], with the module-level state of the file. *)
Record Entity := {
  components : gmap string Component;
  listeners : list Listener;
  emitted : list (string * string);
  timers : list (string * number);
  object_tree : value;
  writes : list SceneWrite;
  splitCache : gmap string (list string);
  colorHelperFrom : Color;
  colorHelperTo : Color
}.

(** What the engine passes to [config.update]. *)
Record AnimArg := {
  animatables0_target : value;
  animations0_target : value
}.

(** Callbacks that the engine fires during one [seek] or [tick]. *)
Inductive Callback :=
| OnUpdate (anim : AnimArg)
| OnComplete.

(** Everything outside the component: the host's readers, three.js colour
    parsing and the tweening engine, which decides on each [seek] and
    [tick] which callbacks it fires and what target they see. *)
Record Host := {
  getComponentProperty : Entity -> string -> value;
  coordinates_parse : string -> list (string * value);
  Color_set : Color -> value -> Color;
  AFRAME_components : string -> option Schema;
  engine : Anim -> Drive -> list Callback
}.

(** *** Field updates *)

Definition with_time (x : number) (i : Instance) : Instance :=
  {| data := data i; eventDetail := eventDetail i; time := x;
     animation := animation i; animationIsPlaying := animationIsPlaying i;
     paused := paused i; pausedWasPlaying := pausedWasPlaying i;
     fromColor := fromColor i; toColor := toColor i; targets := targets i;
     targetsArray := targetsArray i; config := config i |}.

Definition with_animation (x : option Anim) (i : Instance) : Instance :=
  {| data := data i; eventDetail := eventDetail i; time := time i;
     animation := x; animationIsPlaying := animationIsPlaying i;
     paused := paused i; pausedWasPlaying := pausedWasPlaying i;
     fromColor := fromColor i; toColor := toColor i; targets := targets i;
     targetsArray := targetsArray i; config := config i |}.

Definition with_animationIsPlaying (x : bool) (i : Instance) : Instance :=
  {| data := data i; eventDetail := eventDetail i; time := time i;
     animation := animation i; animationIsPlaying := x;
     paused := paused i; pausedWasPlaying := pausedWasPlaying i;
     fromColor := fromColor i; toColor := toColor i; targets := targets i;
     targetsArray := targetsArray i; config := config i |}.

Definition with_paused (x : bool) (i : Instance) : Instance :=
  {| data := data i; eventDetail := eventDetail i; time := time i;
     animation := animation i; animationIsPlaying := animationIsPlaying i;
     paused := x; pausedWasPlaying := pausedWasPlaying i;
     fromColor := fromColor i; toColor := toColor i; targets := targets i;
     targetsArray := targetsArray i; config := config i |}.

Definition with_pausedWasPlaying (x : bool) (i : Instance) : Instance :=
  {| data := data i; eventDetail := eventDetail i; time := time i;
     animation := animation i; animationIsPlaying := animationIsPlaying i;
     paused := paused i; pausedWasPlaying := x;
     fromColor := fromColor i; toColor := toColor i; targets := targets i;
     targetsArray := targetsArray i; config := config i |}.

Definition with_colors (f t : list (string * value)) (i : Instance) : Instance :=
  {| data := data i; eventDetail := eventDetail i; time := time i;
     animation := animation i; animationIsPlaying := animationIsPlaying i;
     paused := paused i; pausedWasPlaying := pausedWasPlaying i;
     fromColor := f; toColor := t; targets := targets i;
     targetsArray := targetsArray i; config := config i |}.

Definition with_targets (x : list (string * value)) (i : Instance) : Instance :=
  {| data := data i; eventDetail := eventDetail i; time := time i;
     animation := animation i; animationIsPlaying := animationIsPlaying i;
     paused := paused i; pausedWasPlaying := pausedWasPlaying i;
     fromColor := fromColor i; toColor := toColor i; targets := x;
     targetsArray := targetsArray i; config := config i |}.

Definition with_targetsArray (x : list value) (i : Instance) : Instance :=
  {| data := data i; eventDetail := eventDetail i; time := time i;
     animation := animation i; animationIsPlaying := animationIsPlaying i;
     paused := paused i; pausedWasPlaying := pausedWasPlaying i;
     fromColor := fromColor i; toColor := toColor i; targets := targets i;
     targetsArray := x; config := config i |}.

Definition with_config (x : Config) (i : Instance) : Instance :=
  {| data := data i; eventDetail := eventDetail i; time := time i;
     animation := animation i; animationIsPlaying := animationIsPlaying i;
     paused := paused i; pausedWasPlaying := pausedWasPlaying i;
     fromColor := fromColor i; toColor := toColor i; targets := targets i;
     targetsArray := targetsArray i; config := x |}.

Definition with_data (x : Data) (i : Instance) : Instance :=
  {| data := x; eventDetail := eventDetail i; time := time i;
     animation := animation i; animationIsPlaying := animationIsPlaying i;
     paused := paused i; pausedWasPlaying := pausedWasPlaying i;
     fromColor := fromColor i; toColor := toColor i; targets := targets i;
     targetsArray := targetsArray i; config := config i |}.

Definition with_components (x : gmap string Component) (el : Entity) : Entity :=
  {| components := x; listeners := listeners el; emitted := emitted el;
     timers := timers el; object_tree := object_tree el; writes := writes el;
     splitCache := splitCache el; colorHelperFrom := colorHelperFrom el;
     colorHelperTo := colorHelperTo el |}.

Definition with_listeners (x : list Listener) (el : Entity) : Entity :=
  {| components := components el; listeners := x; emitted := emitted el;
     timers := timers el; object_tree := object_tree el; writes := writes el;
     splitCache := splitCache el; colorHelperFrom := colorHelperFrom el;
     colorHelperTo := colorHelperTo el |}.

Definition with_emitted (x : list (string * string)) (el : Entity) : Entity :=
  {| components := components el; listeners := listeners el; emitted := x;
     timers := timers el; object_tree := object_tree el; writes := writes el;
     splitCache := splitCache el; colorHelperFrom := colorHelperFrom el;
     colorHelperTo := colorHelperTo el |}.

Definition with_timers (x : list (string * number)) (el : Entity) : Entity :=
  {| components := components el; listeners := listeners el; emitted := emitted el;
     timers := x; object_tree := object_tree el; writes := writes el;
     splitCache := splitCache el; colorHelperFrom := colorHelperFrom el;
     colorHelperTo := colorHelperTo el |}.

Definition with_object_tree (x : value) (el : Entity) : Entity :=
  {| components := components el; listeners := listeners el; emitted := emitted el;
     timers := timers el; object_tree := x; writes := writes el;
     splitCache := splitCache el; colorHelperFrom := colorHelperFrom el;
     colorHelperTo := colorHelperTo el |}.

Definition with_writes (x : list SceneWrite) (el : Entity) : Entity :=
  {| components := components el; listeners := listeners el; emitted := emitted el;
     timers := timers el; object_tree := object_tree el; writes := x;
     splitCache := splitCache el; colorHelperFrom := colorHelperFrom el;
     colorHelperTo := colorHelperTo el |}.

Definition with_splitCache (x : gmap string (list string)) (el : Entity) : Entity :=
  {| components := components el; listeners := listeners el; emitted := emitted el;
     timers := timers el; object_tree := object_tree el; writes := writes el;
     splitCache := x; colorHelperFrom := colorHelperFrom el;
     colorHelperTo := colorHelperTo el |}.

Definition with_colorHelpers (f t : Color) (el : Entity) : Entity :=
  {| components := components el; listeners := listeners el; emitted := emitted el;
     timers := timers el; object_tree := object_tree el; writes := writes el;
     splitCache := splitCache el; colorHelperFrom := f; colorHelperTo := t |}.

(** ** The method monad: entity state and [TypeError] *)

Inductive outcome (A : Type) :=
| Return (a : A) (el : Entity)
| TypeError (el : Entity).
Arguments Return {A} a el.
Arguments TypeError {A} el.

Definition M (A : Type) : Type := Entity -> outcome A.

Definition ret {A} (a : A) : M A := fun el => Return a el.

Definition bind {A B} (m : M A) (k : A -> M B) : M B :=
  fun el =>
    match m el with
    | Return a el' => k a el'
    | TypeError el' => TypeError el'
    end.

Definition throw {A} : M A := fun el => TypeError el.

Definition get : M Entity := fun el => Return el el.

Definition modify (f : Entity -> Entity) : M unit := fun el => Return tt (f el).

(** The entity an outcome leaves behind, thrown or not. *)
Definition final {A} (o : outcome A) : Entity :=
  match o with
  | Return _ el => el
  | TypeError el => el
  end.

Declare Scope js_scope.
Delimit Scope js_scope with js.
Notation "'let*' x := c1 'in' c2" := (bind c1 (fun x => c2))
  (at level 10, x binder, c1 at level 100, c2 at level 200) : js_scope.
Notation "c1 ;; c2" := (bind c1 (fun _ => c2))
  (at level 100, c2 at level 200, right associativity) : js_scope.
Notation "'when' b 'then' c" := (if b then c else ret tt)
  (at level 10, b at level 100, c at level 200) : js_scope.
Local Open Scope js_scope.

Definition lift {A} (o : option A) : M A :=
  match o with
  | Some a => ret a
  | None => throw
  end.

(** [v[key]]. Reading a member of [undefined] or [null] is a TypeError
    ([None]); a primitive has none of the members this file names. *)
Definition member (v : value) (key : string) : option value :=
  match v with
  | VUndefined | VNull => None
  | VObj fs => Some (field key fs)
  | VBool _ | VNum _ | VStr _ => Some VUndefined
  end.

(** [v[k1][k2]...]. *)
Fixpoint walk (v : value) (path : list string) : option value :=
  match path with
  | [] => Some v
  | k :: rest =>
      match member v k with
      | Some v' => walk v' rest
      | None => None
      end
  end.

(** The object tree after [f] has rewritten the object that [path] leads
    to. Objects are mutated in place, so the change shows at the root. *)
Fixpoint update_at (v : value) (path : list string) (f : value -> option value)
  : option value :=
  match path with
  | [] => f v
  | k :: rest =>
      match v with
      | VUndefined | VNull => None
      | VObj fs =>
          match update_at (field k fs) rest f with
          | Some v' =>
              Some (VObj (set_field k v' fs))
          | None => None
          end
      | VBool _ | VNum _ | VStr _ =>
          match update_at VUndefined rest f with
          | Some _ => Some v
          | None => None
          end
      end
  end.

(** ** three.js: [THREE.Math.degToRad] is [degrees * DEG2RAD], with
    [DEG2RAD = Math.PI / 180]. *)
Module THREE.

Definition PI : number := 0x1.921fb54442d18p+1%float.

Definition DEG2RAD : number := (PI / 180)%float.

Definition degToRad (degrees : value) : number :=
  (ToNumber degrees * DEG2RAD)%float.

End THREE.

Definition TYPE_COLOR := "color".
Definition PROP_POSITION := "position".
Definition PROP_ROTATION := "rotation".
Definition PROP_SCALE := "scale".
Definition STRING_COMPONENTS := "components".
Definition STRING_OBJECT3D := "object3D".

(** The types that the host infers for the schema of lines 48-72. *)
Definition animation_schema : Schema :=
  MultiProp
    [("autoplay", "boolean"); ("delay", "number"); ("dir", "string");
     ("dur", "number"); ("easing", "string"); ("elasticity", "number");
     ("from", "string"); ("loop", "number"); ("property", "string");
     ("startEvents", "array"); ("pauseEvents", "array");
     ("resumeEvents", "array"); ("to", "string"); ("type", "string");
     ("isRawProperty", "boolean")].

Definition schema_of (c : Component) : Schema :=
  match c with
  | Animation _ => animation_schema
  | Other s => s
  end.

Fixpoint assoc (key : string) (l : list (string * string)) : option string :=
  match l with
  | [] => None
  | (k, v) :: l' => if String.eqb k key then Some v else assoc key l'
  end.

(** ** The module-level functions (lines 459-558) *)

Module Helpers.

(** [getPropertyType(el, property)]; [None] stands for [null] and for
    whatever else is not a type name. A single-property schema has no
    typed entry under a property name; the [type] of a multi-property
    schema is at most the definition of a property called [type]. *)
Definition getPropertyType (H : Host) (el : Entity) (property : string)
  : option string :=
  let split := split_dot property in
  let componentName := nth 0 split "" in
  let propertyName := nth 1 split "" in
  let component :=
    match components el !! componentName with
    | Some c => Some (schema_of c)
    | None => AFRAME_components H componentName
    end in
  match component with
  | None => None
  | Some schema =>
      if negb (String.eqb propertyName "") then
        match schema with
        | MultiProp types => assoc propertyName types
        | SingleProp _ => None
        end
      else
        match schema with
        | SingleProp ty => Some ty
        | MultiProp _ => None
        end
  end.

(** The three assignments of [toRadians] on the fields of an object. *)
Definition radians (fs : list (string * value)) : list (string * value) :=
  let fs := set_field "x" (VNum (THREE.degToRad (field "x" fs))) fs in
  let fs := set_field "y" (VNum (THREE.degToRad (field "y" fs))) fs in
  let fs := set_field "z" (VNum (THREE.degToRad (field "z" fs))) fs in
  fs.

(** [toRadians(obj)]: the object itself is changed. An assignment to a
    member of a primitive is dropped; on [undefined] and [null] it is a
    TypeError. *)
Definition toRadians (obj : value) : option value :=
  match obj with
  | VUndefined | VNull => None
  | VObj fs => Some (VObj (radians fs))
  | VBool _ | VNum _ | VStr _ => Some obj
  end.

(** [el.addEventListener]: a listener already registered for the event is
    not registered twice. *)
Definition add_listener (l : Listener) (ls : list Listener) : list Listener :=
  if decide (l ∈ ls) then ls else ls ++ [l].

Definition remove_listener (l : Listener) (ls : list Listener) : list Listener :=
  filter (fun l' => l' ≠ l) ls.

Definition addEventListeners (eventNames : list string)
    (handler : string * HandlerKind) : M unit :=
  modify (fun el =>
    with_listeners
      (foldl (fun ls name => add_listener (name, handler) ls) (listeners el) eventNames)
      el).

Definition removeEventListeners (eventNames : list string)
    (handler : string * HandlerKind) : M unit :=
  modify (fun el =>
    with_listeners
      (foldl (fun ls name => remove_listener (name, handler) ls) (listeners el) eventNames)
      el).

Definition splitDot (path : string) : M (list string) :=
  let* el := get in
  match splitCache el !! path with
  | Some split => ret split
  | None =>
      modify (with_splitCache (<[path := split_dot path]> (splitCache el)));;
      ret (split_dot path)
  end.

Definition getRawProperty (path : string) : M value :=
  let* split := splitDot path in
  let* el := get in
  lift (walk (object_tree el) split).

(** The body of [setRawProperty] once the walk has reached [targetValue]. *)
Definition assign_raw (propertyName : string) (v : value) (ty : string)
    (targetValue : value) : option value :=
  if String.eqb ty TYPE_COLOR then
    match member targetValue propertyName with
    | Some (VObj dest) =>
        match member v "r", member v "g", member v "b" with
        | Some r, Some g, Some b =>
            let dest' :=
              if has_field "r" dest
              then set_field "b" b (set_field "g" g (set_field "r" r dest))
              else set_field "z" b (set_field "y" g (set_field "x" r dest)) in
            match targetValue with
            | VObj fs => Some (VObj (set_field propertyName (VObj dest') fs))
            | _ => Some targetValue
            end
        | _, _, _ => None
        end
    | _ => None
    end
  else
    match targetValue with
    | VUndefined | VNull => None
    | VObj fs => Some (VObj (set_field propertyName v fs))
    | VBool _ | VNum _ | VStr _ => Some targetValue
    end.

Definition setRawProperty (path : string) (v : value) (ty : string) : M unit :=
  let* split := splitDot path in
  let* el := get in
  let propertyName := List.last split "undefined" in
  let* tree :=
    lift (update_at (object_tree el) (removelast split) (assign_raw propertyName v ty)) in
  modify (with_object_tree tree).

Definition isRawProperty (data : Data) : bool :=
  (isRawProperty data
   || startsWith (property data) STRING_COMPONENTS
   || startsWith (property data) STRING_OBJECT3D)%bool.

End Helpers.

(** ** The component (lines 47-457) *)

Definition with_base (d : Data) (c : Config) : Config :=
  {| cfg_autoplay := VBool false; cfg_direction := VStr (dir d);
     cfg_duration := VNum (dur d); cfg_easing := VStr (easing d);
     cfg_elasticity := VNum (elasticity d); cfg_loop := loop d;
     cfg_targets := cfg_targets c; cfg_update := cfg_update c;
     cfg_keys := cfg_keys c |}.

Definition with_cfg_targets (x : TargetsRef) (c : Config) : Config :=
  {| cfg_autoplay := cfg_autoplay c; cfg_direction := cfg_direction c;
     cfg_duration := cfg_duration c; cfg_easing := cfg_easing c;
     cfg_elasticity := cfg_elasticity c; cfg_loop := cfg_loop c;
     cfg_targets := x; cfg_update := cfg_update c; cfg_keys := cfg_keys c |}.

Definition with_cfg_update (x : option Updater) (c : Config) : Config :=
  {| cfg_autoplay := cfg_autoplay c; cfg_direction := cfg_direction c;
     cfg_duration := cfg_duration c; cfg_easing := cfg_easing c;
     cfg_elasticity := cfg_elasticity c; cfg_loop := cfg_loop c;
     cfg_targets := cfg_targets c; cfg_update := x; cfg_keys := cfg_keys c |}.

Definition with_cfg_keys (x : list (string * value)) (c : Config) : Config :=
  {| cfg_autoplay := cfg_autoplay c; cfg_direction := cfg_direction c;
     cfg_duration := cfg_duration c; cfg_easing := cfg_easing c;
     cfg_elasticity := cfg_elasticity c; cfg_loop := cfg_loop c;
     cfg_targets := cfg_targets c; cfg_update := cfg_update c; cfg_keys := x |}.

(** [for (key in to) { config[key] = to[key]; }]. *)
Definition copy_keys (to_ : list (string * value)) (c : Config) : Config :=
  with_cfg_keys
    (foldl (fun ks key => set_field key (field key to_) ks) (cfg_keys c) (map fst to_))
    c.

(** [init]: the instance as it is before its first [update]. *)
Definition init (attrName : string) (d : Data) : Instance :=
  {| data := d; eventDetail := attrName; time := zero; animation := None;
     animationIsPlaying := false; paused := false; pausedWasPlaying := false;
     fromColor := []; toColor := []; targets := []; targetsArray := [];
     config :=
       {| cfg_autoplay := VUndefined; cfg_direction := VUndefined;
          cfg_duration := VUndefined; cfg_easing := VUndefined;
          cfg_elasticity := VUndefined; cfg_loop := VUndefined;
          cfg_targets := NoTargets; cfg_update := None; cfg_keys := [] |} |}.

(** [anime(this.config)]: the engine takes the settings, the callback and
    the target objects that the configuration refers to. *)
Definition anime (i : Instance) : Anim :=
  {| anim_settings := config i;
     anim_targets :=
       match cfg_targets (config i) with
       | NoTargets => []
       | TheTargets => [VObj (targets i)]
       | TheTargetsArray => targetsArray i
       end;
     anim_update := cfg_update (config i);
     anim_driven := [] |}.

Definition on_instance (f : Instance -> Instance) (c : Component) : Component :=
  match c with
  | Animation i => Animation (f i)
  | Other s => Other s
  end.

(** Lines 274-290 of [updateConfigForDefault]: from the [from] value that
    line 269 obtained, the two endpoints and [isBoolean]. *)
Definition default_endpoints (data : Data) (from_ : value) : value * value * bool :=
  let to_ := VStr (to data) in
  let isNumber := negb (isNaN (if truthy from_ then from_ else to_)) in
  let from_ :=
    if isNumber then VNum (parseFloat from_)
    else if truthy from_ then VStr (ToString from_) else from_ in
  let to_ :=
    if isNumber then VNum (parseFloat to_)
    else if truthy to_ then VStr (ToString to_) else to_ in
  let isBoolean := (strict_eq to_ (VStr "true") || strict_eq to_ (VStr "false"))%bool in
  let from_ :=
    if isBoolean then VNum (if String.eqb (from data) "true" then one else zero)
    else from_ in
  let to_ :=
    if isBoolean then VNum (if String.eqb (to data) "true" then one else zero)
    else to_ in
  (from_, to_, isBoolean).

Section Methods.

Variable H : Host.

(** The receiver: [self] is [this.attrName], the key under which the
    instance sits in [el.components]. *)
Variable self : string.

(** Reading [this]. A call on a key that holds no animation instance has
    no receiver to work on. *)
Definition this : M Instance :=
  fun el =>
    match components el !! self with
    | Some (Animation i) => Return i el
    | _ => TypeError el
    end.

(** Assigning to fields of [this]. *)
Definition set_this (f : Instance -> Instance) : M unit :=
  modify (fun el => with_components (alter (on_instance f) self (components el)) el).

(** [this.el.emit(name, this.eventDetail)]: recorded on the entity. *)
Definition emit (name : string) : M unit :=
  let* i := this in
  modify (fun el => with_emitted (emitted el ++ [(name, eventDetail i)]) el).

(** [setTimeout(this.beginAnimation, delay)]. *)
Definition setTimeout_beginAnimation (d : number) : M unit :=
  modify (fun el => with_timers (timers el ++ [(self, d)]) el).

(** The host's [setComponentProperty(el, path, v)]. *)
Definition setComponentProperty (path : string) (v : value) : M unit :=
  modify (fun el => with_writes (writes el ++ [SetComponentProperty path v]) el).

(** [el.object3D[prop].set(x, y, z)]. *)
Definition object3D_set (prop : string) (x y z : value) : M unit :=
  modify (fun el => with_writes (writes el ++ [Object3DSet prop x y z]) el).

Definition pauseAnimation : M unit :=
  set_this (with_animationIsPlaying false).

Definition resumeAnimation : M unit :=
  set_this (with_animationIsPlaying true).

(** [config.complete], installed by [init]. *)
Definition complete : M unit :=
  set_this (with_animationIsPlaying false);;
  emit "animationcomplete".

Definition addEventListeners : M unit :=
  let* i := this in
  Helpers.addEventListeners (startEvents (data i)) (self, OnStartEvent);;
  Helpers.addEventListeners (pauseEvents (data i)) (self, PauseAnimation);;
  Helpers.addEventListeners (resumeEvents (data i)) (self, ResumeAnimation).

Definition removeEventListeners : M unit :=
  let* i := this in
  Helpers.removeEventListeners (startEvents (data i)) (self, OnStartEvent);;
  Helpers.removeEventListeners (pauseEvents (data i)) (self, PauseAnimation);;
  Helpers.removeEventListeners (resumeEvents (data i)) (self, ResumeAnimation).

Definition setColorConfig (from_ to_ : value) : M unit :=
  let* el := get in
  let cf := Color_set H (colorHelperFrom el) from_ in
  let ct := Color_set H (colorHelperTo el) to_ in
  modify (with_colorHelpers cf ct);;
  set_this (fun i =>
    with_colors
      (set_field "b" (VNum (blue cf))
         (set_field "g" (VNum (green cf))
            (set_field "r" (VNum (red cf)) (fromColor i))))
      (set_field "b" (VNum (blue ct))
         (set_field "g" (VNum (green ct))
            (set_field "r" (VNum (red ct)) (toColor i))))
      i).

(** [lastValue.a = from.a; lastValue.b = from.b; lastValue.c = from.c]. *)
Definition capture (from_ : value) (a b c : string) : option Triple :=
  match member from_ a, member from_ b, member from_ c with
  | Some va, Some vb, Some vc => Some {| c1 := va; c2 := vb; c3 := vc |}
  | _, _, _ => None
  end.

Definition updateConfigForRawColor : M unit :=
  let* i := this in
  let data := data i in
  let* from_ :=
    if negb (String.eqb (from data) "") then ret (VStr (from data))
    else Helpers.getRawProperty (property data) in
  let to_ := VStr (to data) in
  setColorConfig from_ to_;;
  let* i := this in
  let from_ := fromColor i in
  let to_ := toColor i in
  set_this (with_targetsArray [VObj from_]);;
  set_this (fun i => with_config (with_cfg_targets TheTargetsArray (config i)) i);;
  set_this (fun i => with_config (copy_keys to_ (config i)) i);;
  let* lastValue := lift (capture (VObj from_) "r" "g" "b") in
  set_this (fun i =>
    with_config (with_cfg_update (Some (RawColorUpdater lastValue data)) (config i)) i).

(** Lines 269-273 of [updateConfigForDefault]: the declared [from], or
    else the current value of the property. *)
Definition default_from (data : Data) : M value :=
  if negb (String.eqb (from data) "") then ret (VStr (from data))
  else if Helpers.isRawProperty data then Helpers.getRawProperty (property data)
  else (let* el := get in ret (getComponentProperty H el (property data))).

Definition updateConfigForDefault : M unit :=
  let* i := this in
  let data := data i in
  let* from_ := default_from data in
  let '(from_, to_, isBoolean) := default_endpoints data from_ in
  set_this (fun i => with_targets (set_field "aframeProperty" from_ (targets i)) i);;
  set_this (fun i => with_config (with_cfg_targets TheTargets (config i)) i);;
  set_this (fun i =>
    with_config (with_cfg_keys (set_field "aframeProperty" to_ (cfg_keys (config i)))
                   (config i)) i);;
  set_this (fun i =>
    with_config (with_cfg_update (Some (DefaultUpdater from_ isBoolean data)) (config i)) i).

Definition updateConfigForVector : M unit :=
  let* i := this in
  let data := data i in
  let* el := get in
  let from_ :=
    if negb (String.eqb (from data) "") then VObj (coordinates_parse H (from data))
    else getComponentProperty H el (property data) in
  let to_ := VObj (coordinates_parse H (to data)) in
  let* from_ :=
    if String.eqb (property data) PROP_ROTATION then lift (Helpers.toRadians from_)
    else ret from_ in
  let* to_ :=
    if String.eqb (property data) PROP_ROTATION then lift (Helpers.toRadians to_)
    else ret to_ in
  set_this (with_targetsArray [from_]);;
  set_this (fun i => with_config (with_cfg_targets TheTargetsArray (config i)) i);;
  set_this (fun i =>
    with_config
      (copy_keys (match to_ with VObj fs => fs | _ => [] end) (config i)) i);;
  if (String.eqb (property data) PROP_POSITION
      || String.eqb (property data) PROP_ROTATION
      || String.eqb (property data) PROP_SCALE)%bool
  then
    let* lastValue := lift (capture from_ "x" "y" "z") in
    set_this (fun i =>
      with_config (with_cfg_update (Some (TransformUpdater lastValue data)) (config i)) i)
  else
    let* lastValue := lift (capture from_ "x" "y" "z") in
    set_this (fun i =>
      with_config (with_cfg_update (Some (VectorUpdater lastValue data)) (config i)) i).

Definition is_vector_type (propType : option string) : bool :=
  match propType with
  | Some ty => (String.eqb ty "vec2" || String.eqb ty "vec3" || String.eqb ty "vec4")%bool
  | None => false
  end.

Definition updateConfig : M unit :=
  let* i := this in
  let* el := get in
  let propType := Helpers.getPropertyType H el (property (data i)) in
  if (Helpers.isRawProperty (data i) && String.eqb (type (data i)) TYPE_COLOR)%bool
  then updateConfigForRawColor
  else if is_vector_type propType then updateConfigForVector
  else updateConfigForDefault.

Definition set_updater (u : Updater) : M unit :=
  set_this (fun i =>
    match animation i with
    | Some a =>
        with_animation
          (Some {| anim_settings := anim_settings a; anim_targets := anim_targets a;
                   anim_update := Some u; anim_driven := anim_driven a |}) i
    | None => i
    end).

Definition same_triple (v : Triple) (lastValue : Triple) : bool :=
  (strict_eq (c1 v) (c1 lastValue)
   && strict_eq (c2 v) (c2 lastValue)
   && strict_eq (c3 v) (c3 lastValue))%bool.

(** One call of the [config.update] closure that the engine holds. The
    captured [lastValue] is assigned before the scene is written. *)
Definition run_update (u : Updater) (anim : AnimArg) : M unit :=
  match u with
  | RawColorUpdater lastValue data =>
      let value := animatables0_target anim in
      let* rgb := lift (capture value "r" "g" "b") in
      if same_triple rgb lastValue then ret tt
      else Helpers.setRawProperty (property data) value (type data)
  | DefaultUpdater lastValue isBoolean data =>
      let* value := lift (member (animatables0_target anim) "aframeProperty") in
      if strict_eq value lastValue then ret tt
      else
        set_updater (DefaultUpdater value isBoolean data);;
        let value := if isBoolean then VBool (ge_one value) else value in
        if Helpers.isRawProperty data
        then Helpers.setRawProperty (property data) value (type data)
        else setComponentProperty (property data) value
  | TransformUpdater lastValue data =>
      let value := animatables0_target anim in
      let* xyz := lift (capture value "x" "y" "z") in
      if same_triple xyz lastValue then ret tt
      else
        set_updater (TransformUpdater xyz data);;
        object3D_set (property data) (c1 xyz) (c2 xyz) (c3 xyz)
  | VectorUpdater lastValue data =>
      let value := animations0_target anim in
      let* xyz := lift (capture value "x" "y" "z") in
      if same_triple xyz lastValue then ret tt
      else
        set_updater (VectorUpdater xyz data);;
        setComponentProperty (property data) value
  end.

Definition fire (cb : Callback) : M unit :=
  match cb with
  | OnUpdate anim =>
      let* i := this in
      match animation i with
      | Some {| anim_update := Some u |} => run_update u anim
      | _ => ret tt
      end
  | OnComplete => complete
  end.

Fixpoint fire_all (cbs : list Callback) : M unit :=
  match cbs with
  | [] => ret tt
  | cb :: cbs' => fire cb;; fire_all cbs'
  end.

(** [this.animation.seek(t)] and [this.animation.tick(t)]: a TypeError
    when there is no engine instance; otherwise the engine runs and fires
    the callbacks it decides on. *)
Definition drive (d : Drive) : M unit :=
  let* i := this in
  match animation i with
  | None => throw
  | Some a =>
      set_this (with_animation
        (Some {| anim_settings := anim_settings a; anim_targets := anim_targets a;
                 anim_update := anim_update a; anim_driven := d :: anim_driven a |}));;
      fire_all (engine H a d)
  end.

(** The loop body of [stopRelatedAnimations] on one entry. *)
Definition stop_related (property_ : string) (componentName : string)
    (component : Component) : Component :=
  if String.eqb componentName self then component
  else
    match component with
    | Other _ => component
    | Animation c =>
        if negb (String.eqb (property (data c)) property_) then component
        else Animation (with_animationIsPlaying false c)
    end.

Definition stopRelatedAnimations : M unit :=
  let* i := this in
  modify (fun el =>
    with_components
      (map_imap (fun k c => Some (stop_related (property (data i)) k c)) (components el))
      el).

Definition beginAnimation : M unit :=
  updateConfig;;
  set_this (with_time zero);;
  drive (Seek zero);;
  set_this (with_animationIsPlaying true);;
  stopRelatedAnimations;;
  emit "animationbegin".

Definition createAndStartAnimation : M unit :=
  let* i := this in
  let data := data i in
  updateConfig;;
  set_this (with_animationIsPlaying false);;
  set_this (fun i => with_animation (Some (anime i)) i);;
  removeEventListeners;;
  addEventListeners;;
  if (negb (autoplay data) || negb (Nat.eqb (length (startEvents data)) 0))%bool
  then ret tt
  else if truthy (VNum (delay data)) then setTimeout_beginAnimation (delay data)
  else beginAnimation.

Definition onStartEvent : M unit :=
  let* i := this in
  if truthy (VNum (delay (data i))) then setTimeout_beginAnimation (delay (data i))
  else beginAnimation.

Definition update : M unit :=
  let* i := this in
  let data := data i in
  set_this (with_animationIsPlaying false);;
  if String.eqb (property data) "" then ret tt
  else
    set_this (fun i => with_config (with_base data (config i)) i);;
    createAndStartAnimation.

Definition tick (t dt : number) : M unit :=
  let* i := this in
  if negb (animationIsPlaying i) then ret tt
  else
    set_this (fun i => with_time (time i + dt)%float i);;
    let* i := this in
    drive (Tick (time i)).

Definition remove : M unit :=
  pauseAnimation;;
  removeEventListeners.

Definition pause : M unit :=
  set_this (with_paused true);;
  set_this (with_pausedWasPlaying true);;
  pauseAnimation;;
  removeEventListeners.

Definition play : M unit :=
  let* i := this in
  if negb (paused i) then ret tt
  else
    set_this (with_paused false);;
    addEventListeners;;
    let* i := this in
    if pausedWasPlaying i then
      resumeAnimation;;
      set_this (with_pausedWasPlaying false)
    else ret tt.

End Methods.

(** ** The host's calls into the component *)

(** What the host framework, the event loop and the timer queue do to
    the instances of one entity. *)
Inductive Op :=
| DoUpdate (self : string) (d : Data)
| DoTick (self : string) (t dt : number)
| DoRemove (self : string)
| DoPause (self : string)
| DoPlay (self : string)
| DoEvent (name : string)
| DoTimer (n : nat).

Definition handler (H : Host) (h : string * HandlerKind) : M unit :=
  match snd h with
  | OnStartEvent => onStartEvent H (fst h)
  | PauseAnimation => pauseAnimation (fst h)
  | ResumeAnimation => resumeAnimation (fst h)
  end.

(** Delivery of one event: every listener registered under the name runs;
    an exception in one listener does not keep the next from running. *)
Fixpoint dispatch (H : Host) (name : string) (ls : list Listener) (el : Entity) : Entity :=
  match ls with
  | [] => el
  | (n, h) :: ls' =>
      dispatch H name ls' (if String.eqb n name then final (handler H h el) else el)
  end.

(** One call from outside, and the entity it leaves behind. On a data
    change the host stores the new [data] before it calls [update]. *)
Definition step (H : Host) (op : Op) (el : Entity) : Entity :=
  match op with
  | DoUpdate self d => final ((set_this self (with_data d);; update H self) el)
  | DoTick self t dt => final (tick H self t dt el)
  | DoRemove self => final (remove self el)
  | DoPause self => final (pause self el)
  | DoPlay self => final (play self el)
  | DoEvent name => dispatch H name (listeners el) el
  | DoTimer n =>
      match timers el !! n with
      | Some (self, _) =>
          final (beginAnimation H self (with_timers (delete n (timers el)) el))
      | None => el
      end
  end.

Definition run (H : Host) (ops : list Op) (el : Entity) : Entity :=
  foldl (fun el op => step H op el) el ops.

(** ** A concrete host and entity for closed examples *)

Module Example.

(** The host's coordinate parser on a string: blank-separated numbers
    under the keys [x], [y], [z], [w], as far as there are numbers. *)
Fixpoint words (cs : list ascii) (cur : list ascii) : list string :=
  match cs with
  | [] => match cur with [] => [] | _ => [string_of_list_ascii (rev cur)] end
  | c :: cs' =>
      if is_space c then
        match cur with
        | [] => words cs' []
        | _ => string_of_list_ascii (rev cur) :: words cs' []
        end
      else words cs' (c :: cur)
  end.

Definition parse (s : string) : list (string * value) :=
  zip_with (fun key w => (key, VNum (parseFloat_string w)))
    ["x"; "y"; "z"; "w"] (words (list_ascii_of_string s) []).

Definition host : Host :=
  {| getComponentProperty := fun _ path =>
       if String.eqb path "visible" then VBool true
       else if String.eqb path "material.opacity" then VNum one
       else if String.eqb path "rotation"
       then VObj [("x", VNum zero); ("y", VNum zero); ("z", VNum zero)]
       else VUndefined;
     coordinates_parse := parse;
     Color_set := fun c _ => c;
     AFRAME_components := fun name =>
       if String.eqb name "visible" then Some (SingleProp "boolean")
       else if String.eqb name "rotation" then Some (SingleProp "vec3")
       else if String.eqb name "material"
       then Some (MultiProp [("opacity", "number"); ("color", "color")])
       else None;
     engine := fun _ _ => [] |}.

Definition black : Color := {| red := zero; green := zero; blue := zero |}.

(** An entity that carries the given animation instances, each as [init]
    leaves it. *)
Definition entity (instances : list (string * Data)) : Entity :=
  {| components :=
       list_to_map (map (fun kd => (fst kd, Animation (init (fst kd) (snd kd)))) instances);
     listeners := []; emitted := []; timers := []; object_tree := VObj [];
     writes := []; splitCache := ∅; colorHelperFrom := black; colorHelperTo := black |}.

Definition with_property (p : string) (d : Data) : Data :=
  {| autoplay := autoplay d; delay := delay d; dir := dir d; dur := dur d;
     easing := easing d; elasticity := elasticity d; from := from d; loop := loop d;
     property := p; startEvents := startEvents d; pauseEvents := pauseEvents d;
     resumeEvents := resumeEvents d; to := to d; type := type d;
     isRawProperty := isRawProperty d |}.

Definition with_from_to (f t : string) (d : Data) : Data :=
  {| autoplay := autoplay d; delay := delay d; dir := dir d; dur := dur d;
     easing := easing d; elasticity := elasticity d; from := f; loop := loop d;
     property := property d; startEvents := startEvents d; pauseEvents := pauseEvents d;
     resumeEvents := resumeEvents d; to := t; type := type d;
     isRawProperty := isRawProperty d |}.

Definition with_events (s p r : list string) (d : Data) : Data :=
  {| autoplay := autoplay d; delay := delay d; dir := dir d; dur := dur d;
     easing := easing d; elasticity := elasticity d; from := from d; loop := loop d;
     property := property d; startEvents := s; pauseEvents := p;
     resumeEvents := r; to := to d; type := type d;
     isRawProperty := isRawProperty d |}.

Definition instance (el : Entity) (self : string) : option Instance :=
  match components el !! self with
  | Some (Animation i) => Some i
  | _ => None
  end.

End Example.

(** ** Vocabulary of the properties *)

(** [P] survives the method, whether it returns or throws. *)
Definition preserves {A} (P : Entity -> Prop) (m : M A) : Prop :=
  forall el, P el -> P (final (m el)).

(** [Q] holds of the animation instance under key [k]. *)
Definition holds (Q : Instance -> Prop) (k : string)
    (m : gmap string Component) : Prop :=
  exists i, m !! k = Some (Animation i) /\ Q i.

(** The instance under key [k] holds an engine instance. *)
Definition has_handle (k : string) (el : Entity) : Prop :=
  holds (fun i => animation i <> None) k (components el).

(** The components under the other keys are what they were. *)
Definition same_elsewhere (self : string) (el0 el : Entity) : Prop :=
  forall k, k <> self -> components el !! k = components el0 !! k.

(** The instance fields outside the property adapter. *)
Definition same_lifecycle (i0 i : Instance) : Prop :=
  data i = data i0 /\ eventDetail i = eventDetail i0 /\ time i = time i0 /\
  animation i = animation i0 /\ animationIsPlaying i = animationIsPlaying i0 /\
  paused i = paused i0 /\ pausedWasPlaying i = pausedWasPlaying i0.

(** [updateConfig] works on the adapter fields of its own instance, on
    the split cache and on the colour helpers, and on nothing else. *)
Definition adapter_frame (self : string) (el0 : Entity) (i0 : Instance)
    (el : Entity) : Prop :=
  listeners el = listeners el0 /\ emitted el = emitted el0 /\
  timers el = timers el0 /\ writes el = writes el0 /\
  object_tree el = object_tree el0 /\ same_elsewhere self el0 el /\
  holds (same_lifecycle i0) self (components el).

(** The instance fields that the engine's callbacks do not reach: all but
    the running flag and the closure held by the engine. *)
Definition same_but_flag (i0 i : Instance) : Prop :=
  data i = data i0 /\ eventDetail i = eventDetail i0 /\ time i = time i0 /\
  paused i = paused i0 /\ pausedWasPlaying i = pausedWasPlaying i0 /\
  config i = config i0 /\ targets i = targets i0 /\
  targetsArray i = targetsArray i0 /\ fromColor i = fromColor i0 /\
  toColor i = toColor i0 /\
  match animation i0 with
  | Some a0 =>
      exists a, animation i = Some a /\ anim_driven a = anim_driven a0 /\
                anim_settings a = anim_settings a0 /\ anim_targets a = anim_targets a0
  | None => animation i = None
  end.

(** The engine's callbacks write to the scene and emit; they leave the
    listeners, the timers and the other components alone. *)
Definition callback_frame (self : string) (el0 : Entity) (i0 : Instance)
    (el : Entity) : Prop :=
  listeners el = listeners el0 /\ timers el = timers el0 /\
  same_elsewhere self el0 el /\
  holds (same_but_flag i0) self (components el).

(** Lines 187-189 on the entity that the engine's [seek] left behind. *)
Definition begun (self : string) (i3 : Instance) (el3 : Entity) : Entity :=
  with_emitted (emitted el3 ++ [("animationbegin", eventDetail i3)])
    (with_components
       (map_imap (fun k c => Some (stop_related self (property (data i3)) k c))
          (<[self := Animation (with_animationIsPlaying true i3)]> (components el3)))
       el3).

(** Lines 184-186: refresh the configuration, reset the time, seek. *)
Definition begin_prefix (H : Host) (self : string) : M unit :=
  updateConfig H self;;
  set_this self (with_time zero);;
  drive H self (Seek zero).

(** No two instances that animate the same property path are running. *)
Definition at_most_one_advancing (el : Entity) : Prop :=
  forall k1 k2 i1 i2,
    components el !! k1 = Some (Animation i1) ->
    components el !! k2 = Some (Animation i2) ->
    property (data i1) = property (data i2) ->
    animationIsPlaying i1 = true ->
    animationIsPlaying i2 = true ->
    k1 = k2.

(** Lines 106-116 of [update] on the receiver. *)
Definition prepared (i : Instance) : Instance :=
  with_config (with_base (data i) (config i)) (with_animationIsPlaying false i).

(** The listeners after [removeEventListeners] of an instance with data
    [d]. *)
Definition detach (self : string) (d : Data) (ls : list Listener) : list Listener :=
  foldl (fun ls name => Helpers.remove_listener (name, (self, ResumeAnimation)) ls)
    (foldl (fun ls name => Helpers.remove_listener (name, (self, PauseAnimation)) ls)
       (foldl (fun ls name => Helpers.remove_listener (name, (self, OnStartEvent)) ls)
          ls (startEvents d))
       (pauseEvents d))
    (resumeEvents d).

(** The listeners after [addEventListeners] of an instance with data
    [d]. *)
Definition attach (self : string) (d : Data) (ls : list Listener) : list Listener :=
  foldl (fun ls name => Helpers.add_listener (name, (self, ResumeAnimation)) ls)
    (foldl (fun ls name => Helpers.add_listener (name, (self, PauseAnimation)) ls)
       (foldl (fun ls name => Helpers.add_listener (name, (self, OnStartEvent)) ls)
          ls (startEvents d))
       (pauseEvents d))
    (resumeEvents d).


(** The engine instance after one more call. *)
Definition driven (d : Drive) (an : Anim) : Anim :=
  {| anim_settings := anim_settings an; anim_targets := anim_targets an;
     anim_update := anim_update an; anim_driven := d :: anim_driven an |}.

(** The instance after [updateConfigForVector] on the rotation, with the
    [from] object [ffs]. *)
Definition rotation_instance (H : Host) (i : Instance)
    (ffs : list (string * value)) : Instance :=
  let from_ := Helpers.radians ffs in
  let to_ := Helpers.radians (coordinates_parse H (to (data i))) in
  let lastValue :=
    {| c1 := field "x" from_; c2 := field "y" from_; c3 := field "z" from_ |} in
  with_config
    (with_cfg_update (Some (TransformUpdater lastValue (data i)))
       (copy_keys to_ (with_cfg_targets TheTargetsArray (config i))))
    (with_targetsArray [VObj from_] i).

(** The instance after [updateConfigForDefault], with the [from] value
    that line 269 obtained. *)
Definition default_instance (i : Instance) (from0 : value) : Instance :=
  let '(from_, to_, isBoolean) := default_endpoints (data i) from0 in
  with_config
    (with_cfg_update (Some (DefaultUpdater from_ isBoolean (data i)))
       (with_cfg_keys (set_field "aframeProperty" to_ (cfg_keys (config i)))
          (with_cfg_targets TheTargets (config i))))
    (with_targets (set_field "aframeProperty" from_ (targets i)) i).

(** What stays when an instance without an engine instance is ticked,
    paused and played: no engine instance appears and nothing is written
    or emitted. *)
Definition untouched (self : string) (el0 el : Entity) : Prop :=
  holds (fun i => animation i = None) self (components el) /\
  writes el = writes el0 /\ object_tree el = object_tree el0 /\
  emitted el = emitted el0.

(** The host's per-frame tick and entity pause and play on one instance. *)
Inductive frame_op (self : string) : Op -> Prop :=
| frame_tick t dt : frame_op self (DoTick self t dt)
| frame_pause : frame_op self (DoPause self)
| frame_play : frame_op self (DoPlay self).

(** ** Entities and configurations of the closed examples *)

(** No [property]; a pause event and a resume event. *)
Definition idle_data : Data :=
  Example.with_events [] ["stop"] ["go"] default_data.

(** [property: material.opacity; to: 0], started at once. *)
Definition opacity_data : Data :=
  Example.with_from_to "" "0" (Example.with_property "material.opacity" default_data).

(** The same with a resume event. *)
Definition resumable_opacity_data : Data :=
  Example.with_events [] [] ["again"] opacity_data.

(** Two instances on one property path, both updated; the second one's
    begin has stopped the first. *)
Definition two_opacity_animations : Entity :=
  run Example.host
    [DoUpdate "animation__a" resumable_opacity_data;
     DoUpdate "animation__b" opacity_data]
    (Example.entity
       [("animation__a", resumable_opacity_data); ("animation__b", opacity_data)]).


(** One instance as [init] leaves it, and after its first [update]. *)
Definition one_opacity_animation : Entity :=
  Example.entity [("animation", opacity_data)].

Definition running_opacity_animation : Entity :=
  step Example.host (DoUpdate "animation" opacity_data) one_opacity_animation.

(** The instance under a key and its engine instance, for entities that
    have them. *)
Definition the_instance (el : Entity) (self : string) : Instance :=
  default (init self default_data) (Example.instance el self).

Definition the_handle (i : Instance) : Anim := default (anime i) (animation i).

(** [property: rotation; from: 0 0 0; to: 180 0 0]. *)
Definition rotation_data : Data :=
  Example.with_from_to "0 0 0" "180 0 0" (Example.with_property "rotation" default_data).

(** A numeric [from] with a textual [to], and a textual [from] with a
    numeric [to]. *)
Definition mixed_endpoints_data : Data := Example.with_from_to "0" "abc" opacity_data.

Definition text_endpoints_data : Data := Example.with_from_to "abc" "5" opacity_data.

(** [property: visible; to: false], on an entity that is visible. *)
Definition hide_data : Data :=
  Example.with_from_to "" "false" (Example.with_property "visible" default_data).

(** [material.opacity] with a start, a pause and a resume event. *)
Definition triggered_opacity_data : Data :=
  Example.with_events ["go"] ["stop"] ["again"] opacity_data.

(** ** Where the entity behaves as it is modelled *)

(** [el.emit] runs the listeners of the event before it returns; [emit]
    records the notification and leaves the handlers to a later
    [DoEvent]. The two agree when no handler is attached under the name. *)
Definition heard (name : string) (el : Entity) : bool :=
  existsb (fun l => String.eqb (fst l) name) (listeners el).


(** The data that an updater captured. *)
Definition updater_data (u : Updater) : Data :=
  match u with
  | RawColorUpdater _ data => data
  | DefaultUpdater _ _ data => data
  | TransformUpdater _ data => data
  | VectorUpdater _ data => data
  end.

(** A raw path is walked from the entity itself and may lead through
    [el.components] to the fields of the animation instances, which the
    object tree of the model is kept apart from. An updater that writes
    through [setComponentProperty] or [object3D] walks no raw path. *)
Definition raw_updater (u : option Updater) : bool :=
  match u with
  | Some u => Helpers.isRawProperty (updater_data u)
  | None => false
  end.


(** The component that a property path names. *)
Definition component_name (property_ : string) : string :=
  nth 0 (split_dot property_) "".

(** Writing the property of [data] can reach an animation instance of
    the entity: along a raw path, or through [setComponentProperty] on a
    property of an animation component, which the entity answers by
    calling the [update] of that instance before the write returns; the
    model records such a write in [writes] and goes on. *)
Definition reaches_instances (el : Entity) (data : Data) : bool :=
  (Helpers.isRawProperty data
   || match components el !! component_name (property data) with
      | Some (Animation _) => true
      | _ => false
      end)%bool.

(** The engine instance under [self] holds an updater that can reach an
    animation instance. *)
Definition engine_reaches_instances (self : string) (el : Entity) : bool :=
  match components el !! self with
  | Some (Animation i) =>
      match animation i with
      | Some a =>
          match anim_update a with
          | Some u => reaches_instances el (updater_data u)
          | None => false
          end
      | None => false
      end
  | _ => false
  end.


(** An instance that animates a raw path, or holds an updater of one. *)
Definition raw_instance (i : Instance) : bool :=
  (Helpers.isRawProperty (data i)
   || raw_updater (cfg_update (config i))
   || match animation i with
      | Some a => raw_updater (anim_update a)
      | None => false
      end)%bool.

(** No instance of the entity has to do with a raw path. *)
Definition raw_free (el : Entity) : Prop :=
  forall k i, components el !! k = Some (Animation i) -> raw_instance i = false.

(** A call that brings the data of a raw path. *)
Definition raw_op (op : Op) : bool :=
  match op with
  | DoUpdate _ d => Helpers.isRawProperty d
  | _ => false
  end.

(** The members that every plain object inherits: for these keys
    [key in {}] holds and [{}[key]] is not undefined, while the cache and
    the component tables of this file hold own members only. *)
Definition inherited_member (key : string) : bool :=
  existsb (String.eqb key)
    ["constructor"; "hasOwnProperty"; "isPrototypeOf"; "propertyIsEnumerable";
     "toLocaleString"; "toString"; "valueOf"; "__defineGetter__";
     "__defineSetter__"; "__lookupGetter__"; "__lookupSetter__"; "__proto__"].



(** ** Vocabulary of the further properties *)

(** Every entry of the split cache is the split of its key. *)
Definition cache_coherent (el : Entity) : Prop :=
  forall path split, splitCache el !! path = Some split -> split = split_dot path.

(** An entity whose [object3D] carries a position and whose material
    carries a colour, for the raw paths of the closed examples. *)
Definition scene_tree : value :=
  VObj
    [("object3D",
      VObj [("position", VObj [("x", VNum zero); ("y", VNum zero); ("z", VNum zero)])]);
     ("components",
      VObj [("material",
             VObj [("material",
                    VObj [("color",
                           VObj [("r", VNum one); ("g", VNum one); ("b", VNum one)])])])])].

Definition raw_entity (instances : list (string * Data)) : Entity :=
  with_object_tree scene_tree (Example.entity instances).

(** [Q] holds of the instance under key [k], if there is one. *)
Definition every (Q : Instance -> Prop) (k : string)
    (m : gmap string Component) : Prop :=
  forall i, m !! k = Some (Animation i) -> Q i.

(** The listeners that an instance with data [d] declares. *)
Definition declared (self : string) (d : Data) : list Listener :=
  (map (fun name => (name, (self, OnStartEvent))) (startEvents d) ++
   map (fun name => (name, (self, PauseAnimation))) (pauseEvents d) ++
   map (fun name => (name, (self, ResumeAnimation))) (resumeEvents d))%list.

(** Listener [l] is attached. *)
Definition attached (l : Listener) (el : Entity) : Prop := l ∈ listeners el.

(** The instance under [self] is stopped, and neither a listener nor a
    delayed begin of the entity leads to it. *)
Definition disconnected (self : string) (el : Entity) : Prop :=
  (forall l, l ∈ listeners el -> fst (snd l) <> self) /\
  (forall x, x ∈ timers el -> fst x <> self) /\
  holds (fun i => animationIsPlaying i = false) self (components el).

(** The calls that do not address the instance under [self]: lifecycle
    calls on other instances, events and timers. *)
Inductive foreign_op (self : string) : Op -> Prop :=
| foreign_update s d : s <> self -> foreign_op self (DoUpdate s d)
| foreign_tick s t dt : s <> self -> foreign_op self (DoTick s t dt)
| foreign_remove s : s <> self -> foreign_op self (DoRemove s)
| foreign_pause s : s <> self -> foreign_op self (DoPause s)
| foreign_play s : s <> self -> foreign_op self (DoPlay s)
| foreign_event name : foreign_op self (DoEvent name)
| foreign_timer n : foreign_op self (DoTimer n).

(** [material.opacity] started by [go] and, in the second configuration,
    by [start] instead. *)
Definition go_opacity_data : Data := Example.with_events ["go"] [] [] opacity_data.

Definition start_opacity_data : Data := Example.with_events ["start"] [] [] opacity_data.

(** The timers are [ts], followed by those armed since. *)
Definition timers_extend (ts : list (string * number)) (el : Entity) : Prop :=
  exists new, timers el = (ts ++ new)%list.



(** The engine instance under [self] holds the raw-colour closure with
    the captured colour [lv]. *)
Definition holds_colour_closure (self : string) (lv : Triple) (d : Data)
    (el : Entity) : Prop :=
  holds
    (fun i => exists a, animation i = Some a /\
                        anim_update a = Some (RawColorUpdater lv d))
    self (components el).

(** The components are [c]. *)
Definition components_are (c : gmap string Component) (el : Entity) : Prop :=
  components el = c.


(** The time of the engine's first tick, from which anime.js counts: the
    oldest tick of the history, or else the tick at hand. *)
Definition first_tick (history : list Drive) (t : number) : number :=
  foldl (fun start d => match d with Tick t0 => t0 | Seek _ => start end) t history.

(** What the engine passes to the updater when it has arrived: the
    target with the values of the configuration's keys. *)
Definition arrived (an : Anim) : AnimArg :=
  {| animatables0_target := VObj (cfg_keys (anim_settings an));
     animations0_target := VObj (cfg_keys (anim_settings an)) |}.

(** The example host with an engine reduced to its arrival: once the
    duration has passed since its first tick it fires the update
    callback on the final values and then the completion callback; the
    ticks before fire nothing. *)
Definition arriving_host : Host :=
  {| getComponentProperty := getComponentProperty Example.host;
     coordinates_parse := coordinates_parse Example.host;
     Color_set := Color_set Example.host;
     AFRAME_components := AFRAME_components Example.host;
     engine := fun an d =>
       match d with
       | Seek _ => []
       | Tick t =>
           if PrimFloat.leb (ToNumber (cfg_duration (anim_settings an)))
                (t - first_tick (anim_driven an) t)
           then [OnUpdate (arrived an); OnComplete] else []
       end |}.

(** One running instance under that host, after its first tick. *)
Definition arriving_opacity_animation : Entity :=
  run arriving_host
    [DoUpdate "animation" opacity_data; DoTick "animation" zero 16%float]
    one_opacity_animation.

(** The material's colour animated through its raw path. *)
Definition colour_data : Data :=
  {| autoplay := true; delay := zero; dir := ""; dur := 1000%float;
     easing := "easeInQuad"; elasticity := 400%float; from := "";
     loop := VNum zero; property := "components.material.material.color";
     startEvents := []; pauseEvents := []; resumeEvents := []; to := "#f00";
     type := "color"; isRawProperty := false |}.

Definition colour_animation : Entity :=
  step Example.host (DoUpdate "animation" colour_data)
    (raw_entity [("animation", colour_data)]).

(** What the engine passes to the updater for one colour. *)
Definition colour_frame (r g b : number) : AnimArg :=
  {| animatables0_target := VObj [("r", VNum r); ("g", VNum g); ("b", VNum b)];
     animations0_target := VUndefined |}.

(** A notification of the component: one of its two event names, with
    the detail of an animation instance of entity [el0]. *)
Definition notification_of (el0 : Entity) (e : string * string) : Prop :=
  (fst e = "animationbegin" \/ fst e = "animationcomplete") /\
  exists k i, components el0 !! k = Some (Animation i) /\ snd e = eventDetail i.

(** The animation instances of [m] are instances of [m0], with the event
    detail they had there. *)
Definition details_from (m0 m : gmap string Component) : Prop :=
  forall k i,
    m !! k = Some (Animation i) ->
    exists i0, m0 !! k = Some (Animation i0) /\ eventDetail i = eventDetail i0.

(** Since [el0], the entity has emitted notifications of the component
    only. *)
Definition notifies_from (el0 el : Entity) : Prop :=
  (exists new,
      emitted el = (emitted el0 ++ new)%list /\ Forall (notification_of el0) new) /\
  details_from (components el0) (components el).

(** In every instance [pausedWasPlaying] is what [paused] is. *)
Definition pause_flags_agree (el : Entity) : Prop :=
  forall k, every (fun i => pausedWasPlaying i = paused i) k (components el).

(** The time of a call to the engine. *)
Definition drive_time (d : Drive) : number :=
  match d with
  | Seek t => t
  | Tick t => t
  end.

(** The engine instance, once driven, was last driven to [this.time]. *)
Definition clocked (i : Instance) : Prop :=
  match animation i with
  | Some a =>
      match anim_driven a with
      | d :: _ => drive_time d = time i
      | [] => True
      end
  | None => True
  end.

Definition engine_at_clock (el : Entity) : Prop :=
  forall k, every clocked k (components el).








(** The colour of a light that the entity does not have. *)
Definition light_colour_data : Data :=
  Example.with_property "components.light.light.color" colour_data.

(** [property: position], from the origin or from where the entity is. *)
Definition position_data : Data :=
  Example.with_from_to "0 0 0" "1 2 3" (Example.with_property "position" default_data).

Definition drifting_data : Data :=
  Example.with_from_to "" "1 2 3" (Example.with_property "position" default_data).

(** An entity with a position component beside its animation. *)
Definition positioned_entity (d : Data) : Entity :=
  with_components
    (<["position" := Other (SingleProp "vec3")]>
       (components (Example.entity [("animation", d)])))
    (Example.entity [("animation", d)]).

(** The instance when [updateConfigForVector] stops at the capture of
    [from.x]: the target and the keys of [to] are already installed. *)
Definition half_configured (H : Host) (i : Instance) (from0 : value) : Instance :=
  with_config
    (copy_keys (coordinates_parse H (to (data i)))
       (with_cfg_targets TheTargetsArray (config i)))
    (with_targetsArray [from0] i).

(** ** Proof rules for methods *)

Section Rules.

Context {A B : Type} (P : Entity -> Prop).

Lemma preserves_ret (a : A) : preserves P (ret a).
Proof. intros el HP. exact HP. Qed.

Lemma preserves_throw : preserves P (@throw A).
Proof. intros el HP. exact HP. Qed.

Lemma preserves_lift (o : option A) : preserves P (lift o).
Proof. intros el HP. destruct o; exact HP. Qed.

Lemma preserves_bind (m : M A) (k : A -> M B) :
  preserves P m -> (forall a, preserves P (k a)) -> preserves P (bind m k).
Proof.
  intros Hm Hk el HP. unfold bind. specialize (Hm el HP).
  destruct (m el) as [a el'|el']; simpl in *; [apply Hk|]; assumption.
Qed.

End Rules.

Lemma preserves_get (P : Entity -> Prop) : preserves P get.
Proof. intros el HP. exact HP. Qed.

Lemma preserves_modify (P : Entity -> Prop) (g : Entity -> Entity) :
  (forall el, P el -> P (g el)) -> preserves P (modify g).
Proof. intros Hg el HP. apply Hg, HP. Qed.

Lemma preserves_this (P : Entity -> Prop) (self : string) : preserves P (this self).
Proof.
  intros el HP. unfold this.
  destruct (components el !! self) as [[i|s]|]; exact HP.
Qed.

Lemma bind_Return {A B} (m : M A) (k : A -> M B) (el el' : Entity) (b : B) :
  bind m k el = Return b el' ->
  exists a el1, m el = Return a el1 /\ k a el1 = Return b el'.
Proof.
  unfold bind. destruct (m el) as [a el1|el1]; [|discriminate].
  intros Hk. exists a, el1. split; [reflexivity|exact Hk].
Qed.

Lemma this_Return (self : string) (el el' : Entity) (i : Instance) :
  this self el = Return i el' ->
  el' = el /\ components el !! self = Some (Animation i).
Proof.
  unfold this. destruct (components el !! self) as [[j|s]|]; try discriminate.
  intros [= -> ->]. split; reflexivity.
Qed.

Lemma this_lookup (self : string) (el : Entity) (i : Instance) :
  components el !! self = Some (Animation i) -> this self el = Return i el.
Proof. intros Hi. unfold this. rewrite Hi. reflexivity. Qed.

(** *** Instances under the updates that methods make *)

Lemma holds_alter (Q : Instance -> Prop) (k self : string)
    (f : Instance -> Instance) (m : gmap string Component) :
  (forall i, Q i -> Q (f i)) ->
  holds Q k m -> holds Q k (alter (on_instance f) self m).
Proof.
  intros Hf (i & Hi & HQ). destruct (decide (self = k)) as [->|Hne].
  - exists (f i). rewrite lookup_alter_eq, Hi. split; [reflexivity|auto].
  - exists i. rewrite lookup_alter_ne by exact Hne. split; assumption.
Qed.

Lemma holds_stop_related (Q : Instance -> Prop) (k self p : string)
    (m : gmap string Component) :
  (forall i, Q i -> Q (with_animationIsPlaying false i)) ->
  holds Q k m ->
  holds Q k (map_imap (fun k c => Some (stop_related self p k c)) m).
Proof.
  intros Hf (i & Hi & HQ). unfold holds. rewrite map_lookup_imap, Hi. simpl.
  unfold stop_related.
  destruct (String.eqb k self); [eauto|].
  destruct (negb _); eauto.
Qed.

(** One step of a preservation proof: a rule for the head of the method,
    with [tac] left to show that a state update keeps the predicate. *)
Ltac pres_step known tac :=
  first
    [ solve [known]
    | lazymatch goal with
      | |- preserves _ (bind _ _) => apply preserves_bind; [|intros ?]
      | |- preserves _ (ret _) => apply preserves_ret
      | |- preserves _ throw => apply preserves_throw
      | |- preserves _ get => apply preserves_get
      | |- preserves _ (lift _) => apply preserves_lift
      | |- preserves _ (this _) => apply preserves_this
      | |- preserves _ (modify _) => apply preserves_modify; intros ? ?; tac
      | |- preserves _ (set_this _ _) => apply preserves_modify; intros ? ?; tac
      | |- preserves _ (if ?b then _ else _) => destruct b
      | |- preserves _ (match ?x with _ => _ end) => destruct x
      end ].

Ltac pres_with known tac := repeat pres_step known tac.

Ltac pres tac := pres_with fail tac.

(** The instance functions that methods apply keep a property that does
    not look at what they set. *)
Ltac inst_side :=
  let i := fresh "i" in
  intros i ?; destruct i; simpl in *;
  repeat case_match; simpl in *; subst; try done; eauto.

(** A predicate on one instance survives an update of the entity. *)
Ltac holds_side :=
  first
    [ assumption
    | apply holds_alter; [inst_side|assumption]
    | apply holds_stop_related; [inst_side|assumption] ].

(** Every method, unfolded to the state updates it is made of. *)
Ltac unfold_methods :=
  unfold step, handler, update, tick, remove, pause, play, onStartEvent,
    createAndStartAnimation, beginAnimation, stopRelatedAnimations,
    updateConfig, updateConfigForRawColor, updateConfigForDefault, default_from,
    updateConfigForVector, setColorConfig, addEventListeners, removeEventListeners,
    drive, pauseAnimation, resumeAnimation, setTimeout_beginAnimation,
    Helpers.addEventListeners, Helpers.removeEventListeners,
    Helpers.getRawProperty.

Ltac unfold_callbacks :=
  unfold fire, complete, emit, run_update, set_updater, setComponentProperty,
    object3D_set, Helpers.setRawProperty, Helpers.getRawProperty, Helpers.splitDot.

(** *** The engine instance is never dropped *)

Section HandleKept.

Variable H : Host.
Variable k : string.

Lemma fire_all_handle (self : string) (cbs : list Callback) :
  preserves (has_handle k) (fire_all self cbs).
Proof.
  unfold has_handle. induction cbs as [|cb cbs IH]; simpl.
  - apply preserves_ret.
  - apply preserves_bind; [|intros _; exact IH].
    destruct cb; unfold_callbacks; pres holds_side.
Qed.

Lemma method_handle (self : string) (t dt : number) (op : Entity -> outcome unit) :
  In op [update H self; tick H self t dt; remove self; pause self; play self;
         onStartEvent H self; beginAnimation H self; pauseAnimation self;
         resumeAnimation self] ->
  preserves (has_handle k) op.
Proof.
  pose proof (fire_all_handle self) as Hfire. unfold has_handle in *.
  simpl. intros Hop.
  decompose [or] Hop; try contradiction; subst op;
    unfold_methods; unfold_callbacks;
    pres_with ltac:(apply Hfire) holds_side.
Qed.

Lemma dispatch_handle (name : string) (ls : list Listener) (el : Entity) :
  has_handle k el -> has_handle k (dispatch H name ls el).
Proof.
  revert el. induction ls as [|[n [self kind]] ls IH]; intros el Hel; simpl.
  - exact Hel.
  - apply IH. destruct (String.eqb n name); [|exact Hel].
    unfold handler. simpl.
    destruct kind; apply (method_handle self zero zero); simpl; auto 10.
Qed.

Lemma step_handle (op : Op) (el : Entity) :
  has_handle k el -> has_handle k (step H op el).
Proof.
  intros Hel. destruct op as [self d|self t dt|self|self|self|name|n]; simpl.
  - revert el Hel. apply preserves_bind.
    + unfold has_handle. apply preserves_modify. intros el Hel. holds_side.
    + intros _. apply (method_handle self zero zero). simpl; auto 10.
  - apply (method_handle self t dt); [simpl; auto 10|exact Hel].
  - apply (method_handle self zero zero); [simpl; auto 10|exact Hel].
  - apply (method_handle self zero zero); [simpl; auto 10|exact Hel].
  - apply (method_handle self zero zero); [simpl; auto 10|exact Hel].
  - apply dispatch_handle, Hel.
  - destruct (timers el !! n) as [[self d]|]; [|exact Hel].
    apply (method_handle self zero zero); [simpl; auto 10|exact Hel].
Qed.

Lemma run_handle (ops : list Op) (el : Entity) :
  has_handle k el -> has_handle k (run H ops el).
Proof.
  revert el. induction ops as [|op ops IH]; intros el Hel; simpl.
  - exact Hel.
  - apply IH, step_handle, Hel.
Qed.

End HandleKept.

(** *** What a method leaves alone *)

Ltac frame_side :=
  lazymatch goal with
  | Hf : adapter_frame _ _ _ _ |- _ =>
      unfold adapter_frame, same_elsewhere in *; destruct Hf as (?&?&?&?&?&?&?)
  | Hf : callback_frame _ _ _ _ |- _ =>
      unfold callback_frame, same_elsewhere in *; destruct Hf as (?&?&?&?)
  end;
  simpl; repeat split; try assumption;
  try (intros; rewrite lookup_alter_ne by congruence; auto);
  try (apply holds_alter; [|assumption];
       unfold same_lifecycle, same_but_flag;
       let i := fresh "i" in
       intros i ?; destruct i; simpl in *; repeat case_match; simpl in *;
       naive_solver).

Lemma same_lifecycle_refl (i : Instance) : same_lifecycle i i.
Proof. unfold same_lifecycle. auto 10. Qed.

Lemma same_but_flag_refl (i : Instance) : same_but_flag i i.
Proof. unfold same_but_flag. destruct (animation i); eauto 20. Qed.

Lemma adapter_frame_refl (self : string) (el : Entity) (i : Instance) :
  components el !! self = Some (Animation i) -> adapter_frame self el i el.
Proof.
  intros Hi. unfold adapter_frame, same_elsewhere.
  repeat split; try reflexivity. exists i. split; [exact Hi|apply same_lifecycle_refl].
Qed.

Lemma callback_frame_refl (self : string) (el : Entity) (i : Instance) :
  components el !! self = Some (Animation i) -> callback_frame self el i el.
Proof.
  intros Hi. unfold callback_frame, same_elsewhere.
  repeat split; try reflexivity. exists i. split; [exact Hi|apply same_but_flag_refl].
Qed.

Lemma updateConfig_frame (H : Host) (self : string) (el0 : Entity) (i0 : Instance) :
  preserves (adapter_frame self el0 i0) (updateConfig H self).
Proof. unfold_methods; unfold_callbacks; pres frame_side. Qed.

Lemma fire_all_frame (H : Host) (self : string) (el0 : Entity) (i0 : Instance)
    (cbs : list Callback) :
  preserves (callback_frame self el0 i0) (fire_all self cbs).
Proof.
  induction cbs as [|cb cbs IH]; simpl.
  - apply preserves_ret.
  - apply preserves_bind; [|intros _; exact IH].
    destruct cb; unfold_callbacks; pres frame_side.
Qed.

(** *** Reading the receiver after an update of it *)

Lemma lookup_on_instance (f : Instance -> Instance) (self : string)
    (m : gmap string Component) (i : Instance) :
  alter (on_instance f) self m !! self = Some (Animation i) ->
  exists j, m !! self = Some (Animation j) /\ i = f j.
Proof.
  rewrite lookup_alter_eq. destruct (m !! self) as [[j|s]|]; simpl; try discriminate.
  intros [= <-]. exists j. split; reflexivity.
Qed.

Lemma alter_on_instance (f : Instance -> Instance) (self : string)
    (m : gmap string Component) (i : Instance) :
  m !! self = Some (Animation i) ->
  alter (on_instance f) self m = <[self := Animation (f i)]> m.
Proof.
  intros Hi. apply map_eq. intros k. destruct (decide (self = k)) as [->|Hne].
  - rewrite lookup_alter_eq, lookup_insert_eq, Hi. reflexivity.
  - rewrite lookup_alter_ne, lookup_insert_ne by exact Hne. reflexivity.
Qed.

Lemma alter_after_insert (f : Instance -> Instance) (self : string)
    (m : gmap string Component) (i : Instance) :
  alter (on_instance f) self (<[self := Animation i]> m) =
  <[self := Animation (f i)]> m.
Proof.
  rewrite (alter_on_instance _ _ _ i) by apply lookup_insert_eq.
  apply insert_insert_eq.
Qed.

Tactic Notation "bind_inv" hyp(Hb) "as" ident(el1) ident(Hm) :=
  let a := fresh "a" in
  apply bind_Return in Hb as (a & el1 & Hm & Hb).
(** [update] with a property to animate leaves an engine instance. *)
Lemma update_builds_handle (H : Host) (self : string) (d : Data) (el el' : Entity) :
  property d <> "" ->
  (set_this self (with_data d);; update H self) el = Return tt el' ->
  has_handle self el'.
Proof.
  intros Hp Hu. bind_inv Hu as el1 Hs. injection Hs as _ <-.
  unfold update in Hu. bind_inv Hu as el2 Hthis. apply this_Return in Hthis as [-> Hi].
  simpl in Hi. apply lookup_on_instance in Hi as (j & Hj & ->). simpl in Hu.
  bind_inv Hu as el3 Hs. destruct (String.eqb_spec (property d) ""); [contradiction|].
  bind_inv Hu as el4 Hs4. unfold createAndStartAnimation in Hu.
  bind_inv Hu as el5 Hs5. bind_inv Hu as el6 Hs6. bind_inv Hu as el7 Hs7.
  bind_inv Hu as el8 Hs8. injection Hs8 as _ <-.
  lazymatch type of Hu with
  | ?tail _ = _ => assert (Htail : preserves (has_handle self) tail)
  end.
  { pose proof (fire_all_handle self self) as Hfire. unfold has_handle in *.
    unfold_methods; unfold_callbacks; pres_with ltac:(apply Hfire) holds_side. }
  lazymatch type of Hu with
  | _ ?pre = _ => assert (Hpre : has_handle self pre)
  end.
  { bind_inv Hu as el9 Hr. unfold removeEventListeners in Hr. bind_inv Hr as el10 Hthis.
    apply this_Return in Hthis as [-> Hi]. simpl in Hi.
    apply lookup_on_instance in Hi as (j' & Hj' & ->).
    unfold has_handle. simpl. exists (with_animation (Some (anime j')) j').
    rewrite lookup_alter_eq, Hj'. split; [reflexivity|discriminate]. }
  apply Htail in Hpre. rewrite Hu in Hpre. exact Hpre.
Qed.

(** ** Properties *)

(** *** Running flag and engine instance (C10) *)

(** C10, as stated, fails: an instance whose [property] is empty never
    gets an engine instance, yet entity pause and play attach its
    listeners, and its resume handler then sets the running flag. *)
Lemma running_without_interpolation_object :
  let el :=
    run Example.host
      [DoUpdate "animation" idle_data; DoPause "animation"; DoPlay "animation";
       DoEvent "stop"; DoEvent "go"]
      (Example.entity [("animation", idle_data)]) in
  exists i,
    components el !! "animation" = Some (Animation i) /\
    animationIsPlaying i = true /\ animation i = None.
Proof. eexists. vm_compute. repeat split. Qed.

(** C10, amended: once an [update] with a non-empty [property] has
    returned, the instance holds an engine instance in every state that
    the lifecycle operations reach from there; in particular whenever the
    running flag is set. *)
Theorem interpolation_object_kept_once_built
    (H : Host) (self : string) (d : Data) (el el' : Entity) (ops : list Op) :
  property d <> "" ->
  (set_this self (with_data d);; update H self) el = Return tt el' ->
  exists i,
    components (run H ops el') !! self = Some (Animation i) /\
    animation i <> None /\
    (animationIsPlaying i = true -> animation i <> None).
Proof.
  intros Hp Hu.
  destruct (run_handle H self ops el' (update_builds_handle H self d el el' Hp Hu))
    as (i & Hi & Ha).
  exists i. auto.
Qed.

Lemma interpolation_object_kept_once_built_witness :
  exists i,
    components
      (run Example.host [DoPause "animation"; DoPlay "animation"; DoEvent "go"]
         (step Example.host (DoUpdate "animation" opacity_data)
            (Example.entity [("animation", opacity_data)])))
      !! "animation" = Some (Animation i) /\
    animation i <> None /\
    (animationIsPlaying i = true -> animation i <> None).
Proof.
  apply (interpolation_object_kept_once_built Example.host "animation" opacity_data
           (Example.entity [("animation", opacity_data)])).
  - vm_compute. discriminate.
  - vm_compute. reflexivity.
Defined.

(** *** [beginAnimation], step by step *)

Lemma preserves_Return {A} (P : Entity -> Prop) (m : M A) (el el' : Entity) (a : A) :
  preserves P m -> P el -> m el = Return a el' -> P el'.
Proof. intros Hm HP Hr. specialize (Hm el HP). rewrite Hr in Hm. exact Hm. Qed.

Lemma begin_prefix_Return (H : Host) (self : string) (el el3 : Entity) :
  begin_prefix H self el = Return tt el3 ->
  exists i i3 a3,
    components el !! self = Some (Animation i) /\
    components el3 !! self = Some (Animation i3) /\
    data i3 = data i /\ eventDetail i3 = eventDetail i /\ time i3 = zero /\
    paused i3 = paused i /\ pausedWasPlaying i3 = pausedWasPlaying i /\
    animation i3 = Some a3 /\
    (exists a, animation i = Some a /\ anim_driven a3 = Seek zero :: anim_driven a /\
               anim_settings a3 = anim_settings a /\
               anim_targets a3 = anim_targets a) /\
    listeners el3 = listeners el /\ timers el3 = timers el /\
    same_elsewhere self el el3.
Proof.
  unfold begin_prefix. intros Hb.
  bind_inv Hb as el1 Hcfg. bind_inv Hb as el2 Hset. injection Hset as _ <-.
  unfold drive in Hb. bind_inv Hb as el2' Hthis.
  apply this_Return in Hthis as [-> Hi2]. simpl in Hi2.
  apply lookup_on_instance in Hi2 as (i1 & Hi1 & ->).
  assert (Hi : exists i, components el !! self = Some (Animation i)).
  { unfold updateConfig in Hcfg. bind_inv Hcfg as el0 Hthis.
    apply this_Return in Hthis as [-> Hi]. eauto. }
  destruct Hi as (i & Hi).
  pose proof (preserves_Return _ _ _ _ _ (updateConfig_frame H self el i)
                (adapter_frame_refl self el i Hi) Hcfg) as Hf1.
  destruct Hf1 as (Hl1 & He1 & Ht1 & Hw1 & Ho1 & Hs1 & (i1' & Hi1' & Hsame)).
  rewrite Hi1 in Hi1'. injection Hi1' as <-.
  destruct Hsame as (Hd & Hed & Htm & Ha & Hp & Hpa & Hpw).
  simpl in Hb. destruct (animation i1) as [an|] eqn:Ha1; [|discriminate].
  bind_inv Hb as el2' Hset. injection Hset as _ <-.
  lazymatch type of Hb with
  | fire_all _ _ ?pre = _ =>
      assert (Hpre : components pre !! self =
                     Some (Animation
                             (with_animation
                                (Some (driven (Seek zero) an))
                                (with_time zero i1))))
  end.
  { simpl. rewrite lookup_alter_eq, lookup_alter_eq, Hi1. reflexivity. }
  pose proof (preserves_Return _ _ _ _ _ (fire_all_frame H self _ _ _)
                (callback_frame_refl self _ _ Hpre) Hb) as Hf3.
  destruct Hf3 as (Hl3 & Ht3 & Hs3 & (i3 & Hi3 & Hsame3)).
  unfold same_but_flag in Hsame3. simpl in Hsame3.
  destruct Hsame3 as (Hd3 & Hed3 & Htm3 & Hpa3 & Hpw3 & _ & _ & _ & _ & _ &
                      (a3 & Ha3 & Hat3 & Has3 & Hatg3)).
  exists i, i3, a3. simpl in *.
  repeat split; try congruence.
  - exists an. repeat split; congruence.
  - intros k Hk. rewrite Hs3 by exact Hk. simpl.
    rewrite !lookup_alter_ne by congruence. apply Hs1, Hk.
Qed.

Lemma stop_related_self (self p : string) (c : Component) :
  stop_related self p self c = c.
Proof. unfold stop_related. rewrite String.eqb_refl. reflexivity. Qed.

Lemma begin_after_prefix (H : Host) (self : string) (el el3 : Entity) (i3 : Instance) :
  begin_prefix H self el = Return tt el3 ->
  components el3 !! self = Some (Animation i3) ->
  beginAnimation H self el = Return tt (begun self i3 el3).
Proof.
  intros Hpre Hi3. unfold beginAnimation, begin_prefix in *. unfold bind at 1 in Hpre.
  unfold bind at 1. destruct (updateConfig H self el) as [[] el1|]; [|discriminate].
  unfold bind at 1 in Hpre. unfold bind at 1. simpl in *.
  unfold bind at 1.
  destruct (drive H self (Seek zero) _) as [[] el3'|]; [|discriminate].
  injection Hpre as ->.
  unfold stopRelatedAnimations, emit, set_this, modify, bind, this. simpl.
  rewrite lookup_alter_eq, Hi3. simpl.
  rewrite map_lookup_imap, lookup_alter_eq, Hi3. simpl.
  rewrite stop_related_self. unfold begun. simpl.
  rewrite (alter_on_instance _ _ _ _ Hi3). reflexivity.
Qed.

Lemma begin_Return (H : Host) (self : string) (el el' : Entity) :
  beginAnimation H self el = Return tt el' ->
  exists el3 i3,
    begin_prefix H self el = Return tt el3 /\
    components el3 !! self = Some (Animation i3) /\
    el' = begun self i3 el3.
Proof.
  intros Hb. pose proof Hb as Hb'. unfold beginAnimation in Hb.
  bind_inv Hb as el1 Hcfg. bind_inv Hb as el2 Hset. bind_inv Hb as el3 Hdrive.
  destruct a, a0, a1.
  assert (Hpre : begin_prefix H self el = Return tt el3).
  { unfold begin_prefix, bind. rewrite Hcfg, Hset. exact Hdrive. }
  destruct (begin_prefix_Return H self el el3 Hpre) as (i & i3 & a3 & _ & Hi3 & _).
  exists el3, i3. repeat split; [exact Hpre|exact Hi3|].
  rewrite (begin_after_prefix H self el el3 i3 Hpre Hi3) in Hb'.
  injection Hb' as <-. reflexivity.
Qed.

Lemma begun_self (self : string) (i3 : Instance) (el3 : Entity) :
  components (begun self i3 el3) !! self =
  Some (Animation (with_animationIsPlaying true i3)).
Proof.
  unfold begun. simpl. rewrite map_lookup_imap, lookup_insert_eq. simpl.
  rewrite stop_related_self. reflexivity.
Qed.

Lemma begun_other (self k : string) (i3 : Instance) (el3 : Entity) :
  k <> self ->
  components (begun self i3 el3) !! k =
  stop_related self (property (data i3)) k <$> components el3 !! k.
Proof.
  intros Hk. unfold begun. simpl.
  rewrite map_lookup_imap, lookup_insert_ne by congruence.
  destruct (components el3 !! k); reflexivity.
Qed.

(** *** Last start wins (C1) *)

(** C1, as stated, fails in its last part: resuming an instance that a
    sibling's begin has stopped leaves two instances of one property path
    running. *)
Lemma two_advance_after_resume :
  ~ at_most_one_advancing
      (run Example.host
         [DoUpdate "animation__a" resumable_opacity_data;
          DoUpdate "animation__b" opacity_data;
          DoEvent "again"]
         (Example.entity
            [("animation__a", resumable_opacity_data);
             ("animation__b", opacity_data)])).
Proof.
  intros Hone.
  assert (Heq : "animation__a" = "animation__b");
    [eapply Hone; vm_compute; reflexivity|discriminate].
Qed.

(** C1, amended: when an instance begins, every other animation instance
    of the entity with the same property path is marked not running, no
    listener is detached, and the beginning instance is running; so right
    after a begin it is the only running instance of its property path. *)
Theorem begin_stops_same_property_siblings
    (H : Host) (self : string) (el el' : Entity) :
  beginAnimation H self el = Return tt el' ->
  exists i',
    components el' !! self = Some (Animation i') /\
    animationIsPlaying i' = true /\
    listeners el' = listeners el /\
    (forall k c,
        k <> self ->
        components el !! k = Some (Animation c) ->
        property (data c) = property (data i') ->
        components el' !! k = Some (Animation (with_animationIsPlaying false c))) /\
    (forall k c',
        components el' !! k = Some (Animation c') ->
        property (data c') = property (data i') ->
        animationIsPlaying c' = true ->
        k = self).
Proof.
  intros Hb. apply begin_Return in Hb as (el3 & i3 & Hpre & Hi3 & ->).
  destruct (begin_prefix_Return H self el el3 Hpre)
    as (i & i3' & a3 & Hi & Hi3' & Hd & _ & _ & _ & _ & _ & _ & Hl & _ & Hs).
  rewrite Hi3 in Hi3'. injection Hi3' as <-.
  exists (with_animationIsPlaying true i3).
  split; [apply begun_self|]. split; [reflexivity|]. split; [exact Hl|]. split.
  - intros k c Hk Hc Hp. rewrite begun_other by exact Hk.
    rewrite (Hs k Hk), Hc. simpl. unfold stop_related.
    destruct (String.eqb_spec k self); [contradiction|].
    simpl in Hp. rewrite Hp, String.eqb_refl. reflexivity.
  - intros k c' Hc' Hp Hrun. destruct (decide (k = self)) as [|Hk]; [assumption|].
    rewrite begun_other in Hc' by exact Hk.
    destruct (components el3 !! k) as [c|]; [|discriminate].
    simpl in Hc'. injection Hc' as Hc'. unfold stop_related in Hc'.
    destruct (String.eqb_spec k self); [contradiction|].
    destruct c as [c|s]; [|discriminate].
    destruct (String.eqb_spec (property (data c)) (property (data i3))) as [He|Hne];
      simpl in Hc'; injection Hc' as <-; simpl in *; congruence.
Qed.

Lemma begin_stops_same_property_siblings_witness :
  exists i',
    components
      (final (beginAnimation Example.host "animation__a" two_opacity_animations))
      !! "animation__a" = Some (Animation i') /\
    animationIsPlaying i' = true /\
    components
      (final (beginAnimation Example.host "animation__a" two_opacity_animations))
      !! "animation__b" =
    option_map (fun c => Animation (with_animationIsPlaying false c))
      (Example.instance two_opacity_animations "animation__b").
Proof.
  destruct (begin_stops_same_property_siblings Example.host "animation__a"
              two_opacity_animations
              (final (beginAnimation Example.host "animation__a" two_opacity_animations)))
    as (i' & Hi' & Hrun & _ & Hsib & _).
  - vm_compute. reflexivity.
  - exists i'. split; [assumption|]. split; [assumption|].
    vm_compute. reflexivity.
Defined.

(** *** The effects of begin (C5) *)




(** *** Update: build, then stay idle or begin (C4) *)

Lemma removeEventListeners_lookup (self : string) (el : Entity) (i : Instance) :
  components el !! self = Some (Animation i) ->
  removeEventListeners self el =
  Return tt (with_listeners (detach self (data i) (listeners el)) el).
Proof.
  intros Hi. unfold removeEventListeners, bind. rewrite (this_lookup _ _ _ Hi).
  reflexivity.
Qed.

Lemma addEventListeners_lookup (self : string) (el : Entity) (i : Instance) :
  components el !! self = Some (Animation i) ->
  addEventListeners self el =
  Return tt (with_listeners (attach self (data i) (listeners el)) el).
Proof.
  intros Hi. unfold addEventListeners, bind. rewrite (this_lookup _ _ _ Hi).
  reflexivity.
Qed.







(** *** Pause and resume (C2) *)

(** A tick of a running instance adds [dt] to the time and hands the sum
    to the engine. *)
Lemma tick_running (H : Host) (self : string) (el : Entity) (i : Instance)
    (an : Anim) (t dt : number) :
  components el !! self = Some (Animation i) ->
  animationIsPlaying i = true ->
  animation i = Some an ->
  tick H self t dt el =
  fire_all self (engine H an (Tick (time i + dt)%float))
    (with_components
       (<[self := Animation
                    (with_animation (Some (driven (Tick (time i + dt)%float) an))
                       (with_time (time i + dt)%float i))]> (components el))
       el).
Proof.
  intros Hi Hrun Han. unfold tick. unfold bind at 1.
  rewrite (this_lookup _ _ _ Hi), Hrun. simpl.
  unfold bind at 1. simpl. unfold bind at 1. unfold this at 1. simpl.
  rewrite lookup_alter_eq, Hi. simpl. unfold drive.
  unfold bind at 1. unfold this at 1. simpl.
  rewrite lookup_alter_eq, Hi. simpl. rewrite Han.
  unfold bind at 1. simpl.
  rewrite (alter_on_instance _ _ _ _ Hi).
  rewrite (alter_on_instance _ _ _ (with_time (time i + dt)%float i))
    by apply lookup_insert_eq.
  rewrite insert_insert_eq. reflexivity.
Qed.

(** A tick of an instance that is not running does nothing. *)
Lemma tick_paused (H : Host) (self : string) (el : Entity) (i : Instance)
    (t dt : number) :
  components el !! self = Some (Animation i) ->
  animationIsPlaying i = false ->
  tick H self t dt el = Return tt el.
Proof.
  intros Hi Hrun. unfold tick, bind. rewrite (this_lookup _ _ _ Hi), Hrun.
  reflexivity.
Qed.

(** C2: pause and resume change the running flag of their instance and
    nothing else; the elapsed time and the engine instance stay. A tick
    in between does nothing, and the first tick after the resume sets the
    time to the old time plus the frame's delta and calls the engine with
    it, not with a time counted from zero; the engine's callbacks run on
    top of that. When no handler listens for [animationcomplete] and the
    engine's updater can reach no animation instance (it writes along no
    raw path and to no property of an animation component), the tick
    ends at that time, with the engine driven to it. *)
Theorem pause_resume_toggle_only_the_flag
    (H : Host) (self : string) (el : Entity) (i : Instance) (t dt : number) :
  components el !! self = Some (Animation i) ->
  let flagged b :=
    with_components (<[self := Animation (with_animationIsPlaying b i)]> (components el)) el in
  pauseAnimation self el = Return tt (flagged false) /\
  resumeAnimation self el = Return tt (flagged true) /\
  (forall b,
      time (with_animationIsPlaying b i) = time i /\
      animation (with_animationIsPlaying b i) = animation i /\
      same_but_flag i (with_animationIsPlaying b i)) /\
  (pauseAnimation self;; resumeAnimation self) el = Return tt (flagged true) /\
  tick H self t dt (flagged false) = Return tt (flagged false) /\
  forall an,
    animation i = Some an ->
    let t' := (time i + dt)%float in
    tick H self t dt (flagged true) =
    fire_all self (engine H an (Tick t'))
      (with_components
         (<[self := Animation
                      (with_animation (Some (driven (Tick t') an))
                         (with_time t' (with_animationIsPlaying true i)))]>
            (components el))
         el) /\
    (heard "animationcomplete" el = false ->
     engine_reaches_instances self el = false ->
     exists i' an',
       components (final (tick H self t dt (flagged true))) !! self =
       Some (Animation i') /\
       time i' = t' /\
       animation i' = Some an' /\
       anim_driven an' = Tick t' :: anim_driven an).
Proof.
  intros Hi flagged. subst flagged. simpl.
  assert (Hp : forall b,
             set_this self (with_animationIsPlaying b) el =
             Return tt
               (with_components
                  (<[self := Animation (with_animationIsPlaying b i)]> (components el)) el)).
  { intros b. unfold set_this, modify. rewrite (alter_on_instance _ _ _ _ Hi).
    reflexivity. }
  split; [apply Hp|]. split; [apply Hp|]. split.
  { intros b. repeat split. unfold same_but_flag. simpl.
    destruct (animation i) as [an|]; repeat split. exists an. auto. }
  split.
  { unfold bind, pauseAnimation, resumeAnimation. rewrite Hp.
    unfold set_this, modify. simpl. rewrite alter_after_insert. reflexivity. }
  split.
  { apply (tick_paused H self _ (with_animationIsPlaying false i));
      [apply lookup_insert_eq|reflexivity]. }
  intros an Han.
  rewrite (tick_running H self _ (with_animationIsPlaying true i) an)
    by (try apply lookup_insert_eq; try reflexivity; exact Han).
  simpl. rewrite insert_insert_eq. split; [reflexivity|]. intros _ _.
  lazymatch goal with
  | |- context [fire_all self ?cbs ?pre] =>
      assert (Hpre : components pre !! self =
                     Some (Animation
                             (with_animation (Some (driven (Tick (time i + dt)%float) an))
                                (with_time (time i + dt)%float
                                   (with_animationIsPlaying true i)))));
      [apply lookup_insert_eq|];
      pose proof (fire_all_frame H self pre _ cbs pre
                    (callback_frame_refl self pre _ Hpre)) as Hf
  end.
  destruct Hf as (_ & _ & _ & (i' & Hi' & Hsame)).
  unfold same_but_flag in Hsame. simpl in Hsame.
  destruct Hsame as (_ & _ & Ht & _ & _ & _ & _ & _ & _ & _ & (an' & Han' & Hat & _)).
  exists i', an'. auto.
Qed.

Lemma pause_resume_toggle_only_the_flag_witness :
  let i := the_instance running_opacity_animation "animation" in
  let resumed :=
    with_components
      (<["animation" := Animation (with_animationIsPlaying true i)]>
         (components running_opacity_animation))
      running_opacity_animation in
  (pauseAnimation "animation";; resumeAnimation "animation") running_opacity_animation =
  Return tt resumed /\
  exists i',
    components (final (tick Example.host "animation" 500%float 16%float resumed))
      !! "animation" = Some (Animation i') /\
    time i' = (time i + 16)%float.
Proof.
  destruct (pause_resume_toggle_only_the_flag Example.host "animation"
              running_opacity_animation
              (the_instance running_opacity_animation "animation")
              500%float 16%float)
    as (_ & _ & _ & Hpr & _ & Htick).
  - vm_compute. reflexivity.
  - split; [exact Hpr|].
    destruct (Htick (the_handle (the_instance running_opacity_animation "animation")))
      as (_ & Hend).
    + vm_compute. reflexivity.
    + destruct Hend as (i' & an' & Hi' & Ht & _).
      * vm_compute. reflexivity.
      * vm_compute. reflexivity.
      * exists i'. split; assumption.
Defined.

(** *** Object fields *)

Lemma field_set_field_eq (k : string) (v : value) (fs : list (string * value)) :
  field k (set_field k v fs) = v.
Proof.
  induction fs as [|[k' w] fs IH]; simpl.
  - rewrite String.eqb_refl. reflexivity.
  - destruct (String.eqb_spec k' k) as [->|Hne]; simpl.
    + rewrite String.eqb_refl. reflexivity.
    + destruct (String.eqb_spec k' k); [contradiction|exact IH].
Qed.

Lemma field_set_field_ne (k k' : string) (v : value) (fs : list (string * value)) :
  k <> k' -> field k (set_field k' v fs) = field k fs.
Proof.
  intros Hne. induction fs as [|[k0 w] fs IH]; simpl.
  - destruct (String.eqb_spec k' k); [congruence|reflexivity].
  - destruct (String.eqb_spec k0 k') as [->|Hne0]; simpl.
    + destruct (String.eqb_spec k' k); [congruence|reflexivity].
    + destruct (String.eqb_spec k0 k); [reflexivity|exact IH].
Qed.

Lemma key_set_field (k k' : string) (v : value) (fs : list (string * value)) :
  k = k' \/ In k (map fst fs) -> In k (map fst (set_field k' v fs)).
Proof.
  induction fs as [|[k0 w] fs IH]; simpl.
  - intros [->|[]]. left. reflexivity.
  - intros Hin. destruct (String.eqb_spec k0 k') as [->|Hne0]; simpl.
    + destruct Hin as [->|[<-|Hin]]; auto.
    + destruct Hin as [->|[<-|Hin]]; auto.
Qed.

Lemma field_not_copied (to_ : list (string * value)) (k : string)
    (keys : list string) (ks : list (string * value)) :
  ~ In k keys ->
  field k (foldl (fun ks key => set_field key (field key to_) ks) ks keys) =
  field k ks.
Proof.
  revert ks. induction keys as [|a keys IH]; intros ks Hnin; simpl; [reflexivity|].
  rewrite IH by (intros Hin; apply Hnin; right; exact Hin).
  apply field_set_field_ne. intros ->. apply Hnin. left. reflexivity.
Qed.

Lemma field_copied (to_ : list (string * value)) (k : string)
    (keys : list string) (ks : list (string * value)) :
  In k keys ->
  field k (foldl (fun ks key => set_field key (field key to_) ks) ks keys) =
  field k to_.
Proof.
  revert ks. induction keys as [|a keys IH]; intros ks; simpl; [intros []|].
  intros [->|Hin]; [|apply IH, Hin].
  destruct (in_dec string_dec k keys) as [Hin|Hnin]; [apply IH, Hin|].
  rewrite field_not_copied by exact Hnin. apply field_set_field_eq.
Qed.

(** [toRadians] on an object: [x], [y] and [z] hold the radians of what
    they held, whatever else the object carries. *)
Lemma radians_fields (fs : list (string * value)) :
  field "x" (Helpers.radians fs) = VNum (THREE.degToRad (field "x" fs)) /\
  field "y" (Helpers.radians fs) = VNum (THREE.degToRad (field "y" fs)) /\
  field "z" (Helpers.radians fs) = VNum (THREE.degToRad (field "z" fs)) /\
  In "x" (map fst (Helpers.radians fs)) /\
  In "y" (map fst (Helpers.radians fs)) /\
  In "z" (map fst (Helpers.radians fs)).
Proof.
  unfold Helpers.radians.
  repeat rewrite ?field_set_field_eq, ?field_set_field_ne by discriminate.
  repeat split;
    repeat (apply key_set_field; first [left; reflexivity|right]).
Qed.

#[local] Arguments Helpers.radians : simpl never.

(** *** Rotation runs in radians (C9) *)

(** A write of the transform updater: the interpolated coordinates go to
    the transform node as the engine hands them over. *)
Lemma transform_updater_writes (self : string) (lastValue : Triple) (d : Data)
    (anim : AnimArg) (vfs : list (string * value)) (el : Entity) :
  animatables0_target anim = VObj vfs ->
  same_triple {| c1 := field "x" vfs; c2 := field "y" vfs; c3 := field "z" vfs |}
    lastValue = false ->
  exists el',
    run_update self (TransformUpdater lastValue d) anim el = Return tt el' /\
    writes el' =
    (writes el ++
     [Object3DSet (property d) (field "x" vfs) (field "y" vfs) (field "z" vfs)])%list.
Proof.
  intros Hv Hne. unfold run_update. rewrite Hv. unfold capture. simpl.
  unfold bind at 1. simpl. rewrite Hne.
  eexists. split; reflexivity.
Qed.

Lemma rotation_config (H : Host) (self : string) (el : Entity) (i : Instance)
    (ffs : list (string * value)) :
  components el !! self = Some (Animation i) ->
  property (data i) = PROP_ROTATION ->
  (Helpers.isRawProperty (data i) && String.eqb (type (data i)) TYPE_COLOR)%bool = false ->
  is_vector_type (Helpers.getPropertyType H el (property (data i))) = true ->
  (if negb (String.eqb (from (data i)) "")
   then VObj (coordinates_parse H (from (data i)))
   else getComponentProperty H el (property (data i))) = VObj ffs ->
  updateConfig H self el =
  Return tt
    (with_components
       (<[self := Animation (rotation_instance H i ffs)]> (components el)) el).
Proof.
  intros Hi Hp Hraw Hvec Hfrom.
  unfold updateConfig. unfold bind at 1. rewrite (this_lookup _ _ _ Hi).
  unfold bind at 1. simpl. rewrite Hraw, Hvec.
  unfold updateConfigForVector. unfold bind at 1. rewrite (this_lookup _ _ _ Hi).
  unfold bind at 1. simpl. rewrite Hfrom, Hp. simpl.
  unfold bind, set_this, modify. simpl.
  rewrite (alter_on_instance _ _ _ _ Hi).
  rewrite !alter_after_insert. reflexivity.
Qed.

(** C9: for a vector-routed rotation both endpoints reach the engine with
    [x], [y] and [z] multiplied by pi / 180, where pi is the binary64
    number 7074237752028440 / 2 ^ 51 = 3.141592653589793..; so 180
    becomes pi and 90 becomes half of it. The engine's interpolated
    coordinates are written to the transform node as they are. *)
Theorem rotation_endpoints_in_radians
    (H : Host) (self : string) (el : Entity) (i : Instance)
    (ffs : list (string * value)) :
  components el !! self = Some (Animation i) ->
  property (data i) = PROP_ROTATION ->
  (Helpers.isRawProperty (data i) && String.eqb (type (data i)) TYPE_COLOR)%bool = false ->
  is_vector_type (Helpers.getPropertyType H el (property (data i))) = true ->
  (if negb (String.eqb (from (data i)) "")
   then VObj (coordinates_parse H (from (data i)))
   else getComponentProperty H el (property (data i))) = VObj ffs ->
  let tfs := coordinates_parse H (to (data i)) in
  let pi := 0x1.921fb54442d18p+1%float in
  let rad v := VNum (ToNumber v * (pi / 180))%float in
  exists el1 i1 from_,
    updateConfig H self el = Return tt el1 /\
    components el1 !! self = Some (Animation i1) /\
    targetsArray i1 = [VObj from_] /\
    anim_targets (anime i1) = [VObj from_] /\
    field "x" from_ = rad (field "x" ffs) /\
    field "y" from_ = rad (field "y" ffs) /\
    field "z" from_ = rad (field "z" ffs) /\
    field "x" (cfg_keys (anim_settings (anime i1))) = rad (field "x" tfs) /\
    field "y" (cfg_keys (anim_settings (anime i1))) = rad (field "y" tfs) /\
    field "z" (cfg_keys (anim_settings (anime i1))) = rad (field "z" tfs) /\
    anim_update (anime i1) =
    Some (TransformUpdater
            {| c1 := rad (field "x" ffs); c2 := rad (field "y" ffs);
               c3 := rad (field "z" ffs) |} (data i)) /\
    (forall lastValue anim vfs el0,
        animatables0_target anim = VObj vfs ->
        same_triple
          {| c1 := field "x" vfs; c2 := field "y" vfs; c3 := field "z" vfs |}
          lastValue = false ->
        exists el',
          run_update self (TransformUpdater lastValue (data i)) anim el0 =
          Return tt el' /\
          writes el' =
          (writes el0 ++
           [Object3DSet PROP_ROTATION (field "x" vfs) (field "y" vfs) (field "z" vfs)])%list) /\
    (forall v, VNum (THREE.degToRad v) = rad v) /\
    rad (VNum 180%float) = VNum pi /\
    rad (VNum 90%float) = VNum 0x1.921fb54442d18p+0%float /\
    rad (VNum zero) = VNum zero /\
    Prim2SF pi = S754_finite false 7074237752028440 (-51) /\
    (3141592653589793 * 2 ^ 51 < 7074237752028440 * 10 ^ 15)%Z /\
    (7074237752028440 * 10 ^ 15 < 3141592653589794 * 2 ^ 51)%Z.
Proof.
  intros Hi Hp Hraw Hvec Hfrom tfs pi rad.
  assert (Hrad : forall v, VNum (THREE.degToRad v) = rad v) by reflexivity.
  destruct (radians_fields ffs) as (Hfx & Hfy & Hfz & _).
  destruct (radians_fields tfs) as (Htx & Hty & Htz & Hkx & Hky & Hkz).
  rewrite Hrad in Hfx, Hfy, Hfz, Htx, Hty, Htz.
  exists (with_components
            (<[self := Animation (rotation_instance H i ffs)]> (components el)) el),
    (rotation_instance H i ffs), (Helpers.radians ffs).
  split; [exact (rotation_config H self el i ffs Hi Hp Hraw Hvec Hfrom)|].
  split; [apply lookup_insert_eq|].
  split; [reflexivity|]. split; [reflexivity|].
  do 3 (split; [assumption|]).
  unfold rotation_instance, copy_keys. simpl. fold tfs.
  rewrite !field_copied by assumption.
  do 3 (split; [assumption|]).
  split; [rewrite Hfx, Hfy, Hfz; reflexivity|].
  split.
  { intros lastValue anim vfs el0 Hv Hne. rewrite <- Hp.
    exact (transform_updater_writes self lastValue (data i) anim vfs el0 Hv Hne). }
  split; [exact Hrad|].
  repeat split; vm_compute; reflexivity.
Qed.

Lemma rotation_endpoints_in_radians_witness :
  exists el1 i1,
    updateConfig Example.host "animation"
      (Example.entity [("animation", rotation_data)]) = Return tt el1 /\
    components el1 !! "animation" = Some (Animation i1) /\
    field "x" (cfg_keys (anim_settings (anime i1))) = VNum 0x1.921fb54442d18p+1%float.
Proof.
  destruct (rotation_endpoints_in_radians Example.host "animation"
              (Example.entity [("animation", rotation_data)])
              (init "animation" rotation_data)
              (Example.parse "0 0 0"))
    as (el1 & i1 & from_ & Hu & Hi1 & _ & _ & _ & _ & _ & Hx & _).
  - vm_compute. reflexivity.
  - reflexivity.
  - reflexivity.
  - vm_compute. reflexivity.
  - reflexivity.
  - exists el1, i1. split; [exact Hu|]. split; [exact Hi1|].
    rewrite Hx. vm_compute. reflexivity.
Defined.

(** *** The default route (C6, C8) *)

Lemma default_from_components (H : Host) (d : Data) (el el0 : Entity) (v : value) :
  default_from H d el = Return v el0 -> components el0 = components el.
Proof.
  apply (preserves_Return (fun e => components e = components el));
    [|reflexivity].
  unfold default_from, Helpers.getRawProperty, Helpers.splitDot.
  pres ltac:(assumption).
Qed.

Lemma default_config (H : Host) (self : string) (el el0 : Entity) (i : Instance)
    (from0 : value) :
  components el !! self = Some (Animation i) ->
  default_from H (data i) el = Return from0 el0 ->
  updateConfigForDefault H self el =
  Return tt
    (with_components
       (<[self := Animation (default_instance i from0)]> (components el0)) el0).
Proof.
  intros Hi Hfrom. pose proof (default_from_components _ _ _ _ _ Hfrom) as Hc.
  unfold updateConfigForDefault. unfold bind at 1. rewrite (this_lookup _ _ _ Hi).
  unfold bind at 1. rewrite Hfrom. unfold default_instance.
  destruct (default_endpoints (data i) from0) as [[from_ to_] isBoolean].
  unfold bind, set_this, modify. simpl.
  rewrite <- Hc in Hi. rewrite (alter_on_instance _ _ _ _ Hi).
  rewrite !alter_after_insert. reflexivity.
Qed.

(** C8, as stated, fails: with [from: 0] and [to: abc] the numeric test
    looks at [from] alone, and the non-numeric [to] is installed as the
    NaN of its failed parse. *)
Lemma non_numeric_to_installed_as_NaN :
  isNaN (VStr (to mixed_endpoints_data)) = true /\
  default_endpoints mixed_endpoints_data (VStr (from mixed_endpoints_data)) =
  (VNum zero, VNum NaN, false) /\
  option_map (fun i => field "aframeProperty" (cfg_keys (config i)))
    (Example.instance
       (final (updateConfig Example.host "animation"
                 (Example.entity [("animation", mixed_endpoints_data)])))
       "animation") = Some (VNum NaN).
Proof. vm_compute. repeat split. Qed.

(** C8, amended: in default routing one value is tested, [from] when it
    is truthy and [to] otherwise. If it is not numeric, the endpoints are
    installed as strings (a falsy [from] as it is); if it is numeric, both
    endpoints are installed as their [parseFloat], which for a non-numeric
    other endpoint is NaN. Boolean literals in [to] apart. *)
Theorem default_endpoints_decided_by_one_test
    (H : Host) (self : string) (el el0 : Entity) (i : Instance) (from0 : value) :
  components el !! self = Some (Animation i) ->
  default_from H (data i) el = Return from0 el0 ->
  to (data i) <> "true" -> to (data i) <> "false" ->
  let tested := if truthy from0 then from0 else VStr (to (data i)) in
  exists el1 i1 from_ to_,
    updateConfigForDefault H self el = Return tt el1 /\
    components el1 !! self = Some (Animation i1) /\
    field "aframeProperty" (targets i1) = from_ /\
    field "aframeProperty" (cfg_keys (config i1)) = to_ /\
    cfg_update (config i1) = Some (DefaultUpdater from_ false (data i)) /\
    (isNaN tested = true ->
     from_ = (if truthy from0 then VStr (ToString from0) else from0) /\
     to_ = VStr (to (data i))) /\
    (isNaN tested = false ->
     from_ = VNum (parseFloat from0) /\
     to_ = VNum (parseFloat (VStr (to (data i))))).
Proof.
  intros Hi Hfrom Htrue Hfalse tested.
  assert (Hends :
           default_endpoints (data i) from0 =
           if isNaN tested
           then (if truthy from0 then VStr (ToString from0) else from0,
                 VStr (to (data i)), false)
           else (VNum (parseFloat from0), VNum (parseFloat (VStr (to (data i)))), false)).
  { unfold default_endpoints. fold tested. destruct (isNaN tested); simpl; [|reflexivity].
    destruct (String.eqb (to (data i)) ""); simpl;
      destruct (String.eqb_spec (to (data i)) "true"); try contradiction;
      destruct (String.eqb_spec (to (data i)) "false"); try contradiction;
      reflexivity. }
  exists (with_components
            (<[self := Animation (default_instance i from0)]> (components el0)) el0),
    (default_instance i from0),
    (fst (fst (default_endpoints (data i) from0))),
    (snd (fst (default_endpoints (data i) from0))).
  split; [exact (default_config H self el el0 i from0 Hi Hfrom)|].
  split; [apply lookup_insert_eq|].
  unfold default_instance. rewrite Hends.
  destruct (isNaN tested); simpl; rewrite !field_set_field_eq;
    repeat split; intros; congruence.
Qed.

Lemma default_endpoints_decided_by_one_test_witness :
  exists el1 i1,
    updateConfigForDefault Example.host "animation"
      (Example.entity [("animation", text_endpoints_data)]) = Return tt el1 /\
    components el1 !! "animation" = Some (Animation i1) /\
    field "aframeProperty" (targets i1) = VStr "abc" /\
    field "aframeProperty" (cfg_keys (config i1)) = VStr "5".
Proof.
  destruct (default_endpoints_decided_by_one_test Example.host "animation"
              (Example.entity [("animation", text_endpoints_data)])
              (Example.entity [("animation", text_endpoints_data)])
              (init "animation" text_endpoints_data) (VStr "abc"))
    as (el1 & i1 & from_ & to_ & Hu & Hi1 & Hf & Ht & _ & Htext & _).
  - vm_compute. reflexivity.
  - reflexivity.
  - discriminate.
  - discriminate.
  - destruct Htext as [-> ->]; [vm_compute; reflexivity|].
    exists el1, i1. auto.
Defined.

(** With a test value that is not numeric, a boolean literal in [to]
    makes both endpoints 0 or 1. *)
Lemma boolean_endpoints (d : Data) (from0 : value) :
  isNaN (if truthy from0 then from0 else VStr (to d)) = true ->
  to d = "true" \/ to d = "false" ->
  default_endpoints d from0 =
  (VNum (if String.eqb (from d) "true" then one else zero),
   VNum (if String.eqb (to d) "true" then one else zero), true).
Proof.
  intros Htest Hto. unfold default_endpoints. rewrite Htest.
  destruct Hto as [-> | ->]; reflexivity.
Qed.

(** The write of the default updater for a boolean target: [true] from 1
    on, [false] below. *)
Lemma boolean_write_back (self : string) (lastValue v : value) (d : Data)
    (anim : AnimArg) (fs : list (string * value)) (el : Entity) :
  animatables0_target anim = VObj fs ->
  field "aframeProperty" fs = v ->
  strict_eq v lastValue = false ->
  Helpers.isRawProperty d = false ->
  writes (final (run_update self (DefaultUpdater lastValue true d) anim el)) =
  (writes el ++ [SetComponentProperty (property d) (VBool (ge_one v))])%list /\
  ge_one (VNum one) = true /\ ge_one (VNum zero) = false.
Proof.
  intros Ht Hv Hne Hraw. unfold run_update. rewrite Ht. simpl. rewrite Hv.
  unfold bind at 1. simpl. rewrite Hne, Hraw. repeat split.
Qed.

(** C6 at the failing input: [visible] is [true] and is animated to
    [false] without a declared [from]. The test value is the boolean
    [true], which is numeric, so both endpoints are parsed to NaN before
    the boolean literal is looked for; it is not found, the endpoints stay
    NaN, and an interpolated 0 is written back as the number 0. *)
Theorem boolean_target_lost_after_numeric_test :
  let el0 := Example.entity [("animation", hide_data)] in
  let el := final (updateConfig Example.host "animation" el0) in
  getComponentProperty Example.host el0 "visible" = VBool true /\
  isNaN (VBool true) = false /\
  option_map
    (fun i => (field "aframeProperty" (targets i),
               field "aframeProperty" (cfg_keys (config i)),
               cfg_update (config i)))
    (Example.instance el "animation") =
  Some (VNum NaN, VNum NaN, Some (DefaultUpdater (VNum NaN) false hide_data)) /\
  writes
    (final
       (run_update "animation" (DefaultUpdater (VNum NaN) false hide_data)
          {| animatables0_target := VObj [("aframeProperty", VNum zero)];
             animations0_target := VUndefined |} el)) =
  [SetComponentProperty "visible" (VNum zero)].
Proof. vm_compute. repeat split. Qed.

(** *** Entity pause and play (C3, C7) *)

Lemma pause_lookup (self : string) (el : Entity) (i : Instance) :
  components el !! self = Some (Animation i) ->
  pause self el =
  Return tt
    (with_listeners (detach self (data i) (listeners el))
       (with_components
          (<[self := Animation
                       (with_animationIsPlaying false
                          (with_pausedWasPlaying true (with_paused true i)))]>
             (components el))
          el)).
Proof.
  intros Hi. unfold pause, pauseAnimation. unfold bind, set_this, modify. simpl.
  rewrite (alter_on_instance _ _ _ _ Hi). rewrite !alter_after_insert.
  erewrite removeEventListeners_lookup by (simpl; apply lookup_insert_eq).
  reflexivity.
Qed.

(** [play] after [pause]: the listeners are attached again and the
    running flag is set, whatever it was before the pause. *)
Lemma pause_then_play (self : string) (el : Entity) (i : Instance) :
  components el !! self = Some (Animation i) ->
  (pause self;; play self) el =
  Return tt
    (with_listeners (attach self (data i) (detach self (data i) (listeners el)))
       (with_components
          (<[self := Animation
                       (with_pausedWasPlaying false
                          (with_animationIsPlaying true (with_paused false i)))]>
             (components el))
          el)).
Proof.
  intros Hi. unfold bind at 1. rewrite (pause_lookup _ _ _ Hi).
  unfold play. unfold bind at 1. unfold this at 1. simpl.
  rewrite lookup_insert_eq. simpl.
  unfold bind at 1. simpl. rewrite alter_after_insert.
  unfold bind at 1.
  erewrite addEventListeners_lookup by (simpl; apply lookup_insert_eq).
  unfold bind at 1. unfold this at 1. simpl. rewrite lookup_insert_eq. simpl.
  unfold resumeAnimation, bind, set_this, modify. simpl.
  rewrite !alter_after_insert. reflexivity.
Qed.

(** *** Listener wiring *)

Lemma elem_of_removed (x : Listener) (h : string * HandlerKind)
    (names : list string) (ls : list Listener) :
  x ∈ foldl (fun ls name => Helpers.remove_listener (name, h) ls) ls names ->
  x ∈ ls /\ forall name, name ∈ names -> x <> (name, h).
Proof.
  revert ls. induction names as [|a names IH]; intros ls; simpl.
  - intros Hx. split; [exact Hx|]. intros name Hn. inversion Hn.
  - intros Hx. apply IH in Hx as [Hx Hnames].
    apply list_elem_of_filter in Hx as [Hne Hx]. split; [exact Hx|].
    intros name Hn. apply elem_of_cons in Hn as [->|Hn]; [exact Hne|auto].
Qed.

Lemma elem_of_added (x : Listener) (h : string * HandlerKind)
    (names : list string) (ls : list Listener) :
  x ∈ ls \/ (exists name, name ∈ names /\ x = (name, h)) ->
  x ∈ foldl (fun ls name => Helpers.add_listener (name, h) ls) ls names.
Proof.
  revert ls. induction names as [|a names IH]; intros ls; simpl.
  - intros [Hx|(name & Hn & _)]; [exact Hx|inversion Hn].
  - intros Hx. apply IH. unfold Helpers.add_listener.
    destruct Hx as [Hx|(name & Hn & ->)].
    + left. case_decide; [exact Hx|].
      apply elem_of_app. left. exact Hx.
    + apply elem_of_cons in Hn as [->|Hn]; [left|right; eauto].
      case_decide; [assumption|].
      apply elem_of_app. right. apply list_elem_of_singleton. reflexivity.
Qed.

(** After [removeEventListeners] no listener of the instance is left
    under a declared event name. *)
Lemma detach_removes (self : string) (d : Data) (ls : list Listener)
    (name : string) (kind : HandlerKind) :
  name ∈ match kind with
         | OnStartEvent => startEvents d
         | PauseAnimation => pauseEvents d
         | ResumeAnimation => resumeEvents d
         end ->
  (name, (self, kind)) ∉ detach self d ls.
Proof.
  intros Hn Hx. unfold detach in Hx.
  apply elem_of_removed in Hx as [Hx Hr].
  apply elem_of_removed in Hx as [Hx Hp].
  apply elem_of_removed in Hx as [Hx Hs].
  destruct kind; [apply (Hs name Hn)|apply (Hp name Hn)|apply (Hr name Hn)];
    reflexivity.
Qed.

(** After [addEventListeners] every declared event name has its
    listener. *)
Lemma attach_adds (self : string) (d : Data) (ls : list Listener)
    (name : string) (kind : HandlerKind) :
  name ∈ match kind with
         | OnStartEvent => startEvents d
         | PauseAnimation => pauseEvents d
         | ResumeAnimation => resumeEvents d
         end ->
  (name, (self, kind)) ∈ attach self d ls.
Proof.
  intros Hn. unfold attach. destruct kind.
  - apply elem_of_added. left. apply elem_of_added. left.
    apply elem_of_added. right. eauto.
  - apply elem_of_added. left. apply elem_of_added. right. eauto.
  - apply elem_of_added. right. eauto.
Qed.

(** C7 at the failing input: an instance that waits for its start event
    is not running; entity pause detaches its three listeners and play
    attaches them again, but play also sets the running flag, although the
    instance was not running when the entity was paused: [pause] records
    [pausedWasPlaying] as [true] whatever the flag is. *)
Theorem play_resumes_an_instance_that_was_idle :
  let el0 :=
    step Example.host (DoUpdate "animation" triggered_opacity_data)
      (Example.entity [("animation", triggered_opacity_data)]) in
  let el1 := step Example.host (DoPause "animation") el0 in
  let el2 := step Example.host (DoPlay "animation") el1 in
  option_map animationIsPlaying (Example.instance el0 "animation") = Some false /\
  option_map animationIsPlaying (Example.instance el1 "animation") = Some false /\
  option_map pausedWasPlaying (Example.instance el1 "animation") = Some true /\
  listeners el1 = [] /\
  listeners el2 = listeners el0 /\
  option_map animationIsPlaying (Example.instance el2 "animation") = Some true.
Proof. vm_compute. repeat split. Qed.

(** A tick of a running instance without an engine instance adds to the
    time and then throws. *)
Lemma tick_without_handle (H : Host) (self : string) (el : Entity) (i : Instance)
    (t dt : number) :
  components el !! self = Some (Animation i) ->
  animationIsPlaying i = true ->
  animation i = None ->
  tick H self t dt el =
  TypeError
    (with_components
       (<[self := Animation (with_time (time i + dt)%float i)]> (components el)) el).
Proof.
  intros Hi Hrun Hnone. unfold tick. unfold bind at 1.
  rewrite (this_lookup _ _ _ Hi), Hrun. simpl.
  unfold bind at 1. simpl. rewrite (alter_on_instance _ _ _ _ Hi).
  unfold bind at 1. unfold this at 1. simpl. rewrite lookup_insert_eq.
  unfold drive, bind, this. simpl. rewrite lookup_insert_eq. simpl.
  rewrite Hnone. reflexivity.
Qed.

Lemma untouched_step (H : Host) (self : string) (el0 el : Entity) (op : Op) :
  frame_op self op -> untouched self el0 el -> untouched self el0 (step H op el).
Proof.
  intros Hop Hun. destruct Hop as [t dt| |]; simpl.
  - destruct Hun as ((i & Hi & Hnone) & Hw & Ho & He).
    destruct (animationIsPlaying i) eqn:Hrun.
    + rewrite (tick_without_handle H self el i t dt Hi Hrun Hnone). simpl.
      repeat split; try assumption.
      exists (with_time (time i + dt)%float i). simpl.
      rewrite lookup_insert_eq. split; [reflexivity|exact Hnone].
    + rewrite (tick_paused H self el i t dt Hi Hrun). simpl.
      repeat split; try assumption. exists i. split; assumption.
  - revert el Hun. change (preserves (untouched self el0) (pause self)).
    unfold untouched. unfold_methods.
    pres ltac:(destruct_and?; repeat split; try assumption; holds_side).
  - revert el Hun. change (preserves (untouched self el0) (play self)).
    unfold untouched. unfold_methods.
    pres ltac:(destruct_and?; repeat split; try assumption; holds_side).
Qed.

Lemma untouched_run (H : Host) (self : string) (el0 : Entity) (ops : list Op)
    (el : Entity) :
  Forall (frame_op self) ops -> untouched self el0 el ->
  untouched self el0 (run H ops el).
Proof.
  intros Hops. revert el. induction Hops as [|op ops Hop _ IH]; intros el Hun; simpl.
  - exact Hun.
  - apply IH, untouched_step; assumption.
Qed.

(** C3 at the failing input: no [property] is declared, so no engine
    instance is built; after entity pause and play the running flag is set
    all the same, and the next tick adds its delta to the time before it
    fails on the engine instance that is not there. Nothing is written to
    the scene graph. *)
Theorem tick_after_play_advances_without_property :
  let el :=
    run Example.host
      [DoUpdate "animation" default_data; DoPause "animation"; DoPlay "animation"]
      (Example.entity [("animation", default_data)]) in
  property default_data = "" /\
  option_map (fun i => (time i, animation i, animationIsPlaying i))
    (Example.instance el "animation") = Some (zero, None, true) /\
  exists el',
    tick Example.host "animation" zero 16%float el = TypeError el' /\
    option_map (fun i => (time i, animation i)) (Example.instance el' "animation") =
    Some (16%float, None) /\
    writes el' = [].
Proof. split; [|split; [|eexists]]; vm_compute; repeat split. Qed.

(** ** Further properties *)

(** *** Raw property paths (lines 510-553) *)

Lemma cache_coherent_fresh (el : Entity) : splitCache el = ∅ -> cache_coherent el.
Proof. intros He p s Hs. rewrite He, lookup_empty in Hs. discriminate. Qed.

Lemma split_chars_nonempty (cs cur : list ascii) : split_chars cs cur <> [].
Proof.
  revert cur. induction cs as [|c cs IH]; intros cur; simpl; [discriminate|].
  destruct (Ascii.eqb c "."); [discriminate|apply IH].
Qed.

Lemma split_dot_snoc (path : string) :
  split_dot path = (removelast (split_dot path) ++ [List.last (split_dot path) "undefined"])%list.
Proof. apply app_removelast_last, split_chars_nonempty. Qed.

(** [splitDot] returns the split of the path and keeps the cache coherent;
    a second call finds the entry. *)
Lemma splitDot_coherent (path : string) (el : Entity) :
  cache_coherent el ->
  exists c,
    Helpers.splitDot path el = Return (split_dot path) (with_splitCache c el) /\
    c !! path = Some (split_dot path) /\
    cache_coherent (with_splitCache c el).
Proof.
  intros Hc. unfold Helpers.splitDot, bind, get.
  destruct (splitCache el !! path) as [s|] eqn:Hs.
  - exists (splitCache el). pose proof (Hc _ _ Hs) as ->.
    split; [destruct el; reflexivity|]. split; [exact Hs|exact Hc].
  - exists (<[path := split_dot path]> (splitCache el)).
    split; [reflexivity|]. split; [apply lookup_insert_eq|].
    intros p s. simpl. destruct (decide (path = p)) as [->|Hne].
    + rewrite lookup_insert_eq. congruence.
    + rewrite lookup_insert_ne by exact Hne. apply Hc.
Qed.

Lemma splitDot_hit (path : string) (el : Entity) (s : list string) :
  splitCache el !! path = Some s -> Helpers.splitDot path el = Return s el.
Proof. intros Hs. unfold Helpers.splitDot, bind, get. rewrite Hs. reflexivity. Qed.

Lemma walk_app (v : value) (p q : list string) :
  walk v (p ++ q) =
  match walk v p with
  | Some v' => walk v' q
  | None => None
  end.
Proof.
  revert v. induction p as [|k p IH]; intros v; simpl; [reflexivity|].
  destruct (member v k); [apply IH|reflexivity].
Qed.

(** A path that leads to an object leads through objects only. *)
Lemma update_at_walk (v : value) (p : list string) (f : value -> option value)
    (fs : list (string * value)) (w' : value) :
  walk v p = Some (VObj fs) -> f (VObj fs) = Some w' ->
  exists v', update_at v p f = Some v' /\ walk v' p = Some w'.
Proof.
  revert v. induction p as [|k p IH]; intros v Hw Hf; simpl in *.
  - injection Hw as ->. eauto.
  - destruct v as [| |b|n|s|fs0]; simpl in Hw; try discriminate;
      try (destruct p; simpl in Hw; discriminate).
    destruct (IH _ Hw Hf) as (v' & Hu & Hw'). rewrite Hu.
    eexists. split; [reflexivity|]. simpl. rewrite field_set_field_eq. exact Hw'.
Qed.

(** X1: a value stored under a raw path whose container is an object is
    the value that reading the path returns afterwards; the read changes
    nothing, and the store goes past [setComponentProperty]. The path
    has no segment that every object inherits, so that the cache and the
    objects on the way hold it as an own member or not at all. *)
Theorem raw_property_set_then_get (path ty : string) (v : value) (el : Entity)
    (fs : list (string * value)) :
  cache_coherent el ->
  Forall (fun s => inherited_member s = false) (split_dot path) ->
  ty <> TYPE_COLOR ->
  walk (object_tree el) (removelast (split_dot path)) = Some (VObj fs) ->
  exists el1,
    Helpers.setRawProperty path v ty el = Return tt el1 /\
    Helpers.getRawProperty path el1 = Return v el1 /\
    writes el1 = writes el.
Proof.
  intros Hc _ Hty Hw.
  destruct (splitDot_coherent path el Hc) as (c & Hs & Hp & Hc').
  pose (w' := VObj (set_field (List.last (split_dot path) "undefined") v fs)).
  destruct (update_at_walk (object_tree el) (removelast (split_dot path))
              (Helpers.assign_raw (List.last (split_dot path) "undefined") v ty)
              fs w' Hw) as (tree & Hu & Hw').
  { unfold Helpers.assign_raw. destruct (String.eqb_spec ty TYPE_COLOR); [contradiction|].
    reflexivity. }
  exists (with_object_tree tree (with_splitCache c el)). split; [|split].
  - unfold Helpers.setRawProperty, bind at 1. rewrite Hs. unfold bind, get. simpl.
    rewrite Hu. reflexivity.
  - unfold Helpers.getRawProperty, bind at 1.
    rewrite (splitDot_hit path _ (split_dot path)) by exact Hp.
    unfold bind, get. simpl. rewrite split_dot_snoc, walk_app, Hw'. simpl.
    unfold w'. rewrite field_set_field_eq. reflexivity.
  - repeat split.
Qed.

Lemma raw_property_set_then_get_witness :
  exists el1,
    Helpers.setRawProperty "object3D.position.x" (VNum one) "" (raw_entity []) =
    Return tt el1 /\
    Helpers.getRawProperty "object3D.position.x" el1 = Return (VNum one) el1.
Proof.
  destruct (raw_property_set_then_get "object3D.position.x" "" (VNum one) (raw_entity [])
              [("x", VNum zero); ("y", VNum zero); ("z", VNum zero)])
    as (el1 & Hset & Hget & _).
  - apply cache_coherent_fresh. reflexivity.
  - apply (bool_decide_unpack _); vm_compute; exact I.
  - discriminate.
  - reflexivity.
  - exists el1. split; assumption.
Defined.

Lemma walk_snoc_object (v : value) (p : list string) (k : string)
    (dest : list (string * value)) :
  walk v (p ++ [k]) = Some (VObj dest) ->
  exists fs, walk v p = Some (VObj fs) /\ field k fs = VObj dest.
Proof.
  rewrite walk_app. destruct (walk v p) as [w|]; [|discriminate]. simpl.
  destruct w as [| |b|n|s|fs]; simpl; try discriminate.
  intros [= Hf]. exists fs. split; [reflexivity|exact Hf].
Qed.

(** X2: a colour stored under a raw path is copied channel by channel
    into the object that is there, under [r], [g], [b] when that object
    has an [r] and under [x], [y], [z] otherwise; the object keeps its
    other members. The path has no segment that every object inherits. *)
Theorem raw_colour_copied_into_destination (path : string) (el : Entity)
    (dest vfs : list (string * value)) :
  cache_coherent el ->
  Forall (fun s => inherited_member s = false) (split_dot path) ->
  walk (object_tree el) (split_dot path) = Some (VObj dest) ->
  let '(kr, kg, kb) :=
    if has_field "r" dest then ("r", "g", "b") else ("x", "y", "z") in
  exists el1 dest',
    Helpers.setRawProperty path (VObj vfs) TYPE_COLOR el = Return tt el1 /\
    Helpers.getRawProperty path el1 = Return (VObj dest') el1 /\
    field kr dest' = field "r" vfs /\
    field kg dest' = field "g" vfs /\
    field kb dest' = field "b" vfs /\
    (forall k, k <> kr -> k <> kg -> k <> kb -> field k dest' = field k dest) /\
    writes el1 = writes el.
Proof.
  intros Hc _ Hw.
  destruct (splitDot_coherent path el Hc) as (c & Hs & Hp & Hc').
  rewrite split_dot_snoc in Hw. apply walk_snoc_object in Hw as (fs & Hw & Hdest).
  set (last := List.last (split_dot path) "undefined") in *.
  set (dest' :=
         if has_field "r" dest
         then set_field "b" (field "b" vfs)
                (set_field "g" (field "g" vfs) (set_field "r" (field "r" vfs) dest))
         else set_field "z" (field "b" vfs)
                (set_field "y" (field "g" vfs) (set_field "x" (field "r" vfs) dest))).
  destruct (update_at_walk (object_tree el) (removelast (split_dot path))
              (Helpers.assign_raw last (VObj vfs) TYPE_COLOR)
              fs (VObj (set_field last (VObj dest') fs)) Hw) as (tree & Hu & Hw').
  { unfold Helpers.assign_raw. simpl. rewrite Hdest. reflexivity. }
  assert (Hset : Helpers.setRawProperty path (VObj vfs) TYPE_COLOR el =
                 Return tt (with_object_tree tree (with_splitCache c el))).
  { unfold Helpers.setRawProperty, bind at 1. rewrite Hs. unfold bind, get. simpl.
    fold last. rewrite Hu. reflexivity. }
  assert (Hget : Helpers.getRawProperty path (with_object_tree tree (with_splitCache c el)) =
                 Return (VObj dest') (with_object_tree tree (with_splitCache c el))).
  { unfold Helpers.getRawProperty, bind at 1.
    rewrite (splitDot_hit path _ (split_dot path)) by exact Hp.
    unfold bind, get. simpl. rewrite split_dot_snoc, walk_app, Hw'. simpl.
    fold last. rewrite field_set_field_eq. reflexivity. }
  unfold dest' in *. clear dest'.
  destruct (has_field "r" dest); do 2 eexists;
    (split; [exact Hset|]); (split; [exact Hget|]);
    repeat split;
    try (intros k ? ? ?);
    repeat first [ rewrite field_set_field_eq | rewrite field_set_field_ne by congruence ];
    reflexivity.
Qed.

Lemma raw_colour_copied_into_destination_witness :
  exists el1 dest',
    Helpers.setRawProperty "components.material.material.color"
      (VObj [("r", VNum zero); ("g", VNum zero); ("b", VNum one)]) TYPE_COLOR
      (raw_entity []) = Return tt el1 /\
    Helpers.getRawProperty "components.material.material.color" el1 =
    Return (VObj dest') el1 /\
    field "r" dest' = VNum zero.
Proof.
  destruct (raw_colour_copied_into_destination "components.material.material.color"
              (raw_entity []) [("r", VNum one); ("g", VNum one); ("b", VNum one)]
              [("r", VNum zero); ("g", VNum zero); ("b", VNum one)])
    as (el1 & dest' & Hset & Hget & Hr & _).
  - apply cache_coherent_fresh. reflexivity.
  - apply (bool_decide_unpack _); vm_compute; exact I.
  - reflexivity.
  - exists el1, dest'. repeat split; assumption.
Defined.

(** *** The split cache stays coherent *)

Lemma splitDot_keeps_coherent (path : string) :
  preserves cache_coherent (Helpers.splitDot path).
Proof.
  intros el Hc. destruct (splitDot_coherent path el Hc) as (c & -> & _ & Hc').
  exact Hc'.
Qed.

Ltac coherent_side := unfold cache_coherent in *; simpl; assumption.

Lemma fire_all_coherent (s : string) (cbs : list Callback) :
  preserves cache_coherent (fire_all s cbs).
Proof.
  induction cbs as [|cb cbs IH]; simpl.
  - apply preserves_ret.
  - apply preserves_bind; [|intros _; exact IH].
    destruct cb;
      unfold fire, complete, emit, run_update, set_updater, setComponentProperty,
        object3D_set, Helpers.setRawProperty, Helpers.getRawProperty;
      pres_with ltac:(apply splitDot_keeps_coherent) coherent_side.
Qed.

Lemma method_coherent (H : Host) (s : string) (t dt : number)
    (op : Entity -> outcome unit) :
  In op [update H s; tick H s t dt; remove s; pause s; play s;
         onStartEvent H s; beginAnimation H s; pauseAnimation s;
         resumeAnimation s] ->
  preserves cache_coherent op.
Proof.
  pose proof (fire_all_coherent s) as Hfire.
  simpl. intros Hop.
  decompose [or] Hop; try contradiction; subst op;
    unfold_methods; unfold emit;
    pres_with ltac:(first [apply Hfire|apply splitDot_keeps_coherent]) coherent_side.
Qed.

Lemma dispatch_coherent (H : Host) (name : string) (ls : list Listener) (el : Entity) :
  cache_coherent el -> cache_coherent (dispatch H name ls el).
Proof.
  revert el. induction ls as [|[n [s kind]] ls IH]; intros el Hel; simpl.
  - exact Hel.
  - apply IH. destruct (String.eqb n name); [|exact Hel].
    unfold handler. simpl.
    destruct kind; apply (method_coherent H s zero zero); simpl; auto 10.
Qed.

Lemma step_coherent (H : Host) (op : Op) (el : Entity) :
  cache_coherent el -> cache_coherent (step H op el).
Proof.
  intros Hel. destruct op as [s d|s t dt|s|s|s|name|n]; simpl.
  - revert el Hel. apply preserves_bind.
    + apply preserves_modify. intros el Hel. coherent_side.
    + intros _. apply (method_coherent H s zero zero). simpl; auto 10.
  - apply (method_coherent H s t dt); [simpl; auto 10|exact Hel].
  - apply (method_coherent H s zero zero); [simpl; auto 10|exact Hel].
  - apply (method_coherent H s zero zero); [simpl; auto 10|exact Hel].
  - apply (method_coherent H s zero zero); [simpl; auto 10|exact Hel].
  - apply dispatch_coherent, Hel.
  - destruct (timers el !! n) as [[s d]|]; [|exact Hel].
    apply (method_coherent H s zero zero); [simpl; auto 10|exact Hel].
Qed.

Lemma run_coherent (H : Host) (ops : list Op) (el : Entity) :
  cache_coherent el -> cache_coherent (run H ops el).
Proof.
  revert el. induction ops as [|op ops IH]; intros el Hel; simpl.
  - exact Hel.
  - apply IH, step_coherent, Hel.
Qed.

(** *** Listeners (lines 429-443 and 496-508) *)

Lemma elem_of_removed_iff (x : Listener) (h : string * HandlerKind)
    (names : list string) (ls : list Listener) :
  x ∈ foldl (fun ls name => Helpers.remove_listener (name, h) ls) ls names <->
  x ∈ ls /\ x ∉ map (fun name => (name, h)) names.
Proof.
  revert ls. induction names as [|n names IH]; intros ls; simpl.
  - split; [intros Hx; split; [exact Hx|apply not_elem_of_nil]|tauto].
  - rewrite IH. unfold Helpers.remove_listener. rewrite list_elem_of_filter, not_elem_of_cons.
    tauto.
Qed.

Lemma elem_of_added_iff (x : Listener) (h : string * HandlerKind)
    (names : list string) (ls : list Listener) :
  x ∈ foldl (fun ls name => Helpers.add_listener (name, h) ls) ls names <->
  x ∈ ls \/ x ∈ map (fun name => (name, h)) names.
Proof.
  revert ls. induction names as [|n names IH]; intros ls; simpl.
  - rewrite elem_of_nil. tauto.
  - rewrite IH, elem_of_cons. unfold Helpers.add_listener. case_decide.
    + split; [tauto|]. intros [Hx|[->|Hx]]; auto.
    + rewrite elem_of_app, list_elem_of_singleton. tauto.
Qed.

Lemma elem_of_detach (x : Listener) (self : string) (d : Data) (ls : list Listener) :
  x ∈ detach self d ls <-> x ∈ ls /\ x ∉ declared self d.
Proof.
  unfold detach, declared. rewrite !elem_of_removed_iff, !elem_of_app. tauto.
Qed.

Lemma elem_of_attach (x : Listener) (self : string) (d : Data) (ls : list Listener) :
  x ∈ attach self d ls <-> x ∈ ls \/ x ∈ declared self d.
Proof.
  unfold attach, declared. rewrite !elem_of_added_iff, !elem_of_app. tauto.
Qed.

Lemma every_alter (Q : Instance -> Prop) (k self : string)
    (f : Instance -> Instance) (m : gmap string Component) :
  (forall i, Q i -> Q (f i)) ->
  every Q k m -> every Q k (alter (on_instance f) self m).
Proof.
  intros Hf Hm i. destruct (decide (self = k)) as [->|Hne].
  - intros Hi. apply lookup_on_instance in Hi as (j & Hj & ->). auto.
  - rewrite lookup_alter_ne by exact Hne. apply Hm.
Qed.

Lemma every_stop_related (Q : Instance -> Prop) (k self p : string)
    (m : gmap string Component) :
  (forall i, Q i -> Q (with_animationIsPlaying false i)) ->
  every Q k m ->
  every Q k (map_imap (fun k c => Some (stop_related self p k c)) m).
Proof.
  intros Hf Hm i. rewrite map_lookup_imap.
  destruct (m !! k) as [c|] eqn:Hc; simpl; [|discriminate].
  unfold stop_related. destruct (String.eqb k self); [intros [= ->]; auto|].
  destruct c as [j|s]; [|discriminate].
  destruct (negb _); intros [= <-]; auto.
Qed.

Ltac every_side :=
  first
    [ assumption
    | apply every_alter; [inst_side|assumption]
    | apply every_stop_related; [inst_side|assumption] ].

(** A rule for a method that starts by reading [this]. *)
Lemma preserves_this_bind {B} (P : Entity -> Prop) (self : string)
    (k : Instance -> M B) :
  (forall i el, components el !! self = Some (Animation i) -> P el -> P (final (k i el))) ->
  preserves P (bind (this self) k).
Proof.
  intros Hk el HP. unfold bind, this.
  destruct (components el !! self) as [[i|s]|] eqn:Hi; simpl; auto.
Qed.

Ltac attached_side := unfold attached in *; simpl; assumption.

Lemma fire_all_attached (l : Listener) (s : string) (cbs : list Callback) :
  preserves (attached l) (fire_all s cbs).
Proof.
  induction cbs as [|cb cbs IH]; simpl.
  - apply preserves_ret.
  - apply preserves_bind; [|intros _; exact IH].
    destruct cb; unfold_callbacks; pres attached_side.
Qed.

(** Lines 163-164: detaching and attaching again, under the same data,
    loses no listener. *)
Lemma rewire_attached {B} (l : Listener) (self : string) (k : M B) :
  preserves (attached l) k ->
  preserves (attached l) (removeEventListeners self;; addEventListeners self;; k).
Proof.
  intros Hk el Hl. destruct (components el !! self) as [c|] eqn:Hc;
    [destruct c as [i|sch]|].
  - unfold bind at 1. rewrite (removeEventListeners_lookup self el i Hc).
    unfold bind at 1.
    erewrite addEventListeners_lookup by (simpl; exact Hc).
    apply Hk. unfold attached. simpl. apply elem_of_attach.
    destruct (decide (l ∈ declared self (data i))) as [Hd|Hd]; [right; exact Hd|].
    left. apply elem_of_detach. split; assumption.
  - unfold removeEventListeners, bind, this. rewrite Hc. exact Hl.
  - unfold removeEventListeners, bind, this. rewrite Hc. exact Hl.
Qed.

(** X3: an update detaches no listener. Every handler that was attached
    before is attached after, whether the update returns or throws: the
    handlers of other instances, and the handlers of this instance under
    the event names of its earlier configuration, which the new
    configuration no longer declares. *)
Theorem update_never_detaches
    (H : Host) (self : string) (d : Data) (el : Entity) (l : Listener) :
  l ∈ listeners el ->
  l ∈ listeners (step H (DoUpdate self d) el).
Proof.
  intros Hin.
  pose proof (fire_all_attached l self) as Hfire.
  assert (Hcfg : preserves (attached l) (updateConfig H self)).
  { unfold_methods; unfold_callbacks; pres attached_side. }
  assert (Hup : preserves (attached l) (set_this self (with_data d);; update H self)).
  { apply preserves_bind; [apply preserves_modify; intros ? ?; attached_side|].
    intros _. unfold update. apply preserves_bind; [apply preserves_this|]. intros i.
    apply preserves_bind; [apply preserves_modify; intros ? ?; attached_side|].
    intros _. destruct (String.eqb _ _); [apply preserves_ret|].
    apply preserves_bind; [apply preserves_modify; intros ? ?; attached_side|].
    intros _. unfold createAndStartAnimation.
    apply preserves_bind; [apply preserves_this|]. intros i'.
    apply preserves_bind; [exact Hcfg|]. intros _.
    apply preserves_bind; [apply preserves_modify; intros ? ?; attached_side|]. intros _.
    apply preserves_bind; [apply preserves_modify; intros ? ?; attached_side|]. intros _.
    apply rewire_attached.
    unfold_methods; unfold_callbacks; pres_with ltac:(apply Hfire) attached_side. }
  exact (Hup el Hin).
Qed.

Lemma update_never_detaches_witness :
  ("go", ("animation", OnStartEvent)) ∈
  listeners
    (step Example.host (DoUpdate "animation" start_opacity_data)
       (step Example.host (DoUpdate "animation" go_opacity_data)
          (Example.entity [("animation", go_opacity_data)]))).
Proof.
  apply update_never_detaches.
  apply (bool_decide_unpack _); vm_compute; exact I.
Defined.

Lemma holds_alter_ne (Q : Instance -> Prop) (k s : string)
    (f : Component -> Component) (m : gmap string Component) :
  s <> k -> holds Q k m -> holds Q k (alter f s m).
Proof.
  intros Hne (i & Hi & HQ). exists i. rewrite lookup_alter_ne by exact Hne.
  split; assumption.
Qed.

Ltac disc_side :=
  lazymatch goal with
  | Hd : disconnected _ _ |- _ =>
      unfold disconnected in *; destruct Hd as (?&?&?)
  end;
  split; [|split]; simpl;
  [ assumption
  | assumption
  | first
      [ assumption
      | apply holds_alter_ne; assumption
      | apply holds_stop_related; [inst_side|assumption] ] ].

Lemma fire_all_disconnected (self s : string) (cbs : list Callback) :
  s <> self -> preserves (disconnected self) (fire_all s cbs).
Proof.
  intros Hne. induction cbs as [|cb cbs IH]; simpl.
  - apply preserves_ret.
  - apply preserves_bind; [|intros _; exact IH].
    destruct cb; unfold_callbacks; pres disc_side.
Qed.

Lemma add_disconnected (self s : string) (kind : HandlerKind) (names : list string) :
  s <> self ->
  preserves (disconnected self) (Helpers.addEventListeners names (s, kind)).
Proof.
  intros Hne el (Hl & Ht & Hi). split; [|split]; simpl; [|assumption..].
  intros l. rewrite elem_of_added_iff, list_elem_of_fmap.
  intros [Hin|(n & -> & _)]; [auto|exact Hne].
Qed.

Lemma remove_disconnected (self : string) (h : string * HandlerKind)
    (names : list string) :
  preserves (disconnected self) (Helpers.removeEventListeners names h).
Proof.
  intros el (Hl & Ht & Hi). split; [|split]; simpl; [|assumption..].
  intros l. rewrite elem_of_removed_iff. intros [Hin _]. auto.
Qed.

Lemma timeout_disconnected (self s : string) (d : number) :
  s <> self -> preserves (disconnected self) (setTimeout_beginAnimation s d).
Proof.
  intros Hne el (Hl & Ht & Hi). split; [|split]; simpl; [assumption| |assumption].
  intros x. rewrite elem_of_app, list_elem_of_singleton. intros [Hin| ->]; [auto|exact Hne].
Qed.

Lemma method_disconnected (H : Host) (self s : string) (t dt : number)
    (op : Entity -> outcome unit) :
  s <> self ->
  In op [update H s; tick H s t dt; remove s; pause s; play s;
         onStartEvent H s; beginAnimation H s; pauseAnimation s;
         resumeAnimation s] ->
  preserves (disconnected self) op.
Proof.
  intros Hne Hop.
  pose proof (fire_all_disconnected self s) as Hfire.
  pose proof (fun kind names => add_disconnected self s kind names Hne) as Hadd.
  pose proof (remove_disconnected self) as Hrem.
  pose proof (fun d => timeout_disconnected self s d Hne) as Htime.
  simpl in Hop. decompose [or] Hop; try contradiction; subst op;
    unfold update, tick, remove, pause, play, onStartEvent,
      createAndStartAnimation, beginAnimation, stopRelatedAnimations,
      updateConfig, updateConfigForRawColor, updateConfigForDefault, default_from,
      updateConfigForVector, setColorConfig, addEventListeners, removeEventListeners,
      drive, pauseAnimation, resumeAnimation, Helpers.getRawProperty;
    unfold_callbacks;
    pres_with ltac:(first [apply Hfire; exact Hne|apply Hadd|apply Hrem|apply Htime])
      disc_side.
Qed.

Lemma dispatch_disconnected (H : Host) (self name : string) (ls : list Listener)
    (el : Entity) :
  Forall (fun l => fst (snd l) <> self) ls ->
  disconnected self el -> disconnected self (dispatch H name ls el).
Proof.
  revert el. induction ls as [|[n [s kind]] ls IH]; intros el Hls Hel; simpl.
  - exact Hel.
  - inversion Hls as [|? ? Hs Hls']; subst. simpl in Hs. apply IH; [exact Hls'|].
    destruct (String.eqb n name); [|exact Hel].
    unfold handler. simpl.
    destruct kind; apply (method_disconnected H self s zero zero); simpl; auto 10.
Qed.

Lemma step_disconnected (H : Host) (self : string) (op : Op) (el : Entity) :
  foreign_op self op -> disconnected self el -> disconnected self (step H op el).
Proof.
  intros Hop Hel. destruct Hop as [s d Hne|s t dt Hne|s Hne|s Hne|s Hne|name|n]; simpl.
  - revert el Hel. apply preserves_bind.
    + apply preserves_modify. intros el Hel. disc_side.
    + intros _. apply (method_disconnected H self s zero zero); simpl; auto 10.
  - apply (method_disconnected H self s t dt); [exact Hne|simpl; auto 10|exact Hel].
  - apply (method_disconnected H self s zero zero); [exact Hne|simpl; auto 10|exact Hel].
  - apply (method_disconnected H self s zero zero); [exact Hne|simpl; auto 10|exact Hel].
  - apply (method_disconnected H self s zero zero); [exact Hne|simpl; auto 10|exact Hel].
  - apply dispatch_disconnected; [|exact Hel].
    apply Forall_forall. intros l Hl. destruct Hel as (Hls & _). auto.
  - destruct (timers el !! n) as [[s d]|] eqn:Hn; [|exact Hel].
    destruct Hel as (Hls & Ht & Hi).
    assert (Hne : s <> self).
    { apply (Ht (s, d)). eapply list_elem_of_lookup_2. exact Hn. }
    apply (method_disconnected H self s zero zero); [exact Hne|simpl; auto 10|].
    split; [|split]; simpl; [assumption| |assumption].
    intros x Hx. apply Ht. eapply list_elem_of_delete_inv, Hx.
Qed.

(** X4: once an instance is removed, nothing but a later call on the
    instance itself sets it running again, provided that no handler of an
    earlier configuration and no delayed begin of it was left on the
    entity: events, timers and the calls on other instances leave it
    stopped, with no listener and no timer of its own. *)
Theorem removed_instance_stays_stopped
    (H : Host) (self : string) (el : Entity) (i : Instance) (ops : list Op) :
  components el !! self = Some (Animation i) ->
  Forall (fun l => fst (snd l) = self -> l ∈ declared self (data i)) (listeners el) ->
  Forall (fun x => fst x <> self) (timers el) ->
  Forall (foreign_op self) ops ->
  disconnected self (run H ops (step H (DoRemove self) el)).
Proof.
  intros Hi Hls Hts Hops.
  assert (Hrem : disconnected self (step H (DoRemove self) el)).
  { simpl. unfold remove, bind at 1, pauseAnimation, set_this, modify.
    erewrite removeEventListeners_lookup
      by (simpl; rewrite lookup_alter_eq, Hi; reflexivity).
    split; [|split]; simpl.
    - intros l. rewrite elem_of_detach. intros [Hin Hnd] Hs. apply Hnd.
      rewrite Forall_forall in Hls. auto.
    - rewrite Forall_forall in Hts. exact Hts.
    - eexists. rewrite lookup_alter_eq, Hi. simpl. split; reflexivity. }
  revert Hrem. generalize (step H (DoRemove self) el). clear Hi Hls Hts.
  induction Hops as [|op ops Hop Hops IH]; intros el' Hel'; simpl.
  - exact Hel'.
  - apply IH, step_disconnected; assumption.
Qed.

Lemma removed_instance_stays_stopped_witness :
  disconnected "animation"
    (run Example.host [DoEvent "go"; DoEvent "again"; DoTick "other" zero 16%float]
       (step Example.host (DoRemove "animation")
          (step Example.host (DoUpdate "animation" triggered_opacity_data)
             (Example.entity [("animation", triggered_opacity_data)])))).
Proof.
  apply (removed_instance_stays_stopped Example.host "animation" _
           (the_instance
              (step Example.host (DoUpdate "animation" triggered_opacity_data)
                 (Example.entity [("animation", triggered_opacity_data)]))
              "animation")).
  - vm_compute. reflexivity.
  - apply (bool_decide_unpack _); vm_compute; exact I.
  - apply (bool_decide_unpack _); vm_compute; exact I.
  - repeat constructor. discriminate.
Defined.

(** *** Delayed begins (lines 166-170 and 205-208) *)

Ltac timers_side :=
  idtac;
  lazymatch goal with
  | Ht : timers_extend _ _ |- _ =>
      unfold timers_extend in *; destruct Ht as [? Ht]; simpl;
      first
        [ eexists; exact Ht
        | eexists; rewrite Ht, <- app_assoc; reflexivity ]
  end.

Lemma fire_all_timers (ts : list (string * number)) (s : string) (cbs : list Callback) :
  preserves (timers_extend ts) (fire_all s cbs).
Proof.
  induction cbs as [|cb cbs IH]; simpl.
  - apply preserves_ret.
  - apply preserves_bind; [|intros _; exact IH].
    destruct cb; unfold_callbacks; pres timers_side.
Qed.

Lemma method_timers (H : Host) (ts : list (string * number)) (s : string)
    (t dt : number) (op : Entity -> outcome unit) :
  In op [update H s; tick H s t dt; remove s; pause s; play s;
         onStartEvent H s; beginAnimation H s; pauseAnimation s;
         resumeAnimation s] ->
  preserves (timers_extend ts) op.
Proof.
  pose proof (fire_all_timers ts s) as Hfire.
  simpl. intros Hop.
  decompose [or] Hop; try contradiction; subst op;
    unfold_methods; unfold_callbacks;
    pres_with ltac:(apply Hfire) timers_side.
Qed.

Lemma dispatch_timers (H : Host) (ts : list (string * number)) (name : string)
    (ls : list Listener) (el : Entity) :
  timers_extend ts el -> timers_extend ts (dispatch H name ls el).
Proof.
  revert el. induction ls as [|[n [s kind]] ls IH]; intros el Hel; simpl.
  - exact Hel.
  - apply IH. destruct (String.eqb n name); [|exact Hel].
    unfold handler. simpl.
    destruct kind; apply (method_timers H ts s zero zero); simpl; auto 10.
Qed.

Lemma delete_out_of_range {A} (l : list A) (n : nat) :
  l !! n = None -> delete n l = l.
Proof.
  revert n. induction l as [|x l IH]; intros [|n]; simpl; try reflexivity.
  - discriminate.
  - intros Hn. f_equal. apply IH, Hn.
Qed.

Lemma timers_extend_refl (el : Entity) : timers_extend (timers el) el.
Proof. exists []. symmetry. apply app_nil_r. Qed.

(** X5: no call cancels a delayed begin. Update, tick, remove, entity
    pause and play and the event handlers leave every armed timer in
    place and at most arm more; a firing timer takes away itself only. *)
Theorem delayed_begins_never_cancelled (H : Host) (op : Op) (el : Entity) :
  exists new,
    timers (step H op el) =
    (match op with
     | DoTimer n => delete n (timers el)
     | _ => timers el
     end ++ new)%list.
Proof.
  destruct op as [s d|s t dt|s|s|s|name|n]; simpl.
  - change (timers_extend (timers el)
              (final ((set_this s (with_data d);; update H s) el))).
    apply preserves_bind; [|intros _|apply timers_extend_refl].
    + apply preserves_modify. intros ? ?. timers_side.
    + apply (method_timers H _ s zero zero). simpl; auto 10.
  - apply (method_timers H _ s t dt); [simpl; auto 10|apply timers_extend_refl].
  - apply (method_timers H _ s zero zero); [simpl; auto 10|apply timers_extend_refl].
  - apply (method_timers H _ s zero zero); [simpl; auto 10|apply timers_extend_refl].
  - apply (method_timers H _ s zero zero); [simpl; auto 10|apply timers_extend_refl].
  - apply dispatch_timers, timers_extend_refl.
  - destruct (timers el !! n) as [[s d]|] eqn:Hn.
    + apply (method_timers H _ s zero zero); [simpl; auto 10|].
      exists []. simpl. symmetry. apply app_nil_r.
    + exists []. rewrite app_nil_r. symmetry. apply delete_out_of_range, Hn.
Qed.



(** *** The engine's callbacks (lines 93-98 and the [config.update] closures) *)

Lemma fire_all_app (self : string) (cbs1 cbs2 : list Callback) (el : Entity) :
  fire_all self (cbs1 ++ cbs2) el = (fire_all self cbs1;; fire_all self cbs2) el.
Proof.
  revert el. induction cbs1 as [|cb cbs1 IH]; intros el; simpl.
  - reflexivity.
  - unfold bind in *. destruct (fire self cb el) as [[] el1|el1]; [|reflexivity].
    apply IH.
Qed.

(** X7: when the engine's last callback of a tick is the completion
    callback, no handler listens for [animationcomplete] and the
    engine's updater can reach no animation instance (it writes along no
    raw path and to no property of an animation component), the tick
    leaves the instance
    stopped at the advanced time with [animationcomplete] as the latest
    notification, and the ticks that follow do nothing. *)
Theorem completed_animation_stops
    (H : Host) (self : string) (el el' : Entity) (i : Instance) (an : Anim)
    (t dt : number) (cbs : list Callback) :
  components el !! self = Some (Animation i) ->
  animationIsPlaying i = true ->
  animation i = Some an ->
  engine H an (Tick (time i + dt)%float) = (cbs ++ [OnComplete])%list ->
  heard "animationcomplete" el = false ->
  engine_reaches_instances self el = false ->
  tick H self t dt el = Return tt el' ->
  exists i' before,
    components el' !! self = Some (Animation i') /\
    animationIsPlaying i' = false /\
    time i' = (time i + dt)%float /\
    emitted el' = (before ++ [("animationcomplete", eventDetail i)])%list /\
    forall t2 dt2, tick H self t2 dt2 el' = Return tt el'.
Proof.
  intros Hi Hrun Han Hcbs _ _ Htick.
  rewrite (tick_running H self el i an t dt Hi Hrun Han), Hcbs, fire_all_app in Htick.
  bind_inv Htick as el1 Hfire. simpl in Htick.
  bind_inv Htick as el2 Hdone. injection Htick as <-.
  lazymatch type of Hfire with
  | fire_all _ _ ?e = _ =>
      pose proof (preserves_Return _ _ _ _ _
                    (fire_all_frame H self e
                       (with_animation (Some (driven (Tick (time i + dt)%float) an))
                          (with_time (time i + dt)%float i)) cbs)
                    (callback_frame_refl self e _ (lookup_insert_eq _ _ _)) Hfire)
        as (_ & _ & _ & i1 & Hi1 & Hd & He & Ht & _)
  end.
  simpl in Hd, He, Ht.
  unfold complete, bind at 1, set_this, modify in Hdone.
  unfold emit, bind, this in Hdone. simpl in Hdone.
  rewrite lookup_alter_eq, Hi1 in Hdone. simpl in Hdone. injection Hdone as _ <-.
  exists (with_animationIsPlaying false i1), (emitted el1). simpl.
  rewrite lookup_alter_eq, Hi1. simpl. rewrite He.
  repeat split; try assumption.
  intros t2 dt2. apply (tick_paused H self _ (with_animationIsPlaying false i1)).
  - simpl. rewrite lookup_alter_eq, Hi1. reflexivity.
  - reflexivity.
Qed.

Lemma completed_animation_stops_witness :
  exists i',
    components
      (final (tick arriving_host "animation" 16%float 1000%float
                arriving_opacity_animation))
      !! "animation" = Some (Animation i') /\
    animationIsPlaying i' = false /\
    time i' = 1016%float /\
    writes
      (final (tick arriving_host "animation" 16%float 1000%float
                arriving_opacity_animation)) =
    [SetComponentProperty "material.opacity" (VNum zero)].
Proof.
  destruct (completed_animation_stops arriving_host "animation"
              arriving_opacity_animation
              (final (tick arriving_host "animation" 16%float 1000%float
                        arriving_opacity_animation))
              (the_instance arriving_opacity_animation "animation")
              (the_handle (the_instance arriving_opacity_animation "animation"))
              16%float 1000%float
              [OnUpdate
                 (arrived (the_handle (the_instance arriving_opacity_animation
                                         "animation")))])
    as (i' & before & Hi' & Hflag & Htime & _).
  - vm_compute. reflexivity.
  - vm_compute. reflexivity.
  - vm_compute. reflexivity.
  - vm_compute. reflexivity.
  - vm_compute. reflexivity.
  - vm_compute. reflexivity.
  - vm_compute. reflexivity.
  - exists i'. split; [exact Hi'|]. split; [exact Hflag|].
    split; [rewrite Htime; vm_compute; reflexivity|]. vm_compute. reflexivity.
Defined.

Lemma setRawProperty_components (path ty : string) (v : value)
    (c : gmap string Component) :
  preserves (components_are c) (Helpers.setRawProperty path v ty).
Proof.
  unfold_callbacks.
  pres ltac:(unfold components_are in *; simpl; assumption).
Qed.

(** X8: the default updater passes a value on at most once in a row: a
    callback that delivers the value of the callback before it changes
    nothing. *)
Theorem default_updater_skips_repeated_value
    (self : string) (el el1 : Entity) (i : Instance) (a : Anim)
    (lastValue v : value) (isBoolean : bool) (d : Data) (anim : AnimArg) :
  components el !! self = Some (Animation i) ->
  animation i = Some a ->
  anim_update a = Some (DefaultUpdater lastValue isBoolean d) ->
  member (animatables0_target anim) "aframeProperty" = Some v ->
  strict_eq v v = true ->
  fire self (OnUpdate anim) el = Return tt el1 ->
  fire self (OnUpdate anim) el1 = Return tt el1.
Proof.
  intros Hi Ha Hu Hv Hvv Hfire.
  assert (Hskip : forall el2 i2 a2 lv,
             components el2 !! self = Some (Animation i2) ->
             animation i2 = Some a2 ->
             anim_update a2 = Some (DefaultUpdater lv isBoolean d) ->
             strict_eq v lv = true ->
             fire self (OnUpdate anim) el2 = Return tt el2).
  { intros el2 i2 a2 lv Hi2 Ha2 Hu2 Hlv. unfold fire, bind at 1.
    rewrite (this_lookup self el2 i2 Hi2), Ha2. destruct a2; simpl in Hu2. subst.
    simpl. unfold bind. rewrite Hv. simpl. rewrite Hlv. reflexivity. }
  destruct (strict_eq v lastValue) eqn:Hlv.
  - rewrite (Hskip el i a lastValue Hi Ha Hu Hlv) in Hfire. injection Hfire as <-.
    exact (Hskip el i a lastValue Hi Ha Hu Hlv).
  - unfold fire, bind at 1 in Hfire.
    rewrite (this_lookup self el i Hi), Ha in Hfire. destruct a; simpl in Hu. subst.
    simpl in Hfire. unfold bind at 1 in Hfire. rewrite Hv in Hfire. simpl in Hfire.
    rewrite Hlv in Hfire. unfold bind at 1, set_updater, set_this, modify in Hfire.
    lazymatch type of Hfire with
    | _ ?e = _ =>
        assert (Hc : components el1 = components e);
        [|apply (Hskip el1
                   (with_animation
                      (Some {| anim_settings := anim_settings0;
                               anim_targets := anim_targets0;
                               anim_update := Some (DefaultUpdater v isBoolean d);
                               anim_driven := anim_driven0 |}) i)
                   {| anim_settings := anim_settings0;
                      anim_targets := anim_targets0;
                      anim_update := Some (DefaultUpdater v isBoolean d);
                      anim_driven := anim_driven0 |} v)]
    end.
    + destruct (Helpers.isRawProperty d).
      * exact (preserves_Return _ _ _ _ _ (setRawProperty_components _ _ _ _)
                 eq_refl Hfire).
      * injection Hfire as <-. reflexivity.
    + rewrite Hc. simpl. rewrite lookup_alter_eq, Hi. simpl. rewrite Ha. reflexivity.
    + reflexivity.
    + reflexivity.
    + exact Hvv.
Qed.

Lemma default_updater_skips_repeated_value_witness :
  let anim :=
    {| animatables0_target := VObj [("aframeProperty", VNum 0.5%float)];
       animations0_target := VUndefined |} in
  let el1 := final (fire "animation" (OnUpdate anim) running_opacity_animation) in
  writes el1 = [SetComponentProperty "material.opacity" (VNum 0.5%float)] /\
  fire "animation" (OnUpdate anim) el1 = Return tt el1.
Proof.
  split; [vm_compute; reflexivity|].
  apply (default_updater_skips_repeated_value "animation" running_opacity_animation _
           (the_instance running_opacity_animation "animation")
           (the_handle (the_instance running_opacity_animation "animation"))
           (VNum one) (VNum 0.5%float) false opacity_data);
    vm_compute; reflexivity.
Defined.

Lemma colour_closure_run (self : string) (lv : Triple) (d : Data) (anim : AnimArg) :
  preserves (holds_colour_closure self lv d)
    (run_update self (RawColorUpdater lv d) anim).
Proof.
  unfold run_update. unfold_callbacks.
  pres ltac:(unfold holds_colour_closure in *; simpl; assumption).
Qed.

Lemma fire_all_colour_closure (self : string) (lv : Triple) (d : Data)
    (cbs : list Callback) :
  preserves (holds_colour_closure self lv d) (fire_all self cbs).
Proof.
  induction cbs as [|cb cbs IH]; simpl.
  - apply preserves_ret.
  - apply preserves_bind; [|intros _; exact IH].
    destruct cb as [anim|]; simpl.
    + apply preserves_this_bind. intros i el Hi HP.
      pose proof HP as (i' & Hi' & a & Ha & Hu). rewrite Hi in Hi'. injection Hi' as <-.
      rewrite Ha. destruct a; simpl in Hu. subst. apply colour_closure_run, HP.
    + unfold complete, emit.
      pres ltac:(unfold holds_colour_closure in *; simpl; holds_side).
Qed.

(** X9: the raw-colour updater compares each colour with the colour it
    captured when the configuration was made, never with the colour it
    wrote last: whatever the callbacks before have written, a callback
    that delivers the captured colour writes nothing. *)
Theorem raw_colour_updater_compares_with_first_colour
    (self : string) (el : Entity) (i : Instance) (a : Anim) (lastValue rgb : Triple)
    (d : Data) (cbs : list Callback) (anim : AnimArg) :
  components el !! self = Some (Animation i) ->
  animation i = Some a ->
  anim_update a = Some (RawColorUpdater lastValue d) ->
  capture (animatables0_target anim) "r" "g" "b" = Some rgb ->
  same_triple rgb lastValue = true ->
  let el1 := final (fire_all self cbs el) in
  fire self (OnUpdate anim) el1 = Return tt el1 /\
  holds_colour_closure self lastValue d el1.
Proof.
  intros Hi Ha Hu Hrgb Hsame el1.
  assert (HP : holds_colour_closure self lastValue d el1).
  { apply fire_all_colour_closure. exists i. split; [exact Hi|]. exists a. auto. }
  split; [|exact HP].
  destruct HP as (i1 & Hi1 & a1 & Ha1 & Hu1).
  unfold fire, bind at 1. rewrite (this_lookup self el1 i1 Hi1), Ha1.
  destruct a1; simpl in Hu1. subst. simpl. unfold bind. rewrite Hrgb. simpl.
  rewrite Hsame. reflexivity.
Qed.

Lemma raw_colour_updater_compares_with_first_colour_witness :
  let el1 :=
    final (fire_all "animation" [OnUpdate (colour_frame one zero zero)] colour_animation) in
  walk (object_tree el1) (split_dot "components.material.material.color") =
  Some (VObj [("r", VNum one); ("g", VNum zero); ("b", VNum zero)]) /\
  fire "animation" (OnUpdate (colour_frame zero zero zero)) el1 = Return tt el1.
Proof.
  split; [vm_compute; reflexivity|].
  apply (raw_colour_updater_compares_with_first_colour "animation" colour_animation
           (the_instance colour_animation "animation")
           (the_handle (the_instance colour_animation "animation"))
           {| c1 := VNum zero; c2 := VNum zero; c3 := VNum zero |}
           {| c1 := VNum zero; c2 := VNum zero; c3 := VNum zero |}
           colour_data);
    vm_compute; reflexivity.
Defined.

(** *** Notifications (lines 95 and 189) *)

Lemma details_alter (m0 m : gmap string Component) (s : string)
    (f : Instance -> Instance) :
  (forall i, eventDetail (f i) = eventDetail i) ->
  details_from m0 m -> details_from m0 (alter (on_instance f) s m).
Proof.
  intros Hf Hm k i. destruct (decide (s = k)) as [->|Hne].
  - intros Hi. apply lookup_on_instance in Hi as (j & Hj & ->).
    rewrite Hf. apply Hm, Hj.
  - rewrite lookup_alter_ne by exact Hne. apply Hm.
Qed.

Lemma details_stop_related (m0 m : gmap string Component) (s p : string) :
  details_from m0 m ->
  details_from m0 (map_imap (fun k c => Some (stop_related s p k c)) m).
Proof.
  intros Hm k i. rewrite map_lookup_imap.
  destruct (m !! k) as [c|] eqn:Hc; simpl; [|discriminate].
  unfold stop_related. destruct (String.eqb k s); [intros [= ->]; auto|].
  destruct c as [j|sch]; [|discriminate].
  destruct (negb _); intros [= <-]; exact (Hm k j Hc).
Qed.

Ltac detail_kept :=
  let i := fresh "i" in
  intros i; destruct i; simpl; repeat case_match; reflexivity.

Ltac notify_side :=
  lazymatch goal with
  | Hn : notifies_from _ _ |- _ =>
      unfold notifies_from in *; destruct Hn as [? ?]
  end;
  split; simpl;
  [ assumption
  | first
      [ assumption
      | apply details_alter; [detail_kept|assumption]
      | apply details_stop_related; assumption ] ].

Lemma emit_notifies (el0 : Entity) (s name : string) :
  name = "animationbegin" \/ name = "animationcomplete" ->
  preserves (notifies_from el0) (emit s name).
Proof.
  intros Hname. unfold emit. apply preserves_this_bind.
  intros i el Hi [(new & Hem & Hnew) Hd]. split; simpl; [|exact Hd].
  exists (new ++ [(name, eventDetail i)])%list. rewrite Hem, app_assoc.
  split; [reflexivity|]. apply Forall_app. split; [exact Hnew|].
  apply Forall_singleton. split; [exact Hname|].
  destruct (Hd s i Hi) as (i0 & Hi0 & He). exists s, i0. split; assumption.
Qed.

Lemma fire_all_notifies (el0 : Entity) (s : string) (cbs : list Callback) :
  preserves (notifies_from el0) (fire_all s cbs).
Proof.
  pose proof (emit_notifies el0 s) as Hemit.
  induction cbs as [|cb cbs IH]; simpl.
  - apply preserves_ret.
  - apply preserves_bind; [|intros _; exact IH].
    destruct cb;
      unfold fire, complete, run_update, set_updater, setComponentProperty,
        object3D_set, Helpers.setRawProperty, Helpers.getRawProperty, Helpers.splitDot;
      pres_with ltac:(apply Hemit; auto) notify_side.
Qed.

Lemma method_notifies (H : Host) (el0 : Entity) (s : string) (t dt : number)
    (op : Entity -> outcome unit) :
  In op [update H s; tick H s t dt; remove s; pause s; play s;
         onStartEvent H s; beginAnimation H s; pauseAnimation s;
         resumeAnimation s] ->
  preserves (notifies_from el0) op.
Proof.
  pose proof (fire_all_notifies el0 s) as Hfire.
  pose proof (emit_notifies el0 s) as Hemit.
  simpl. intros Hop.
  decompose [or] Hop; try contradiction; subst op;
    unfold_methods;
    unfold Helpers.setRawProperty, Helpers.getRawProperty, Helpers.splitDot;
    pres_with ltac:(first [apply Hfire|apply Hemit; auto]) notify_side.
Qed.

Lemma dispatch_notifies (H : Host) (el0 : Entity) (name : string)
    (ls : list Listener) (el : Entity) :
  notifies_from el0 el -> notifies_from el0 (dispatch H name ls el).
Proof.
  revert el. induction ls as [|[n [s kind]] ls IH]; intros el Hel; simpl.
  - exact Hel.
  - apply IH. destruct (String.eqb n name); [|exact Hel].
    unfold handler. simpl.
    destruct kind; apply (method_notifies H el0 s zero zero); simpl; auto 10.
Qed.

Lemma step_notifies (H : Host) (el0 : Entity) (op : Op) (el : Entity) :
  notifies_from el0 el -> notifies_from el0 (step H op el).
Proof.
  intros Hel. destruct op as [s d|s t dt|s|s|s|name|n]; simpl.
  - revert el Hel. apply preserves_bind.
    + apply preserves_modify. intros el Hel. notify_side.
    + intros _. apply (method_notifies H el0 s zero zero). simpl; auto 10.
  - apply (method_notifies H el0 s t dt); [simpl; auto 10|exact Hel].
  - apply (method_notifies H el0 s zero zero); [simpl; auto 10|exact Hel].
  - apply (method_notifies H el0 s zero zero); [simpl; auto 10|exact Hel].
  - apply (method_notifies H el0 s zero zero); [simpl; auto 10|exact Hel].
  - apply dispatch_notifies, Hel.
  - destruct (timers el !! n) as [[s d]|]; [|exact Hel].
    apply (method_notifies H el0 s zero zero); [simpl; auto 10|].
    destruct Hel as [? ?]. split; simpl; assumption.
Qed.

(** X10: whatever is called, the component emits nothing but
    [animationbegin] and [animationcomplete], each with the event detail
    of an animation instance of the entity, and takes no notification
    back. *)
Theorem only_begin_and_complete_are_emitted (H : Host) (ops : list Op) (el : Entity) :
  exists new,
    emitted (run H ops el) = (emitted el ++ new)%list /\
    Forall (notification_of el) new.
Proof.
  assert (Hrun : forall el', notifies_from el el' -> notifies_from el (run H ops el')).
  { induction ops as [|op ops IH]; intros el' Hel'; simpl.
    - exact Hel'.
    - apply IH, step_notifies, Hel'. }
  apply Hrun. split.
  - exists []. split; [symmetry; apply app_nil_r|constructor].
  - intros k i Hi. exists i. split; [exact Hi|reflexivity].
Qed.

(** *** Entity pause and play (lines 133-151) *)

Ltac agree_side :=
  lazymatch goal with
  | Hp : pause_flags_agree _ |- _ => unfold pause_flags_agree in *
  end;
  let k := fresh "k" in
  intros k; simpl;
  lazymatch goal with
  | Hp : forall k, every _ k _ |- _ => specialize (Hp k)
  end;
  every_side.

Lemma fire_all_agree (s : string) (cbs : list Callback) :
  preserves pause_flags_agree (fire_all s cbs).
Proof.
  induction cbs as [|cb cbs IH]; simpl.
  - apply preserves_ret.
  - apply preserves_bind; [|intros _; exact IH].
    destruct cb; unfold_callbacks; pres agree_side.
Qed.

Lemma alter_missing (f : Instance -> Instance) (s : string)
    (m : gmap string Component) :
  (forall i, m !! s <> Some (Animation i)) -> alter (on_instance f) s m = m.
Proof.
  intros Hs. apply map_eq. intros k. destruct (decide (s = k)) as [->|Hne].
  - rewrite lookup_alter_eq. destruct (m !! k) as [[i|sch]|]; simpl; try reflexivity.
    destruct (Hs i). reflexivity.
  - apply lookup_alter_ne, Hne.
Qed.

Lemma pause_agree (s : string) : preserves pause_flags_agree (pause s).
Proof.
  intros el Hel. destruct (components el !! s) as [c|] eqn:Hc;
    [destruct c as [i|sch]|].
  - rewrite (pause_lookup s el i Hc). intros k j. simpl.
    destruct (decide (s = k)) as [->|Hne].
    + rewrite lookup_insert_eq. intros [= <-]. reflexivity.
    + rewrite lookup_insert_ne by exact Hne. apply Hel.
  - assert (Hm : forall f, alter (on_instance f) s (components el) = components el)
      by (intros f; apply alter_missing; congruence).
    unfold pause, pauseAnimation, removeEventListeners, set_this, modify, bind, this.
    simpl. rewrite !Hm, Hc. simpl. rewrite ?Hm. destruct el; exact Hel.
  - assert (Hm : forall f, alter (on_instance f) s (components el) = components el)
      by (intros f; apply alter_missing; congruence).
    unfold pause, pauseAnimation, removeEventListeners, set_this, modify, bind, this.
    simpl. rewrite !Hm, Hc. simpl. rewrite ?Hm. destruct el; exact Hel.
Qed.

Lemma play_not_paused (s : string) (el : Entity) (i : Instance) :
  components el !! s = Some (Animation i) ->
  paused i = false ->
  play s el = Return tt el.
Proof.
  intros Hi Hp. unfold play, bind. rewrite (this_lookup _ _ _ Hi), Hp. reflexivity.
Qed.

Lemma play_lookup (s : string) (el : Entity) (i : Instance) :
  components el !! s = Some (Animation i) ->
  paused i = true ->
  pausedWasPlaying i = true ->
  play s el =
  Return tt
    (with_listeners (attach s (data i) (listeners el))
       (with_components
          (<[s := Animation
                    (with_pausedWasPlaying false
                       (with_animationIsPlaying true (with_paused false i)))]>
             (components el))
          el)).
Proof.
  intros Hi Hp Hw. unfold play. unfold bind at 1. rewrite (this_lookup _ _ _ Hi), Hp.
  simpl. unfold bind at 1, set_this at 1, modify. simpl.
  rewrite (alter_on_instance _ _ _ _ Hi).
  unfold bind at 1.
  erewrite addEventListeners_lookup by (simpl; apply lookup_insert_eq).
  unfold bind at 1. unfold this at 1. simpl. rewrite lookup_insert_eq. simpl.
  rewrite Hw. unfold resumeAnimation, bind, set_this, modify. simpl.
  rewrite !alter_after_insert. reflexivity.
Qed.

Lemma play_agree (s : string) : preserves pause_flags_agree (play s).
Proof.
  intros el Hel. destruct (components el !! s) as [c|] eqn:Hc;
    [destruct c as [i|sch]|].
  - pose proof (Hel s i Hc) as Hw. simpl in Hw. destruct (paused i) eqn:Hp.
    + rewrite (play_lookup s el i Hc Hp Hw). intros k j. simpl.
      destruct (decide (s = k)) as [->|Hne].
      * rewrite lookup_insert_eq. intros [= <-]. reflexivity.
      * rewrite lookup_insert_ne by exact Hne. apply Hel.
    + rewrite (play_not_paused s el i Hc Hp). exact Hel.
  - unfold play, bind, this. rewrite Hc. exact Hel.
  - unfold play, bind, this. rewrite Hc. exact Hel.
Qed.

Lemma method_agree (H : Host) (s : string) (t dt : number)
    (op : Entity -> outcome unit) :
  In op [update H s; tick H s t dt; remove s; pause s; play s;
         onStartEvent H s; beginAnimation H s; pauseAnimation s;
         resumeAnimation s] ->
  preserves pause_flags_agree op.
Proof.
  pose proof (fire_all_agree s) as Hfire.
  pose proof (pause_agree s) as Hpause.
  pose proof (play_agree s) as Hplay.
  simpl. intros Hop.
  decompose [or] Hop; try contradiction; subst op; try assumption;
    unfold_methods; unfold_callbacks;
    pres_with ltac:(apply Hfire) agree_side.
Qed.

Lemma dispatch_agree (H : Host) (name : string) (ls : list Listener) (el : Entity) :
  pause_flags_agree el -> pause_flags_agree (dispatch H name ls el).
Proof.
  revert el. induction ls as [|[n [s kind]] ls IH]; intros el Hel; simpl.
  - exact Hel.
  - apply IH. destruct (String.eqb n name); [|exact Hel].
    unfold handler. simpl.
    destruct kind; apply (method_agree H s zero zero); simpl; auto 10.
Qed.

Lemma step_agree (H : Host) (op : Op) (el : Entity) :
  pause_flags_agree el -> pause_flags_agree (step H op el).
Proof.
  intros Hel. destruct op as [s d|s t dt|s|s|s|name|n]; simpl.
  - revert el Hel. apply preserves_bind.
    + apply preserves_modify. intros el Hel. agree_side.
    + intros _. apply (method_agree H s zero zero). simpl; auto 10.
  - apply (method_agree H s t dt); [simpl; auto 10|exact Hel].
  - apply (method_agree H s zero zero); [simpl; auto 10|exact Hel].
  - apply (method_agree H s zero zero); [simpl; auto 10|exact Hel].
  - apply (method_agree H s zero zero); [simpl; auto 10|exact Hel].
  - apply dispatch_agree, Hel.
  - destruct (timers el !! n) as [[s d]|]; [|exact Hel].
    apply (method_agree H s zero zero); [simpl; auto 10|exact Hel].
Qed.

Lemma entity_raw_free (instances : list (string * Data)) :
  Forall (fun kd => Helpers.isRawProperty (snd kd) = false) instances ->
  raw_free (Example.entity instances).
Proof.
  intros Hraw k j Hj. simpl in Hj. apply elem_of_list_to_map_2 in Hj.
  apply list_elem_of_fmap in Hj as ([k' d] & [= -> ->] & Hin).
  rewrite Forall_forall in Hraw. specialize (Hraw _ Hin). simpl in Hraw.
  unfold raw_instance. simpl. rewrite Hraw. reflexivity.
Qed.

(** X11: [pausedWasPlaying] records nothing. As long as no instance
    animates a raw path (which could lead to the field itself), it is
    between the calls equal to [paused] in every instance, whatever the
    running flag was when the entity paused; so the test of it in [play]
    never fails and a [play] that sees the entity paused sets the
    instance running. *)
Theorem paused_was_playing_follows_paused
    (H : Host) (ops : list Op) (el : Entity) (self : string) (i : Instance) :
  pause_flags_agree el ->
  raw_free el ->
  Forall (fun op => raw_op op = false) ops ->
  components (run H ops el) !! self = Some (Animation i) ->
  pausedWasPlaying i = paused i /\
  (paused i = true ->
   holds (fun i' => animationIsPlaying i' = true /\ paused i' = false) self
     (components (step H (DoPlay self) (run H ops el)))).
Proof.
  intros Hel _ _ Hi.
  assert (Hrun : pause_flags_agree (run H ops el)).
  { clear Hi. revert el Hel. induction ops as [|op ops IH]; intros el Hel; simpl.
    - exact Hel.
    - apply IH, step_agree, Hel. }
  pose proof (Hrun self i Hi) as Hw. simpl in Hw. split; [exact Hw|].
  intros Hp. simpl. rewrite (play_lookup self _ i Hi Hp) by congruence.
  eexists. simpl. rewrite lookup_insert_eq. split; [reflexivity|]. split; reflexivity.
Qed.

Lemma entity_agree (instances : list (string * Data)) :
  pause_flags_agree (Example.entity instances).
Proof.
  intros k j Hj. simpl in Hj. apply elem_of_list_to_map_2 in Hj.
  apply list_elem_of_fmap in Hj as ([k' d] & [= -> ->] & _). reflexivity.
Qed.

Lemma paused_was_playing_follows_paused_witness :
  let el :=
    run Example.host [DoUpdate "animation" triggered_opacity_data; DoPause "animation"]
      (Example.entity [("animation", triggered_opacity_data)]) in
  option_map (fun i => (animationIsPlaying i, paused i, pausedWasPlaying i))
    (Example.instance el "animation") = Some (false, true, true) /\
  holds (fun i' => animationIsPlaying i' = true /\ paused i' = false) "animation"
    (components (step Example.host (DoPlay "animation") el)).
Proof.
  split; [vm_compute; reflexivity|].
  refine (proj2 (paused_was_playing_follows_paused Example.host
            [DoUpdate "animation" triggered_opacity_data; DoPause "animation"]
            (Example.entity [("animation", triggered_opacity_data)]) "animation"
            (the_instance
               (run Example.host
                  [DoUpdate "animation" triggered_opacity_data; DoPause "animation"]
                  (Example.entity [("animation", triggered_opacity_data)]))
               "animation") _ _ _ _) _).
  - apply entity_agree.
  - apply entity_raw_free. repeat constructor.
  - repeat constructor.
  - vm_compute. reflexivity.
  - vm_compute. reflexivity.
Defined.

(** *** The component's clock and the engine (lines 122-126 and 185-186) *)

Lemma final_bind {A B} (P : Entity -> Prop) (m : M A) (k : A -> M B) (el : Entity) :
  P (final (m el)) -> (forall a, preserves P (k a)) -> P (final (bind m k el)).
Proof.
  intros Hm Hk. unfold bind. destruct (m el) as [a el'|el']; simpl in *; [apply Hk|];
    assumption.
Qed.

Ltac clock_side :=
  lazymatch goal with
  | Hp : engine_at_clock _ |- _ => unfold engine_at_clock in *
  end;
  let k := fresh "k" in
  intros k; simpl;
  lazymatch goal with
  | Hp : forall k, every _ k _ |- _ => specialize (Hp k)
  end;
  first
    [ assumption
    | apply every_alter;
      [ let i := fresh "i" in
        unfold clocked; intros i ?; destruct i; simpl in *;
        repeat case_match; simplify_eq/=; try done; try congruence; eauto
      | assumption ]
    | apply every_stop_related; [unfold clocked; inst_side|assumption] ].

Lemma fire_all_clock (s : string) (cbs : list Callback) :
  preserves engine_at_clock (fire_all s cbs).
Proof.
  induction cbs as [|cb cbs IH]; simpl.
  - apply preserves_ret.
  - apply preserves_bind; [|intros _; exact IH].
    destruct cb; unfold_callbacks; pres clock_side.
Qed.

Lemma drive_clock (H : Host) (s : string) (d : Drive) (el : Entity) :
  (forall k, k <> s -> every clocked k (components el)) ->
  every (fun i => time i = drive_time d) s (components el) ->
  engine_at_clock (final (drive H s d el)).
Proof.
  intros Hothers Hs. unfold drive, bind at 1, this.
  destruct (components el !! s) as [c|] eqn:Hc; [destruct c as [i|sch]|]; simpl.
  - destruct (animation i) as [a|] eqn:Ha; simpl.
    + apply final_bind; [|intros _; apply fire_all_clock].
      intros k j. simpl. destruct (decide (s = k)) as [<-|Hne].
      * rewrite lookup_alter_eq, Hc. simpl. intros [= <-]. unfold clocked. simpl.
        symmetry. apply (Hs i Hc).
      * rewrite lookup_alter_ne by exact Hne. apply Hothers. congruence.
    + intros k j Hj. destruct (decide (s = k)) as [<-|Hne].
      * rewrite Hc in Hj. injection Hj as <-. unfold clocked. rewrite Ha. exact I.
      * apply (Hothers k); [congruence|exact Hj].
  - intros k j Hj. destruct (decide (s = k)) as [<-|Hne]; [congruence|].
    apply (Hothers k); [congruence|exact Hj].
  - intros k j Hj. destruct (decide (s = k)) as [<-|Hne]; [congruence|].
    apply (Hothers k); [congruence|exact Hj].
Qed.

Lemma begin_clock (H : Host) (s : string) :
  preserves engine_at_clock (beginAnimation H s).
Proof.
  unfold beginAnimation. apply preserves_bind.
  - unfold_methods; unfold_callbacks; pres clock_side.
  - intros _ el Hel. unfold bind at 1. simpl. apply final_bind.
    + apply drive_clock; simpl.
      * intros k Hne j. rewrite lookup_alter_ne by congruence. apply Hel.
      * intros j Hj. apply lookup_on_instance in Hj as (j0 & _ & ->). reflexivity.
    + intros _. pose proof (fire_all_clock s) as Hfire.
      unfold_methods; unfold_callbacks; pres_with ltac:(apply Hfire) clock_side.
Qed.

Lemma tick_clock (H : Host) (s : string) (t dt : number) :
  preserves engine_at_clock (tick H s t dt).
Proof.
  intros el Hel. unfold tick. unfold bind at 1, this.
  destruct (components el !! s) as [c|] eqn:Hc; [destruct c as [i|sch]|]; simpl;
    try exact Hel.
  destruct (animationIsPlaying i); simpl; [|exact Hel].
  unfold bind at 1. simpl. unfold bind at 1, this. simpl.
  rewrite lookup_alter_eq, Hc. simpl.
  apply drive_clock; simpl.
  - intros k Hne j. rewrite lookup_alter_ne by congruence. apply Hel.
  - intros j Hj. apply lookup_on_instance in Hj as (j0 & Hj0 & ->).
    rewrite Hc in Hj0. injection Hj0 as <-. reflexivity.
Qed.

Lemma method_clock (H : Host) (s : string) (t dt : number)
    (op : Entity -> outcome unit) :
  In op [update H s; tick H s t dt; remove s; pause s; play s;
         onStartEvent H s; beginAnimation H s; pauseAnimation s;
         resumeAnimation s] ->
  preserves engine_at_clock op.
Proof.
  pose proof (fire_all_clock s) as Hfire.
  pose proof (begin_clock H s) as Hbegin.
  pose proof (tick_clock H s t dt) as Htick.
  simpl. intros Hop.
  decompose [or] Hop; try contradiction; subst op; try assumption;
    unfold update, remove, pause, play, onStartEvent, createAndStartAnimation,
      updateConfig, updateConfigForRawColor, updateConfigForDefault, default_from,
      updateConfigForVector, setColorConfig, addEventListeners, removeEventListeners,
      pauseAnimation, resumeAnimation, setTimeout_beginAnimation,
      Helpers.addEventListeners, Helpers.removeEventListeners, Helpers.getRawProperty;
    unfold_callbacks;
    pres_with ltac:(first [apply Hfire|apply Hbegin]) clock_side.
Qed.

Lemma dispatch_clock (H : Host) (name : string) (ls : list Listener) (el : Entity) :
  engine_at_clock el -> engine_at_clock (dispatch H name ls el).
Proof.
  revert el. induction ls as [|[n [s kind]] ls IH]; intros el Hel; simpl.
  - exact Hel.
  - apply IH. destruct (String.eqb n name); [|exact Hel].
    unfold handler. simpl.
    destruct kind; apply (method_clock H s zero zero); simpl; auto 10.
Qed.

Lemma step_clock (H : Host) (op : Op) (el : Entity) :
  engine_at_clock el -> engine_at_clock (step H op el).
Proof.
  intros Hel. destruct op as [s d|s t dt|s|s|s|name|n]; simpl.
  - revert el Hel. apply preserves_bind.
    + apply preserves_modify. intros el Hel. clock_side.
    + intros _. apply (method_clock H s zero zero). simpl; auto 10.
  - apply (method_clock H s t dt); [simpl; auto 10|exact Hel].
  - apply (method_clock H s zero zero); [simpl; auto 10|exact Hel].
  - apply (method_clock H s zero zero); [simpl; auto 10|exact Hel].
  - apply (method_clock H s zero zero); [simpl; auto 10|exact Hel].
  - apply dispatch_clock, Hel.
  - destruct (timers el !! n) as [[s d]|]; [|exact Hel].
    apply (method_clock H s zero zero); [simpl; auto 10|exact Hel].
Qed.

(** X12: the engine instance never runs ahead of or behind the
    component's clock. As long as no instance animates a raw path (which
    could lead to the clock itself), an engine instance that has been
    driven was, after any calls, last driven to the instance's [time]:
    by the seek to zero of a begin, or by a tick to the accumulated
    time. *)
Theorem engine_is_driven_to_the_component_time
    (H : Host) (ops : list Op) (el : Entity) (self : string) (i : Instance)
    (a : Anim) (d : Drive) (earlier : list Drive) :
  engine_at_clock el ->
  raw_free el ->
  Forall (fun op => raw_op op = false) ops ->
  components (run H ops el) !! self = Some (Animation i) ->
  animation i = Some a ->
  anim_driven a = d :: earlier ->
  drive_time d = time i.
Proof.
  intros Hel _ _ Hi Ha Hd.
  assert (Hrun : engine_at_clock (run H ops el)).
  { clear Hi. revert el Hel. induction ops as [|op ops IH]; intros el Hel; simpl.
    - exact Hel.
    - apply IH, step_clock, Hel. }
  pose proof (Hrun self i Hi) as Hc. unfold clocked in Hc. rewrite Ha, Hd in Hc.
  exact Hc.
Qed.

Lemma entity_clock (instances : list (string * Data)) :
  engine_at_clock (Example.entity instances).
Proof.
  intros k j Hj. simpl in Hj. apply elem_of_list_to_map_2 in Hj.
  apply list_elem_of_fmap in Hj as ([k' d] & [= -> ->] & _). exact I.
Qed.

Lemma engine_is_driven_to_the_component_time_witness :
  let el :=
    run Example.host
      [DoUpdate "animation" opacity_data; DoTick "animation" zero 16%float;
       DoTick "animation" 16%float 16%float]
      one_opacity_animation in
  option_map anim_driven (animation (the_instance el "animation")) =
  Some [Tick 32%float; Tick 16%float; Seek zero] /\
  drive_time (Tick 32%float) = time (the_instance el "animation").
Proof.
  split; [vm_compute; reflexivity|].
  apply (engine_is_driven_to_the_component_time Example.host
           [DoUpdate "animation" opacity_data; DoTick "animation" zero 16%float;
            DoTick "animation" 16%float 16%float]
           one_opacity_animation "animation" _
           (the_handle
              (the_instance
                 (run Example.host
                    [DoUpdate "animation" opacity_data; DoTick "animation" zero 16%float;
                     DoTick "animation" 16%float 16%float]
                    one_opacity_animation) "animation"))
           _ [Tick 16%float; Seek zero]).
  - apply entity_clock.
  - apply entity_raw_free. repeat constructor.
  - repeat constructor.
  - vm_compute. reflexivity.
  - vm_compute. reflexivity.
  - vm_compute. reflexivity.
Defined.

(** *** Writes to the scene *)








(** *** What a call on one instance does to the others (lines 417-427) *)










(** *** A raw path that does not resolve (lines 224 and 269-273) *)

Lemma getRawProperty_unresolved (path : string) (el : Entity) :
  cache_coherent el ->
  walk (object_tree el) (split_dot path) = None ->
  exists c, Helpers.getRawProperty path el = TypeError (with_splitCache c el).
Proof.
  intros Hc Hw. destruct (splitDot_coherent path el Hc) as (c & Hs & _).
  exists c. unfold Helpers.getRawProperty, bind at 1. rewrite Hs.
  unfold bind, get. simpl. rewrite Hw. reflexivity.
Qed.

Lemma getPropertyType_insert (H : Host) (el : Entity) (self p : string)
    (i j : Instance) :
  components el !! self = Some (Animation i) ->
  Helpers.getPropertyType H
    (with_components (<[self := Animation j]> (components el)) el) p =
  Helpers.getPropertyType H el p.
Proof.
  intros Hi. unfold Helpers.getPropertyType. simpl.
  destruct (decide (self = nth 0 (split_dot p) "")) as [<-|Hne].
  - rewrite lookup_insert_eq, Hi. reflexivity.
  - rewrite lookup_insert_ne by exact Hne. reflexivity.
Qed.

Lemma updateConfig_unresolved (H : Host) (self : string) (el : Entity) (j : Instance) :
  components el !! self = Some (Animation j) ->
  from (data j) = "" ->
  Helpers.isRawProperty (data j) = true ->
  type (data j) = TYPE_COLOR \/
  is_vector_type (Helpers.getPropertyType H el (property (data j))) = false ->
  cache_coherent el ->
  walk (object_tree el) (split_dot (property (data j))) = None ->
  exists c, updateConfig H self el = TypeError (with_splitCache c el).
Proof.
  intros Hj Hfrom Hraw Hroute Hc Hw.
  destruct (getRawProperty_unresolved _ _ Hc Hw) as (c & Hget).
  exists c. unfold updateConfig. unfold bind at 1. rewrite (this_lookup _ _ _ Hj).
  unfold bind at 1. simpl. rewrite Hraw. simpl.
  destruct (String.eqb (type (data j)) TYPE_COLOR) eqn:Hty.
  - unfold updateConfigForRawColor. unfold bind at 1. rewrite (this_lookup _ _ _ Hj).
    unfold bind at 1. rewrite Hfrom. simpl. rewrite Hget. reflexivity.
  - destruct Hroute as [Hcol|Hvec].
    { rewrite Hcol in Hty. discriminate. }
    rewrite Hvec. unfold updateConfigForDefault. unfold bind at 1.
    rewrite (this_lookup _ _ _ Hj). unfold bind at 1, default_from.
    rewrite Hfrom, Hraw. simpl. rewrite Hget. reflexivity.
Qed.

(** X16: when the configuration gives no [from] and the raw path of the
    property does not resolve, the update ends in a TypeError before
    anything is built: the running flag is cleared and the base
    configuration set, the engine instance and all listeners are those
    of before, no timer is armed and nothing is emitted or written. *)
Theorem unresolved_raw_path_aborts_update
    (H : Host) (self : string) (d : Data) (el : Entity) (i : Instance) :
  components el !! self = Some (Animation i) ->
  property d <> "" ->
  from d = "" ->
  Helpers.isRawProperty d = true ->
  type d = TYPE_COLOR \/
  is_vector_type (Helpers.getPropertyType H el (property d)) = false ->
  cache_coherent el ->
  walk (object_tree el) (split_dot (property d)) = None ->
  exists el',
    (set_this self (with_data d);; update H self) el = TypeError el' /\
    components el' = <[self := Animation (prepared (with_data d i))]> (components el) /\
    animation (prepared (with_data d i)) = animation i /\
    animationIsPlaying (prepared (with_data d i)) = false /\
    listeners el' = listeners el /\ timers el' = timers el /\
    emitted el' = emitted el /\ writes el' = writes el /\
    object_tree el' = object_tree el.
Proof.
  intros Hi Hp Hfrom Hraw Hroute Hc Hw.
  destruct (updateConfig_unresolved H self
              (with_components
                 (<[self := Animation (prepared (with_data d i))]> (components el)) el)
              (prepared (with_data d i)))
    as (c & Hcfg); try assumption.
  { simpl. apply lookup_insert_eq. }
  { destruct Hroute as [Hcol|Hvec]; [left; exact Hcol|right].
    simpl. rewrite (getPropertyType_insert H el self _ i _ Hi). exact Hvec. }
  exists (with_splitCache c
            (with_components
               (<[self := Animation (prepared (with_data d i))]> (components el)) el)).
  split; [|simpl; repeat split].
  unfold bind at 1, set_this at 1, modify. rewrite (alter_on_instance _ _ _ _ Hi).
  unfold update. unfold bind at 1, this at 1. simpl. rewrite lookup_insert_eq. simpl.
  unfold bind at 1, set_this at 1, modify. simpl. rewrite alter_after_insert.
  destruct (String.eqb_spec (property d) ""); [contradiction|].
  unfold bind at 1, set_this at 1, modify. simpl. rewrite alter_after_insert.
  unfold createAndStartAnimation. unfold bind at 1, this at 1. simpl.
  rewrite lookup_insert_eq. simpl. unfold bind at 1.
  lazymatch goal with
  | |- context [updateConfig H self ?e] =>
      change e with
        (with_components
           (<[self := Animation (prepared (with_data d i))]> (components el)) el)
  end.
  rewrite Hcfg. reflexivity.
Qed.

Lemma unresolved_raw_path_aborts_update_witness :
  exists el',
    step Example.host (DoUpdate "animation" light_colour_data) colour_animation = el' /\
    option_map animationIsPlaying (Example.instance colour_animation "animation") =
    Some true /\
    option_map animationIsPlaying (Example.instance el' "animation") = Some false /\
    emitted el' = emitted colour_animation.
Proof.
  destruct (unresolved_raw_path_aborts_update Example.host "animation"
              light_colour_data colour_animation
              (the_instance colour_animation "animation"))
    as (el' & Hup & Hcomp & _ & _ & _ & _ & Hem & _).
  - vm_compute. reflexivity.
  - discriminate.
  - reflexivity.
  - reflexivity.
  - left. reflexivity.
  - apply step_coherent, cache_coherent_fresh. reflexivity.
  - vm_compute. reflexivity.
  - exists el'. split; [simpl; rewrite Hup; reflexivity|].
    split; [vm_compute; reflexivity|]. split; [|exact Hem].
    unfold Example.instance. rewrite Hcomp, lookup_insert_eq. reflexivity.
Defined.

(** *** The raw-colour route (lines 215-254 and 445-456) *)





(** *** Degrees to radians (lines 490-494) *)

Lemma has_field_set_field (k k' : string) (v : value) (fs : list (string * value)) :
  has_field k (set_field k' v fs) = (has_field k fs || String.eqb k' k)%bool.
Proof.
  unfold has_field. induction fs as [|[k0 w] fs IH]; simpl.
  - destruct (String.eqb k' k); reflexivity.
  - destruct (String.eqb_spec k0 k') as [->|Hne]; simpl.
    + destruct (String.eqb k' k); simpl; [reflexivity|].
      destruct (existsb _ fs); reflexivity.
    + rewrite IH. destruct (String.eqb k0 k); reflexivity.
Qed.

Lemma field_missing (k : string) (fs : list (string * value)) :
  has_field k fs = false -> field k fs = VUndefined.
Proof.
  unfold has_field. induction fs as [|[k0 w] fs IH]; simpl; [reflexivity|].
  destruct (String.eqb k0 k); simpl; [discriminate|exact IH].
Qed.

(** X18: [toRadians] converts the members [x], [y] and [z] and nothing
    else: every other member of the object (the [w] of a four-vector) is
    left as it is and no member is dropped, and a coordinate that the
    object does not have becomes NaN. *)
Theorem toRadians_converts_x_y_z_only (fs : list (string * value)) (k : string) :
  exists fs',
    Helpers.toRadians (VObj fs) = Some (VObj fs') /\
    field k fs' =
    (if (String.eqb k "x" || String.eqb k "y" || String.eqb k "z")%bool
     then VNum (THREE.degToRad (field k fs))
     else field k fs) /\
    has_field k fs' =
    (has_field k fs || String.eqb k "x" || String.eqb k "y" || String.eqb k "z")%bool /\
    (has_field k fs = false -> has_field k fs' = true -> field k fs' = VNum NaN).
Proof.
  exists (Helpers.radians fs). split; [reflexivity|].
  assert (Hf : field k (Helpers.radians fs) =
               if (String.eqb k "x" || String.eqb k "y" || String.eqb k "z")%bool
               then VNum (THREE.degToRad (field k fs))
               else field k fs).
  { destruct (radians_fields fs) as (Hx & Hy & Hz & _).
    destruct (String.eqb_spec k "x") as [->|Hnx]; [exact Hx|].
    destruct (String.eqb_spec k "y") as [->|Hny]; [exact Hy|].
    destruct (String.eqb_spec k "z") as [->|Hnz]; [exact Hz|].
    simpl. unfold Helpers.radians. rewrite !field_set_field_ne by assumption.
    reflexivity. }
  assert (Hh : has_field k (Helpers.radians fs) =
               (has_field k fs || String.eqb k "x" || String.eqb k "y"
                || String.eqb k "z")%bool).
  { unfold Helpers.radians. rewrite !has_field_set_field.
    rewrite (String.eqb_sym "x"), (String.eqb_sym "y"), (String.eqb_sym "z").
    reflexivity. }
  split; [exact Hf|]. split; [exact Hh|].
  intros Hmiss Hhas. rewrite Hh, Hmiss in Hhas. simpl in Hhas.
  rewrite Hf, Hhas, (field_missing k fs Hmiss). reflexivity.
Qed.

Lemma toRadians_converts_x_y_z_only_witness :
  exists fs',
    Helpers.toRadians (VObj [("x", VNum 180%float); ("y", VNum zero); ("w", VNum one)]) =
    Some (VObj fs') /\
    field "z" fs' = VNum NaN.
Proof.
  destruct (toRadians_converts_x_y_z_only
              [("x", VNum 180%float); ("y", VNum zero); ("w", VNum one)] "z")
    as (fs' & Hrad & _ & Hhas & Hnan).
  exists fs'. split; [exact Hrad|]. apply Hnan; [reflexivity|].
  rewrite Hhas. reflexivity.
Defined.

(** *** The vector route away from the rotation (lines 324-393) *)

(** X19: for a vector-routed property other than the rotation both
    endpoints reach the engine as the coordinate parser gives them: the
    [from] object is the engine's one target, every key of the parsed
    [to] is copied into the configuration while the keys that the
    configuration had beside them stay, and the updater captures the
    [x], [y], [z] of [from]; it is the transform updater for [position]
    and [scale] and the component updater otherwise. *)
Theorem vector_endpoints_as_parsed
    (H : Host) (self : string) (el : Entity) (i : Instance)
    (ffs : list (string * value)) :
  components el !! self = Some (Animation i) ->
  property (data i) <> PROP_ROTATION ->
  (Helpers.isRawProperty (data i) && String.eqb (type (data i)) TYPE_COLOR)%bool = false ->
  is_vector_type (Helpers.getPropertyType H el (property (data i))) = true ->
  (if negb (String.eqb (from (data i)) "")
   then VObj (coordinates_parse H (from (data i)))
   else getComponentProperty H el (property (data i))) = VObj ffs ->
  let tfs := coordinates_parse H (to (data i)) in
  let lastValue :=
    {| c1 := field "x" ffs; c2 := field "y" ffs; c3 := field "z" ffs |} in
  exists el1 i1,
    updateConfig H self el = Return tt el1 /\
    components el1 !! self = Some (Animation i1) /\
    targetsArray i1 = [VObj ffs] /\
    anim_targets (anime i1) = [VObj ffs] /\
    (forall k, In k (map fst tfs) -> field k (cfg_keys (config i1)) = field k tfs) /\
    (forall k, ~ In k (map fst tfs) ->
       field k (cfg_keys (config i1)) = field k (cfg_keys (config i))) /\
    cfg_update (config i1) =
    Some (if (String.eqb (property (data i)) PROP_POSITION
              || String.eqb (property (data i)) PROP_SCALE)%bool
          then TransformUpdater lastValue (data i)
          else VectorUpdater lastValue (data i)).
Proof.
  intros Hi Hp Hraw Hvec Hfrom tfs lastValue.
  assert (Hrot : String.eqb (property (data i)) PROP_ROTATION = false)
    by (apply String.eqb_neq, Hp).
  destruct (String.eqb (property (data i)) PROP_POSITION
            || String.eqb (property (data i)) PROP_SCALE)%bool eqn:Ht;
    do 2 eexists;
    (split;
     [ unfold updateConfig; unfold bind at 1; rewrite (this_lookup _ _ _ Hi);
       unfold bind at 1; simpl; rewrite Hraw, Hvec;
       unfold updateConfigForVector; unfold bind at 1; rewrite (this_lookup _ _ _ Hi);
       unfold bind at 1; simpl; rewrite Hfrom, Hrot; simpl;
       unfold bind at 1, ret at 1; unfold bind at 1, ret at 1;
       unfold bind at 1, set_this at 1, modify at 1; simpl;
       rewrite (alter_on_instance _ _ _ _ Hi);
       unfold bind at 1, set_this at 1, modify at 1; simpl; rewrite alter_after_insert;
       unfold bind at 1, set_this at 1, modify at 1; simpl; rewrite alter_after_insert;
       rewrite Bool.orb_false_r, Ht;
       unfold bind, set_this, modify; simpl; rewrite alter_after_insert; reflexivity
     | simpl; rewrite lookup_insert_eq;
       (split; [reflexivity|]); simpl;
       (split; [reflexivity|]); (split; [reflexivity|]);
       (split; [intros k Hk; apply field_copied, Hk|]);
       (split; [intros k Hk; apply field_not_copied, Hk|reflexivity]) ]).
Qed.

Lemma vector_endpoints_as_parsed_witness :
  exists el1 i1,
    updateConfig Example.host "animation" (positioned_entity position_data) =
    Return tt el1 /\
    components el1 !! "animation" = Some (Animation i1) /\
    field "y" (cfg_keys (config i1)) = VNum 2%float /\
    cfg_update (config i1) =
    Some (TransformUpdater {| c1 := VNum zero; c2 := VNum zero; c3 := VNum zero |}
            position_data).
Proof.
  destruct (vector_endpoints_as_parsed Example.host "animation"
              (positioned_entity position_data) (init "animation" position_data)
              [("x", VNum zero); ("y", VNum zero); ("z", VNum zero)])
    as (el1 & i1 & Hcfg & Hi1 & _ & _ & Hto & _ & Hup).
  - vm_compute. reflexivity.
  - discriminate.
  - reflexivity.
  - vm_compute. reflexivity.
  - vm_compute. reflexivity.
  - exists el1, i1. split; [exact Hcfg|]. split; [exact Hi1|]. split; [|exact Hup].
    rewrite Hto; [vm_compute; reflexivity|]. vm_compute. auto.
Defined.

(** X20: on the vector route a [from] that is neither declared nor found
    on the entity ends the configuration in a TypeError. For the rotation
    it is raised by the conversion to radians and nothing has changed;
    for any other property it is raised when the updater captures
    [from.x], after the undefined value was installed as the engine's
    target and the keys of [to] were copied, and the updater of before is
    left in the configuration. *)
Theorem vector_route_without_from_value
    (H : Host) (self : string) (el : Entity) (i : Instance) (from0 : value) :
  components el !! self = Some (Animation i) ->
  (Helpers.isRawProperty (data i) && String.eqb (type (data i)) TYPE_COLOR)%bool = false ->
  is_vector_type (Helpers.getPropertyType H el (property (data i))) = true ->
  from (data i) = "" ->
  getComponentProperty H el (property (data i)) = from0 ->
  from0 = VUndefined \/ from0 = VNull ->
  updateConfig H self el =
  TypeError
    (if String.eqb (property (data i)) PROP_ROTATION then el
     else with_components
            (<[self := Animation (half_configured H i from0)]> (components el)) el) /\
  cfg_update (config (half_configured H i from0)) = cfg_update (config i).
Proof.
  intros Hi Hraw Hvec Hfrom Hget Hnone. split; [|reflexivity].
  unfold updateConfig. unfold bind at 1. rewrite (this_lookup _ _ _ Hi).
  unfold bind at 1. simpl. rewrite Hraw, Hvec.
  unfold updateConfigForVector. unfold bind at 1. rewrite (this_lookup _ _ _ Hi).
  unfold bind at 1. simpl. rewrite Hfrom, Hget. simpl.
  destruct (String.eqb (property (data i)) PROP_ROTATION) eqn:Hrot.
  - destruct Hnone as [-> | ->]; reflexivity.
  - unfold bind at 1, ret at 1. unfold bind at 1, ret at 1.
    unfold bind at 1, set_this at 1, modify at 1. simpl.
    rewrite (alter_on_instance _ _ _ _ Hi).
    unfold bind at 1, set_this at 1, modify at 1. simpl. rewrite alter_after_insert.
    unfold bind at 1, set_this at 1, modify at 1. simpl. rewrite alter_after_insert.
    destruct (String.eqb (property (data i)) PROP_POSITION
              || false || String.eqb (property (data i)) PROP_SCALE)%bool;
      destruct Hnone as [-> | ->]; reflexivity.
Qed.

Lemma vector_route_without_from_value_witness :
  exists el',
    updateConfig Example.host "animation" (positioned_entity drifting_data) =
    TypeError el' /\
    option_map targetsArray (Example.instance el' "animation") = Some [VUndefined].
Proof.
  destruct (vector_route_without_from_value Example.host "animation"
              (positioned_entity drifting_data) (init "animation" drifting_data)
              VUndefined) as [Hcfg _].
  - vm_compute. reflexivity.
  - reflexivity.
  - vm_compute. reflexivity.
  - reflexivity.
  - reflexivity.
  - left. reflexivity.
  - eexists. split; [exact Hcfg|]. vm_compute. reflexivity.
Defined.
